(** * Seating roulette: the constraint-aware seat assignment engine

    A shallow embedding of the assignment logic of
    [src/components/Roulette/RouletteDisplay.tsx] (first component variant):
    [getAdjacentSeatIds], [checkRelationConstraints], [stopRoulette],
    [handleResetRoulette] and [handleBulkAssign], together with the data
    types of [src/types]; of the handlers around a draw ([startRoulette],
    the highlight, the click on a seat, [handleStudentSelect],
    [handleCloseResultModal]); of [handleMoveStudent] of the seating
    chart; of the seat layout screen ([SeatMapConfig], [SeatConfig]); of
    [getAdjacentSeatIds] of the second version of the component; and of
    the screens for fixed seats and relations.

    Modelling conventions.
    - JavaScript strings are [string]; [a === b] on strings is decidable
      equality.  A value of type [string | null] is an [option string], and
      its truthiness test ([if (x)], [!x]) is [truthy]: neither [null] nor
      the empty string.
    - JavaScript numbers that hold seat coordinates are [Z].  The embedding
      is exact as long as the coordinates stay below 2^53, where JavaScript
      integer arithmetic and printing are exact.
    - React state is an explicit record [State]; every [setX] call of a
      handler is a state update threaded in program order, and every read of
      a handler goes to the snapshot the handler was created from.
    - [Math.random] is an explicit argument of the handlers that draw from
      it; [window.confirm] is a boolean argument. *)

From Stdlib Require Import ZArith Ascii String List Permutation Lia.
From stdpp Require Import base decidable option list strings pretty gmap sets.

Local Open Scope Z_scope.
Local Open Scope string_scope.
Local Open Scope list_scope.

(** ** Data model ([src/types]) *)

Module Student.
Record t := mk {
  id : string;
  number : string;
  name : string;
  kana : string;
  info1 : string;
  info2 : string;
  info3 : string;
  isAssigned : bool;
  assignedSeatId : option string
}.
End Student.

Module Seat.
Record t := mk {
  seatId : string;
  row : Z;
  col : Z;
  assignedStudentId : option string;
  isUsable : bool
}.
End Seat.

Module FixedSeat.
Record t := mk {
  studentId : string;
  seatId : string
}.
End FixedSeat.

Module Relation.
Inductive RelationType := co_seat | no_co_seat.

Record t := mk {
  studentId1 : string;
  studentId2 : string;
  type : RelationType
}.
End Relation.

Module Winning.
Record t := mk {
  studentId : string;
  seatId : string
}.
End Winning.

(** Truthiness of a [string | null] value. *)
Definition truthy (o : option string) : bool :=
  match o with
  | Some s => negb (bool_decide (s = ""))
  | None => false
  end.

(** ** Grid topology: [getAdjacentSeatIds] *)

(** [\d]: one of the ten ASCII digits. *)
Definition isDigit (c : ascii) : bool :=
  match Ascii.is_nat c with Some _ => true | None => false end.

(** The longest run of digits at the head of a string, and what follows. *)
Fixpoint spanDigits (s : string) : string * string :=
  match s with
  | String c s' =>
      if isDigit c
      then let '(ds, rest) := spanDigits s' in (String c ds, rest)
      else ("", s)
  | EmptyString => ("", "")
  end.

(** [R(\d+)C(\d+)] tried at the head of the string.  After [R] the digit
    group must be followed by [C], so only the longest digit run can
    match; the second group is greedy. *)
Definition matchHere (s : string) : option (string * string) :=
  match s with
  | String "R" s1 =>
      match spanDigits s1 with
      | (String d1 ds1, String "C" s2) =>
          match spanDigits s2 with
          | (String d2 ds2, _) => Some (String d1 ds1, String d2 ds2)
          | _ => None
          end
      | _ => None
      end
  | _ => None
  end.

(** [seatId.match(/R(\d+)C(\d+)/)]: the pattern is not anchored, the
    leftmost position where it matches wins; the result is the two
    captured groups. *)
Fixpoint matchSeatId (s : string) : option (string * string) :=
  match matchHere s with
  | Some m => Some m
  | None =>
      match s with
      | String _ s' => matchSeatId s'
      | EmptyString => None
      end
  end.

(** [parseInt(digits, 10)] on a captured digit group. *)
Fixpoint parseIntFrom (acc : Z) (s : string) : Z :=
  match s with
  | String c s' =>
      match Ascii.is_nat c with
      | Some d => parseIntFrom (10 * acc + Z.of_nat d) s'
      | None => acc
      end
  | EmptyString => acc
  end.

Definition parseInt (s : string) : Z := parseIntFrom 0 s.

(** The template literal [`R${row}C${col}`]. *)
Definition seatIdOf (row col : Z) : string :=
  "R" +:+ pretty row +:+ "C" +:+ pretty col.

(** [potentialAdjacents]: up, down, left, right. *)
Definition potentialAdjacents (row col : Z) : list string :=
  [ seatIdOf (row - 1) col;
    seatIdOf (row + 1) col;
    seatIdOf row (col - 1);
    seatIdOf row (col + 1) ].

(** [seatMap.some(s => s.seatId === adjId)] *)
Definition someSeatWithId (seatMap : list Seat.t) (adjId : string) : bool :=
  existsb (λ s, bool_decide (Seat.seatId s = adjId)) seatMap.

Definition getAdjacentSeatIds (seatId : string) (seatMap : list Seat.t)
  : list string :=
  match matchSeatId seatId with
  | None => []
  | Some (m1, m2) =>
      let row := parseInt m1 in
      let col := parseInt m2 in
      fold_left
        (λ adjacentIds adjId,
           if someSeatWithId seatMap adjId && negb (bool_decide (adjId = seatId))
           then adjacentIds ++ [adjId]
           else adjacentIds)
        (potentialAdjacents row col) []
  end.

(** ** Constraint checker: [checkRelationConstraints] *)

(** [adjacentSeats.includes(partnerSeatId)] *)
Definition includes (l : list string) (x : string) : bool :=
  bool_decide (x ∈ l).

(** [allStudents.find(s => s.id === partnerId)] *)
Definition findStudent (allStudents : list Student.t) (sid : string)
  : option Student.t :=
  List.find (λ s, bool_decide (Student.id s = sid)) allStudents.

(** [rel.studentId1 === assigningStudent.id ? rel.studentId2
    : rel.studentId1] *)
Definition partnerIdOf (rel : Relation.t) (assigningId : string) : string :=
  if bool_decide (Relation.studentId1 rel = assigningId)
  then Relation.studentId2 rel else Relation.studentId1 rel.

(** The body of [for (const rel of relations)]: [false] is the early
    [return false], falling through to the rest of the list is
    [continue], the end of the list is the final [return true]. *)
Fixpoint checkRelationsLoop (assigningId : string)
    (adjacentSeats : list string) (allStudents : list Student.t)
    (relations : list Relation.t) : bool :=
  match relations with
  | [] => true
  | rel :: rest =>
      let continue :=
        checkRelationsLoop assigningId adjacentSeats allStudents rest in
      if bool_decide (Relation.studentId1 rel = assigningId)
         || bool_decide (Relation.studentId2 rel = assigningId)
      then
        match findStudent allStudents (partnerIdOf rel assigningId) with
        | None => continue
        | Some partnerStudent =>
            if negb (Student.isAssigned partnerStudent)
               || negb (truthy (Student.assignedSeatId partnerStudent))
            then continue
            else
              match Student.assignedSeatId partnerStudent with
              | None => continue
              | Some partnerSeatId =>
                  match Relation.type rel with
                  | Relation.co_seat =>
                      if negb (includes adjacentSeats partnerSeatId)
                      then false else continue
                  | Relation.no_co_seat =>
                      if includes adjacentSeats partnerSeatId
                      then false else continue
                  end
              end
        end
      else continue
  end.

Definition checkRelationConstraints (targetSeatId : string)
    (assigningStudent : option Student.t) (currentSeatMap : list Seat.t)
    (allStudents : list Student.t) (relations : list Relation.t) : bool :=
  match assigningStudent with
  | None => false
  | Some student =>
      checkRelationsLoop (Student.id student)
        (getAdjacentSeatIds targetSeatId currentSeatMap)
        allStudents relations
  end.

(** ** Component state *)

Module Roulette.
Record t := mk {
  isRunning : bool;
  currentSelectedSeatId : option string;
  currentAssigningStudent : option Student.t;
  winningHistory : list Winning.t;
  isStopped : bool
}.
End Roulette.

(** The entries of [fixedAssignmentErrors] in [handleBulkAssign]. *)
Inductive FixedError :=
| FixedStudentNotFound (studentId : string)
| FixedSeatNotFound (studentName seatId : string)
| FixedSeatNotUsable (studentName seatId : string)
| FixedSeatTaken (studentName seatId : string).

(** The texts passed to [setLocalErrorMessage], one constructor per
    call site, with the values interpolated into the text. *)
Inductive Message :=
| NoStudentSelected
| FixedSeatUnusable (studentName seatId : string)
| FixedSeatOccupied (studentName seatId : string)
| ManualSeatInadmissible (seatId : string)
| ManualSeatUnavailable (seatId : string)
| NoAdmissibleSeatFound
| NoStudentsToAssign
| NoAvailableSeats
| MoreStudentsThanSeats (studentCount seatCount : nat)
| FixedPhaseProblems (errors : list FixedError)
| SeatNotFoundReviewRelations (studentName : string)
| SeatNotFound (studentName : string).

(** The context values and the local state the handlers read and write.
    [localErrorMessage] is [None] for [null]; a text is the list of its
    lines. *)
Record State := mkState {
  students : list Student.t;
  seatMap : list Seat.t;
  rouletteState : Roulette.t;
  relationConfig : list Relation.t;
  fixedSeatAssignments : list FixedSeat.t;
  openResultModal : bool;
  selectedStudentForAssignment : option Student.t;
  localErrorMessage : option (list Message);
  manuallySelectedSeatIdForRoulette : option string
}.

Definition setStudents (v : list Student.t) (st : State) : State :=
  mkState v (seatMap st) (rouletteState st) (relationConfig st)
    (fixedSeatAssignments st) (openResultModal st)
    (selectedStudentForAssignment st) (localErrorMessage st)
    (manuallySelectedSeatIdForRoulette st).

Definition setSeatMap (v : list Seat.t) (st : State) : State :=
  mkState (students st) v (rouletteState st) (relationConfig st)
    (fixedSeatAssignments st) (openResultModal st)
    (selectedStudentForAssignment st) (localErrorMessage st)
    (manuallySelectedSeatIdForRoulette st).

Definition setRouletteState (f : Roulette.t → Roulette.t) (st : State)
  : State :=
  mkState (students st) (seatMap st) (f (rouletteState st))
    (relationConfig st) (fixedSeatAssignments st) (openResultModal st)
    (selectedStudentForAssignment st) (localErrorMessage st)
    (manuallySelectedSeatIdForRoulette st).

Definition setOpenResultModal (v : bool) (st : State) : State :=
  mkState (students st) (seatMap st) (rouletteState st) (relationConfig st)
    (fixedSeatAssignments st) v
    (selectedStudentForAssignment st) (localErrorMessage st)
    (manuallySelectedSeatIdForRoulette st).

Definition setSelectedStudentForAssignment (v : option Student.t)
    (st : State) : State :=
  mkState (students st) (seatMap st) (rouletteState st) (relationConfig st)
    (fixedSeatAssignments st) (openResultModal st)
    v (localErrorMessage st)
    (manuallySelectedSeatIdForRoulette st).

Definition updateLocalErrorMessage
    (f : option (list Message) → option (list Message)) (st : State)
  : State :=
  mkState (students st) (seatMap st) (rouletteState st) (relationConfig st)
    (fixedSeatAssignments st) (openResultModal st)
    (selectedStudentForAssignment st) (f (localErrorMessage st))
    (manuallySelectedSeatIdForRoulette st).

Definition setLocalErrorMessage (v : option (list Message)) (st : State)
  : State :=
  updateLocalErrorMessage (λ _, v) st.

Definition setManuallySelectedSeatIdForRoulette (v : option string)
    (st : State) : State :=
  mkState (students st) (seatMap st) (rouletteState st) (relationConfig st)
    (fixedSeatAssignments st) (openResultModal st)
    (selectedStudentForAssignment st) (localErrorMessage st) v.

(** [seatMap.filter(seat => seat.isUsable && !seat.assignedStudentId)] *)
Definition isAvailable (seat : Seat.t) : bool :=
  Seat.isUsable seat && negb (truthy (Seat.assignedStudentId seat)).

Definition availableSeatsOf (seatMap : list Seat.t) : list Seat.t :=
  List.filter isAvailable seatMap.

Definition availableSeats (st : State) : list Seat.t :=
  availableSeatsOf (seatMap st).

(** [seatMap.find(seat => seat.seatId === seatId)] *)
Definition findSeat (seats : list Seat.t) (seatId : string)
  : option Seat.t :=
  List.find (λ seat, bool_decide (Seat.seatId seat = seatId)) seats.

(** The two record updates every commit performs (written inline at each
    of the three commit sites of the source):
    [seatMap.map(seat => seat.seatId === chosen
       ? { ...seat, assignedStudentId: studentId } : seat)] and
    [students.map(s => s.id === studentId
       ? { ...s, isAssigned: true, assignedSeatId: chosen } : s)]. *)
Definition assignSeat (chosen studentId : string) (seat : Seat.t) : Seat.t :=
  if bool_decide (Seat.seatId seat = chosen)
  then Seat.mk (Seat.seatId seat) (Seat.row seat) (Seat.col seat)
         (Some studentId) (Seat.isUsable seat)
  else seat.

Definition assignInSeatMap (seatMap : list Seat.t)
    (chosen studentId : string) : list Seat.t :=
  assignSeat chosen studentId <$> seatMap.

Definition assignStudent (studentId chosen : string) (s : Student.t)
  : Student.t :=
  if bool_decide (Student.id s = studentId)
  then Student.mk (Student.id s) (Student.number s) (Student.name s)
         (Student.kana s) (Student.info1 s) (Student.info2 s)
         (Student.info3 s) true (Some chosen)
  else s.

Definition assignInStudents (students : list Student.t)
    (studentId chosen : string) : list Student.t :=
  assignStudent studentId chosen <$> students.

(** ** Single draw: [stopRoulette] *)

(** The source keeps the outcome of the resolution in two variables,
    [finalChosenSeatId] and [isValidFinalSeat], and always assigns them
    together (a seat id and [true]); the pair is one [option string]
    here, [Some seatId] standing for [isValidFinalSeat = true]. *)

(** Every read of the handler goes to the state [st] of the render the
    handler belongs to; the setters act on the state [cur] under
    construction. *)

(** Steps 1 and 2: the fixed seat of the student, else the seat clicked
    during the run. *)
Definition resolveFixedOrManual (sel : Student.t) (st cur : State)
  : option string * State :=
  match List.find
          (λ fsa, bool_decide (FixedSeat.studentId fsa = Student.id sel))
          (fixedSeatAssignments st) with
  | Some fixedAssignmentForStudent =>
      let fixedSeatId := FixedSeat.seatId fixedAssignmentForStudent in
      match findSeat (seatMap st) fixedSeatId with
      | None =>
          (None,
           setLocalErrorMessage
             (Some [FixedSeatUnusable (Student.name sel) fixedSeatId]) cur)
      | Some targetFixedSeat =>
          if negb (Seat.isUsable targetFixedSeat)
          then
            (None,
             setLocalErrorMessage
               (Some [FixedSeatUnusable (Student.name sel) fixedSeatId]) cur)
          else if truthy (Seat.assignedStudentId targetFixedSeat)
                  && negb (bool_decide
                             (Seat.assignedStudentId targetFixedSeat
                              = Some (Student.id sel)))
          then
            (None,
             setLocalErrorMessage
               (Some [FixedSeatOccupied (Student.name sel) fixedSeatId]) cur)
          else (Some fixedSeatId, cur)
      end
  | None =>
      match manuallySelectedSeatIdForRoulette st with
      | Some manual =>
          if truthy (Some manual)
          then
            match findSeat (availableSeats st) manual with
            | Some _ =>
                if checkRelationConstraints manual (Some sel) (seatMap st)
                     (students st) (relationConfig st)
                then (Some manual, cur)
                else
                  (None,
                   setLocalErrorMessage
                     (Some [ManualSeatInadmissible manual]) cur)
            | None =>
                (None,
                 setLocalErrorMessage
                   (Some [ManualSeatUnavailable manual]) cur)
            end
          else (None, cur)
      | None => (None, cur)
      end
  end.

(** Step 3: the seat the roulette was showing, tried only when steps 1
    and 2 produced no seat. *)
Definition resolveHighlighted (sel : Student.t) (st : State)
    (chosen : option string) : option string :=
  match chosen with
  | Some seatId => Some seatId
  | None =>
      match Roulette.currentSelectedSeatId (rouletteState st) with
      | Some highlighted =>
          if truthy (Some highlighted)
          then
            match findSeat (availableSeats st) highlighted with
            | Some _ =>
                if checkRelationConstraints highlighted (Some sel)
                     (seatMap st) (students st) (relationConfig st)
                then Some highlighted
                else None
            | None => None
            end
          else None
      | None => None
      end
  end.

(** Step 4, the loop [while (!isValidFinalSeat && attempts < maxAttempts)]:
    [remaining] is [maxAttempts - attempts].  With an empty list the index
    [attempts % 0] is [NaN] and the element [undefined], which the lookup
    in the empty list gives as [None]. *)
Fixpoint fallbackLoop (sel : Student.t) (st : State)
    (shuffledAvailableSeats : list Seat.t) (remaining attempts : nat)
  : option string :=
  match remaining with
  | O => None
  | S remaining' =>
      let next :=
        fallbackLoop sel st shuffledAvailableSeats remaining' (S attempts) in
      match shuffledAvailableSeats
              !! (attempts mod length shuffledAvailableSeats)%nat with
      | Some potentialSeat =>
          if truthy (Some (Seat.seatId potentialSeat))
          then
            if checkRelationConstraints (Seat.seatId potentialSeat)
                 (Some sel) (seatMap st) (students st) (relationConfig st)
            then Some (Seat.seatId potentialSeat)
            else next
          else next
      | None => next
      end
  end.

Definition maxAttempts : nat := 100.

(** The assignment once a seat is decided. *)
Definition commitDraw (sel : Student.t) (finalChosenSeatId : string)
    (st cur : State) : State :=
  setOpenResultModal true
    (setManuallySelectedSeatIdForRoulette None
       (setRouletteState
          (λ prev,
             Roulette.mk false (Some finalChosenSeatId) (Some sel)
               (Roulette.winningHistory prev
                  ++ [Winning.mk (Student.id sel) finalChosenSeatId])
               true)
          (setStudents
             (assignInStudents (students st) (Student.id sel)
                finalChosenSeatId)
             (setSeatMap
                (assignInSeatMap (seatMap st) finalChosenSeatId
                   (Student.id sel))
                cur)))).

(** The exit taken when no seat is decided. *)
Definition abandonDraw (message : Message) (cur : State) : State :=
  setManuallySelectedSeatIdForRoulette None
    (setRouletteState
       (λ prev,
          Roulette.mk false None None (Roulette.winningHistory prev) true)
       (setLocalErrorMessage (Some [message]) cur)).

(** [shuffle] is [[...availableSeats].sort(() => Math.random() - 0.5)]:
    the random order the engine happens to produce for the list. *)
Definition stopRoulette (shuffle : list Seat.t → list Seat.t) (st : State)
  : State :=
  if negb (Roulette.isRunning (rouletteState st)) then st
  else
    let st0 := setLocalErrorMessage None st in
    match selectedStudentForAssignment st with
    | None => abandonDraw NoStudentSelected st0
    | Some sel =>
        let '(chosen12, st1) := resolveFixedOrManual sel st st0 in
        match resolveHighlighted sel st chosen12 with
        | Some finalChosenSeatId => commitDraw sel finalChosenSeatId st st1
        | None =>
            match fallbackLoop sel st (shuffle (availableSeats st))
                    maxAttempts 0 with
            | Some finalChosenSeatId =>
                if truthy (Some finalChosenSeatId)
                then commitDraw sel finalChosenSeatId st st1
                else abandonDraw NoAdmissibleSeatFound st1
            | None => abandonDraw NoAdmissibleSeatFound st1
            end
        end
    end.

(** ** The Fisher-Yates shuffle of [handleBulkAssign] *)

(** [[a[i], a[j]] = [a[j], a[i]]] *)
Definition swap {A} (a : list A) (i j : nat) : list A :=
  match a !! i, a !! j with
  | Some x, Some y => <[j:=x]> (<[i:=y]> a)
  | _, _ => a
  end.

(** [for (let i = a.length - 1; i > 0; i--) { j = floor(random() * (i + 1));
    swap }].  [rnd i] is the draw made in the round of index [i]; taken
    modulo [i + 1] it ranges over [0..i], as
    [Math.floor(Math.random() * (i + 1))] does. *)
Fixpoint shuffleFrom {A} (rnd : nat → nat) (i : nat) (a : list A) : list A :=
  match i with
  | O => a
  | S i' => shuffleFrom rnd i' (swap a i (rnd i mod (i + 1))%nat)
  end.

Definition fisherYates {A} (rnd : nat → nat) (a : list A) : list A :=
  shuffleFrom rnd (length a - 1)%nat a.

Section Engine.

(** [list.sort((a, b) => Number(a.number) - Number(b.number))].  The
    numeric reading of the free-text [number] field is left abstract: the
    handlers only use the first element and the length of the result. *)
Variable sortByNumber : list Student.t → list Student.t.

(** [students.filter(s => !s.isAssigned).sort(...)] *)
Definition unassignedStudentsOf (students : list Student.t)
  : list Student.t :=
  sortByNumber (List.filter (λ s, negb (Student.isAssigned s)) students).

Definition unassignedStudents (st : State) : list Student.t :=
  unassignedStudentsOf (students st).

(** ** Reset: [handleResetRoulette] *)

Definition clearSeat (seat : Seat.t) : Seat.t :=
  Seat.mk (Seat.seatId seat) (Seat.row seat) (Seat.col seat) None
    (Seat.isUsable seat).

Definition clearStudent (s : Student.t) : Student.t :=
  Student.mk (Student.id s) (Student.number s) (Student.name s)
    (Student.kana s) (Student.info1 s) (Student.info2 s) (Student.info3 s)
    false None.

Definition handleResetRoulette (confirmed : bool) (st : State) : State :=
  if confirmed then
    let resetSeatMap := clearSeat <$> seatMap st in
    let resetStudents := clearStudent <$> students st in
    let initialAssigningStudent :=
      head (unassignedStudentsOf resetStudents) in
    setManuallySelectedSeatIdForRoulette None
      (setSelectedStudentForAssignment initialAssigningStudent
         (setLocalErrorMessage None
            (setRouletteState
               (λ _, Roulette.mk false None initialAssigningStudent [] false)
               (setStudents resetStudents
                  (setSeatMap resetSeatMap st)))))
  else st.

(** ** Batch assignment: [handleBulkAssign] *)

(** The local variables of the handler that both phases update. *)
Record BulkTemp := mkBulkTemp {
  tempSeatMap : list Seat.t;
  tempStudents : list Student.t;
  tempWinningHistory : list Winning.t;
  assignedStudentIdsInTemp : gset string;
  assignedSeatIdsInTemp : gset string
}.

Definition commitInTemp (tmp : BulkTemp) (studentId seatId : string)
  : BulkTemp :=
  mkBulkTemp
    (assignInSeatMap (tempSeatMap tmp) seatId studentId)
    (assignInStudents (tempStudents tmp) studentId seatId)
    (tempWinningHistory tmp ++ [Winning.mk studentId seatId])
    ({[studentId]} ∪ assignedStudentIdsInTemp tmp)
    ({[seatId]} ∪ assignedSeatIdsInTemp tmp).

(** Phase 1, the body of [fixedSeatAssignments.forEach]. *)
Definition assignFixed (acc : BulkTemp * list FixedError)
    (fixedAssignment : FixedSeat.t) : BulkTemp * list FixedError :=
  let '(tmp, fixedAssignmentErrors) := acc in
  match findStudent (tempStudents tmp) (FixedSeat.studentId fixedAssignment),
        findSeat (tempSeatMap tmp) (FixedSeat.seatId fixedAssignment) with
  | None, _ =>
      (tmp,
       fixedAssignmentErrors
         ++ [FixedStudentNotFound (FixedSeat.studentId fixedAssignment)])
  | Some student, None =>
      (tmp,
       fixedAssignmentErrors
         ++ [FixedSeatNotFound (Student.name student)
               (FixedSeat.seatId fixedAssignment)])
  | Some student, Some fixedSeat =>
      if negb (Seat.isUsable fixedSeat) then
        (tmp,
         fixedAssignmentErrors
           ++ [FixedSeatNotUsable (Student.name student)
                 (FixedSeat.seatId fixedAssignment)])
      else if truthy (Seat.assignedStudentId fixedSeat)
              && negb (bool_decide
                         (Seat.assignedStudentId fixedSeat
                          = Some (Student.id student)))
      then
        (tmp,
         fixedAssignmentErrors
           ++ [FixedSeatTaken (Student.name student)
                 (FixedSeat.seatId fixedAssignment)])
      else if bool_decide (Student.id student ∈ assignedStudentIdsInTemp tmp)
      then acc
      else if bool_decide (Seat.seatId fixedSeat ∈ assignedSeatIdsInTemp tmp)
      then acc
      else
        (commitInTemp tmp (Student.id student) (Seat.seatId fixedSeat),
         fixedAssignmentErrors)
  end.

(** Phase 2, the inner [while] loop over [remainingAvailableSeats]:
    [rest] is the part of the list from [currentSeatIndex] on, so the
    test [currentSeatIndex < remainingAvailableSeats.length] is the test
    that [rest] is not empty.  The result is the index and the seat that
    were accepted. *)
Fixpoint findSeatLoop (student : Student.t) (tmp : BulkTemp)
    (relations : list Relation.t) (maxAttempts : nat)
    (rest : list Seat.t) (currentSeatIndex attempts : nat)
  : option (nat * Seat.t) :=
  match rest with
  | [] => None
  | potentialSeat :: rest' =>
      if bool_decide (attempts < maxAttempts)%nat then
        let next :=
          findSeatLoop student tmp relations maxAttempts rest'
            (S currentSeatIndex) (S attempts) in
        if negb (truthy (Some (Seat.seatId potentialSeat))) then next
        else if bool_decide
                  (Seat.seatId potentialSeat ∈ assignedSeatIdsInTemp tmp)
        then next
        else if checkRelationConstraints (Seat.seatId potentialSeat)
                  (Some student) (tempSeatMap tmp) (tempStudents tmp)
                  relations
        then Some (currentSeatIndex, potentialSeat)
        else next
      else None
  end.

(** [setLocalErrorMessage(prev => prev ? prev + line : first)] *)
Definition reportSeatNotFound (studentName : string)
    (prev : option (list Message)) : option (list Message) :=
  match prev with
  | Some (m :: ms) => Some ((m :: ms) ++ [SeatNotFound studentName])
  | _ => Some [SeatNotFoundReviewRelations studentName]
  end.

(** Phase 2, the body of [remainingUnassignedStudents.forEach]; the
    accumulator holds the locals, [remainingAvailableSeats] (spliced in
    place by the source) and the state the error setter acts on. *)
Definition placeStudent (relations : list Relation.t)
    (acc : BulkTemp * list Seat.t * State) (student : Student.t)
  : BulkTemp * list Seat.t * State :=
  let '(tmp, remainingAvailableSeats, st) := acc in
  if bool_decide (Student.id student ∈ assignedStudentIdsInTemp tmp)
  then acc
  else
    match findSeatLoop student tmp relations
            (length remainingAvailableSeats * 2)%nat
            remainingAvailableSeats 0 0 with
    | Some (currentSeatIndex, potentialSeat) =>
        (commitInTemp tmp (Student.id student) (Seat.seatId potentialSeat),
         delete currentSeatIndex remainingAvailableSeats,
         st)
    | None =>
        (tmp, remainingAvailableSeats,
         updateLocalErrorMessage
           (reportSeatNotFound (Student.name student)) st)
    end.

Definition handleBulkAssign (confirmed : bool)
    (rndStudents rndSeats : nat → nat) (st : State) : State :=
  if bool_decide (length (unassignedStudents st) = 0%nat) then
    setLocalErrorMessage (Some [NoStudentsToAssign]) st
  else if bool_decide (length (availableSeats st) = 0%nat) then
    setLocalErrorMessage (Some [NoAvailableSeats]) st
  else if bool_decide
            (length (availableSeats st) < length (unassignedStudents st))%nat
  then
    setLocalErrorMessage
      (Some [MoreStudentsThanSeats (length (unassignedStudents st))
               (length (availableSeats st))]) st
  else if negb confirmed then st
  else
    let st0 := setLocalErrorMessage None st in
    let tmp0 :=
      mkBulkTemp (seatMap st) (students st)
        (Roulette.winningHistory (rouletteState st)) ∅ ∅ in
    (* phase 1 *)
    let '(tmp1, fixedAssignmentErrors) :=
      fold_left assignFixed (fixedSeatAssignments st) (tmp0, []) in
    let st1 :=
      match fixedAssignmentErrors with
      | [] => st0
      | _ :: _ =>
          setLocalErrorMessage
            (Some [FixedPhaseProblems fixedAssignmentErrors]) st0
      end in
    (* phase 2 *)
    let remainingUnassignedStudents :=
      fisherYates rndStudents
        (List.filter (λ s, negb (Student.isAssigned s)) (tempStudents tmp1)) in
    let remainingAvailableSeats :=
      fisherYates rndSeats (availableSeatsOf (tempSeatMap tmp1)) in
    let '(tmp2, _, st2) :=
      fold_left (placeStudent (relationConfig st))
        remainingUnassignedStudents (tmp1, remainingAvailableSeats, st1) in
    setManuallySelectedSeatIdForRoulette None
      (setSelectedStudentForAssignment None
         (setRouletteState
            (λ prev,
               Roulette.mk false None None (tempWinningHistory tmp2) true)
            (setStudents (tempStudents tmp2)
               (setSeatMap (tempSeatMap tmp2) st2)))).

End Engine.

(** * The rest of the roulette screen *)

(** ** Start: [startRoulette] and the highlight it sets going *)

Definition startRoulette (st : State) : State :=
  if bool_decide (length (availableSeats st) = 0%nat) then
    setLocalErrorMessage (Some [NoAvailableSeats]) st
  else
    match selectedStudentForAssignment st with
    | None => setLocalErrorMessage (Some [NoStudentSelected]) st
    | Some _ =>
        if Roulette.isRunning (rouletteState st) then st
        else
          setManuallySelectedSeatIdForRoulette None
            (setRouletteState
               (λ prev,
                  Roulette.mk true None
                    (Roulette.currentAssigningStudent prev)
                    (Roulette.winningHistory prev) false)
               (setLocalErrorMessage None st))
    end.



(** ** Choosing the student: [handleStudentSelect] *)

Inductive SelectError :=
| CannotChangeWhileRunning
| AssignedOrNotFound.

(** [inl e]: the handler only shows the text of [e] in
    [localErrorMessage]; [inr st']: the state after a selection. *)
Definition handleStudentSelect (studentId : string) (st : State)
  : SelectError + State :=
  if Roulette.isRunning (rouletteState st) then inl CannotChangeWhileRunning
  else
    match findStudent (students st) studentId with
    | Some student =>
        if negb (Student.isAssigned student) then
          inr
            (setManuallySelectedSeatIdForRoulette None
               (setLocalErrorMessage None
                  (setRouletteState
                     (λ prev,
                        Roulette.mk (Roulette.isRunning prev) None
                          (Some student) (Roulette.winningHistory prev)
                          false)
                     (setSelectedStudentForAssignment (Some student) st))))
        else inl AssignedOrNotFound
    | None => inl AssignedOrNotFound
    end.

Section Screen.

Variable sortByNumber : list Student.t → list Student.t.

(** ** The effect that prepares the next draw *)

Definition prepareRoulette (st : State) : State :=
  match Roulette.currentAssigningStudent (rouletteState st),
        unassignedStudents sortByNumber st with
  | None, first :: _ =>
      setRouletteState
        (λ prev,
           Roulette.mk (Roulette.isRunning prev)
             (Roulette.currentSelectedSeatId prev) (Some first)
             (Roulette.winningHistory prev) (Roulette.isStopped prev))
        (setSelectedStudentForAssignment (Some first) st)
  | _, [] =>
      if negb (Roulette.isStopped (rouletteState st)) then
        setRouletteState
          (λ prev,
             Roulette.mk false (Roulette.currentSelectedSeatId prev)
               (Roulette.currentAssigningStudent prev)
               (Roulette.winningHistory prev) true)
          st
      else st
  | Some _, _ :: _ => st
  end.

(** ** Closing the result dialog: [handleCloseResultModal] *)

(** [NextStudent st']: the next student is selected;
    [AllDecided st']: nobody is left, and [localErrorMessage] shows that
    every seat is decided. *)
Inductive CloseOutcome :=
| NextStudent (st' : State)
| AllDecided (st' : State).

(** [s.id !== selectedStudentForAssignment?.id] *)
Definition differsFromSelected (selected : option Student.t)
    (s : Student.t) : bool :=
  match selected with
  | Some sel => negb (bool_decide (Student.id s = Student.id sel))
  | None => true
  end.

Definition handleCloseResultModal (st : State) : CloseOutcome :=
  let st0 := setOpenResultModal false st in
  match List.find (differsFromSelected (selectedStudentForAssignment st))
          (unassignedStudents sortByNumber st) with
  | Some nextUnassignedStudent =>
      NextStudent
        (setRouletteState
           (λ prev,
              Roulette.mk (Roulette.isRunning prev) None
                (Some nextUnassignedStudent) (Roulette.winningHistory prev)
                false)
           (setSelectedStudentForAssignment (Some nextUnassignedStudent)
              st0))
  | None =>
      AllDecided
        (setRouletteState
           (λ prev,
              Roulette.mk (Roulette.isRunning prev) None None
                (Roulette.winningHistory prev) true)
           st0)
  end.

End Screen.

(** * The seating chart: [handleMoveStudent] *)

(** [AppPhase], with the phase for fixed seats of the later version of
    the context. *)
Module AppPhase.
Inductive t := input | config | fixedSeat | relation | roulette | chart
             | finished.
End AppPhase.

(** [{ ...s, assignedSeatId: seatId }] *)
Definition sitAt (seatId : string) (s : Student.t) : Student.t :=
  Student.mk (Student.id s) (Student.number s) (Student.name s)
    (Student.kana s) (Student.info1 s) (Student.info2 s) (Student.info3 s)
    (Student.isAssigned s) (Some seatId).

(** [s.id === studentId ? { ...s, assignedSeatId: seatId } : s] *)
Definition moveStudentTo (studentId seatId : string) (s : Student.t)
  : Student.t :=
  if bool_decide (Student.id s = studentId) then sitAt seatId s else s.

(** [seat.seatId === seatId ? { ...seat, assignedStudentId: holder }
    : seat] *)
Definition setSeatHolder (seatId : string) (holder : option string)
    (seat : Seat.t) : Seat.t :=
  if bool_decide (Seat.seatId seat = seatId)
  then Seat.mk (Seat.seatId seat) (Seat.row seat) (Seat.col seat) holder
         (Seat.isUsable seat)
  else seat.

(** [students.find(s => s.assignedSeatId === toSeatId)] *)
Definition studentAt (students : list Student.t) (seatId : string)
  : option Student.t :=
  List.find (λ s, bool_decide (Student.assignedSeatId s = Some seatId))
    students.

(** The drop of a drag: [destination] is [result.destination] (its
    droppable id, when there is one), [draggedStudentId] the draggable id
    and [fromSeatId] the droppable id of the source.  The two functional
    updates act on the state the handler read [students] from. *)
Definition handleMoveStudent (appPhase : AppPhase.t)
    (destination : option string) (draggedStudentId fromSeatId : string)
    (st : State) : State :=
  match appPhase with
  | AppPhase.chart =>
      match destination with
      | None => st
      | Some toSeatId =>
          if bool_decide (fromSeatId = toSeatId) then st
          else
            let studentAtToSeat := studentAt (students st) toSeatId in
            let newStudents :=
              moveStudentTo draggedStudentId toSeatId <$> students st in
            let newStudents :=
              match studentAtToSeat with
              | Some other =>
                  moveStudentTo (Student.id other) fromSeatId <$> newStudents
              | None => newStudents
              end in
            let newMap :=
              setSeatHolder fromSeatId (Student.id <$> studentAtToSeat)
                <$> seatMap st in
            let newMap :=
              setSeatHolder toSeatId (Some draggedStudentId) <$> newMap in
            setSeatMap newMap (setStudents newStudents st)
      end
  | _ => st
  end.

(** * Seat layout: [SeatMapConfig], [SeatConfig] and the default map *)

(** [src/constants] *)
Definition DEFAULT_SEAT_ROWS : Z := 6.
Definition DEFAULT_SEAT_COLS : Z := 7.
Definition MAX_SEATS : Z := 100.

(** The counters of [for (let r = 0; r < rows; r++)]: the row and column
    counts are JavaScript numbers, and the loop runs [rows] times when
    [rows] is a positive integer and not at all when it is below one. *)
Definition loopIndices (bound : Z) : list nat := seq 0 (Z.to_nat bound).

Module SeatMapConfig.

(** The object pushed by the inner loop of the effect that builds
    [currentEditedSeatMap]. *)
Definition newSeat (existingSeatMap : list Seat.t) (r c : nat) : Seat.t :=
  let seatId := seatIdOf (Z.of_nat r + 1) (Z.of_nat c + 1) in
  let existingSeat := findSeat existingSeatMap seatId in
  Seat.mk seatId (Z.of_nat r + 1) (Z.of_nat c + 1)
    (match existingSeat with
     | Some seat => Seat.assignedStudentId seat
     | None => None
     end)
    (match existingSeat with
     | Some seat => Seat.isUsable seat
     | None => true
     end).

(** The effect [useEffect(() => { ... setCurrentEditedSeatMap(newMap) },
    [rows, cols, existingSeatMap])]. *)
Definition generateSeatMap (rows cols : Z) (existingSeatMap : list Seat.t)
  : list Seat.t :=
  flat_map
    (λ r, (λ c, newSeat existingSeatMap r c) <$> loopIndices cols)
    (loopIndices rows).

(** [seat.seatId === seatId ? { ...seat, isUsable: !seat.isUsable }
    : seat] *)
Definition toggleUsable (seatId : string) (seat : Seat.t) : Seat.t :=
  if bool_decide (Seat.seatId seat = seatId)
  then Seat.mk (Seat.seatId seat) (Seat.row seat) (Seat.col seat)
         (Seat.assignedStudentId seat) (negb (Seat.isUsable seat))
  else seat.

Definition handleSeatClick (seatId : string)
    (currentEditedSeatMap : list Seat.t) : list Seat.t :=
  toggleUsable seatId <$> currentEditedSeatMap.

Definition usableSeatCount (currentEditedSeatMap : list Seat.t) : nat :=
  length (List.filter Seat.isUsable currentEditedSeatMap).

Inductive Error :=
| RowsBelowOne
| RowsMayExceedMaxSeats (limit : Z)
| ColsBelowOne
| ColsMayExceedMaxSeats (limit : Z)
| BothAtLeastOne
| ExceedsMaxSeats.

(** [value] is [parseInt(event.target.value, 10)], [None] for [NaN]; the
    result is the new number of rows and the new error message.
    [Math.floor(MAX_SEATS / cols)] is computed only when
    [value * cols > MAX_SEATS] with [value >= 1], where [cols] is a
    positive integer and the quotient is integer division. *)
Definition handleRowsChange (value : option Z) (cols : Z)
  : Z * option Error :=
  match value with
  | None => (1, Some RowsBelowOne)
  | Some v =>
      if bool_decide (v < 1) then (1, Some RowsBelowOne)
      else if bool_decide (MAX_SEATS < v * cols)
      then (v, Some (RowsMayExceedMaxSeats (MAX_SEATS / cols)))
      else (v, None)
  end.

Definition handleColsChange (value : option Z) (rows : Z)
  : Z * option Error :=
  match value with
  | None => (1, Some ColsBelowOne)
  | Some v =>
      if bool_decide (v < 1) then (1, Some ColsBelowOne)
      else if bool_decide (MAX_SEATS < v * rows)
      then (v, Some (ColsMayExceedMaxSeats (MAX_SEATS / rows)))
      else (v, None)
  end.

(** [inr (rows, cols, map)] is the call of [onConfigComplete]. *)
Definition handleGenerateClick (rows cols : Z)
    (currentEditedSeatMap : list Seat.t)
  : Error + Z * Z * list Seat.t :=
  if bool_decide (rows < 1) || bool_decide (cols < 1) then inl BothAtLeastOne
  else if bool_decide (MAX_SEATS < rows * cols) then inl ExceedsMaxSeats
  else inr (rows, cols, currentEditedSeatMap).

End SeatMapConfig.

(** [parseInt(s.seatId.match(/R(\d+)C(\d+)/)?.[1] || '0', 10)] and the
    same for the second group: a captured group is never empty, so the
    default is taken exactly when the id does not match. *)
Definition parsedRowOf (seat : Seat.t) : Z :=
  match matchSeatId (Seat.seatId seat) with
  | Some (m1, _) => parseInt m1
  | None => parseInt "0"
  end.

Definition parsedColOf (seat : Seat.t) : Z :=
  match matchSeatId (Seat.seatId seat) with
  | Some (_, m2) => parseInt m2
  | None => parseInt "0"
  end.

(** [Math.max(...values)] and [Math.min(...values)] of a list that is
    not empty. *)
Definition maxOf (first : Z) (rest : list Z) : Z := fold_left Z.max rest first.
Definition minOf (first : Z) (rest : list Z) : Z := fold_left Z.min rest first.

(** The [initialRows] and [initialCols] that [SeatConfig] passes to
    [SeatMapConfig]: [undefined] for an empty map, which the default
    parameter values replace. *)
Definition initialRows (currentSeatMap : list Seat.t) : Z :=
  match parsedRowOf <$> currentSeatMap with
  | [] => DEFAULT_SEAT_ROWS
  | first :: rest => maxOf first rest
  end.

Definition initialCols (currentSeatMap : list Seat.t) : Z :=
  match parsedColOf <$> currentSeatMap with
  | [] => DEFAULT_SEAT_COLS
  | first :: rest => maxOf first rest
  end.

(** The map [SeatMapConfig] shows when [SeatConfig] mounts it on
    [currentSeatMap]. *)
Definition reopenSeatMapConfig (currentSeatMap : list Seat.t) : list Seat.t :=
  SeatMapConfig.generateSeatMap (initialRows currentSeatMap)
    (initialCols currentSeatMap) currentSeatMap.

(** The default map [handleStudentsLoaded] builds when there is none. *)
Definition initialSeatMap : list Seat.t :=
  flat_map
    (λ r, (λ c, Seat.mk (seatIdOf (Z.of_nat r + 1) (Z.of_nat c + 1))
                  (Z.of_nat r + 1) (Z.of_nat c + 1) None true)
          <$> loopIndices DEFAULT_SEAT_COLS)
    (loopIndices DEFAULT_SEAT_ROWS).

(** * The second version of the roulette screen *)

(** The file holds a second version of the component; its
    [getAdjacentSeatIds] also tests each candidate against the smallest
    and largest row and column numbers found on the map. *)
Module SecondVersion.

Definition getAdjacentSeatIds (seatId : string) (seatMap : list Seat.t)
  : list string :=
  match matchSeatId seatId with
  | None => []
  | Some (m1, m2) =>
      let row := parseInt m1 in
      let col := parseInt m2 in
      let allRows := parsedRowOf <$> seatMap in
      let allCols := parsedColOf <$> seatMap in
      let maxRow :=
        match allRows with [] => 0%Z | first :: rest => maxOf first rest end in
      let maxCol :=
        match allCols with [] => 0%Z | first :: rest => maxOf first rest end in
      let minRow :=
        match allRows with [] => 0%Z | first :: rest => minOf first rest end in
      let minCol :=
        match allCols with [] => 0%Z | first :: rest => minOf first rest end in
      fold_left
        (λ adjacentIds adjId,
           match matchSeatId adjId with
           | Some (a1, a2) =>
               let adjRow := parseInt a1 in
               let adjCol := parseInt a2 in
               if bool_decide (minRow ≤ adjRow)%Z
                  && bool_decide (adjRow ≤ maxRow)%Z
                  && bool_decide (minCol ≤ adjCol)%Z
                  && bool_decide (adjCol ≤ maxCol)%Z
                  && someSeatWithId seatMap adjId
                  && negb (bool_decide (adjId = seatId))
               then adjacentIds ++ [adjId]
               else adjacentIds
           | None => adjacentIds
           end)
        (potentialAdjacents row col) []
  end.

End SecondVersion.

(** * The configuration screens *)

(** ** Fixed seats: [FixedSeatConfig] *)

Module FixedSeatConfig.

Inductive Error :=
| StudentAlreadyAssigned
| SeatAlreadyAssigned (seatId : string)
| SelectStudentAndSeat
| StudentHasOtherSeat
| SeatHasOtherStudent.

Record State := mkState {
  editableFixedSeatAssignments : list FixedSeat.t;
  selectedStudentId : option string;
  selectedSeatId : option string;
  errorMessage : option Error
}.

(** [new Set(editableFixedSeatAssignments.map(a => a.studentId))] *)
Definition assignedStudentIds (st : State) : gset string :=
  list_to_set (FixedSeat.studentId <$> editableFixedSeatAssignments st).

Definition assignedSeatIds (st : State) : gset string :=
  list_to_set (FixedSeat.seatId <$> editableFixedSeatAssignments st).

(** [prev => (prev === id ? null : id)] *)
Definition toggleSelection (id : string) (prevSelectedId : option string)
  : option string :=
  if bool_decide (prevSelectedId = Some id) then None else Some id.

Definition handleStudentClick (studentId : string) (st : State) : State :=
  if bool_decide (studentId ∈ assignedStudentIds st) then
    mkState (editableFixedSeatAssignments st) (selectedStudentId st)
      (selectedSeatId st) (Some StudentAlreadyAssigned)
  else
    mkState (editableFixedSeatAssignments st)
      (toggleSelection studentId (selectedStudentId st))
      (selectedSeatId st) None.

Definition handleSeatClick (seatId : string) (st : State) : State :=
  if bool_decide (seatId ∈ assignedSeatIds st) then
    mkState (editableFixedSeatAssignments st) (selectedStudentId st)
      (selectedSeatId st) (Some (SeatAlreadyAssigned seatId))
  else
    mkState (editableFixedSeatAssignments st) (selectedStudentId st)
      (toggleSelection seatId (selectedSeatId st)) None.

Definition withError (e : Error) (st : State) : State :=
  mkState (editableFixedSeatAssignments st) (selectedStudentId st)
    (selectedSeatId st) (Some e).

Definition handleAddAssignment (st : State) : State :=
  match selectedStudentId st, selectedSeatId st with
  | Some studentId, Some seatId =>
      if negb (truthy (Some studentId)) || negb (truthy (Some seatId))
      then withError SelectStudentAndSeat st
      else if bool_decide (studentId ∈ assignedStudentIds st)
      then withError StudentHasOtherSeat st
      else if bool_decide (seatId ∈ assignedSeatIds st)
      then withError SeatHasOtherStudent st
      else
        mkState
          (editableFixedSeatAssignments st ++ [FixedSeat.mk studentId seatId])
          None None None
  | _, _ => withError SelectStudentAndSeat st
  end.

(** [prevConfig.filter((_, index) => index !== indexToDelete)] *)
Definition handleDeleteAssignment (indexToDelete : nat) (st : State)
  : State :=
  mkState (delete indexToDelete (editableFixedSeatAssignments st))
    (selectedStudentId st) (selectedSeatId st) (errorMessage st).

Definition handleClearAllAssignments (confirmed : bool) (st : State)
  : State :=
  if confirmed then
    mkState [] (selectedStudentId st) (selectedSeatId st) (errorMessage st)
  else st.

End FixedSeatConfig.

(** ** Relations: [RelationConfig] *)

Module RelationConfig.

Inductive Error :=
| SelectTwoStudents
| RelationExists.

Record State := mkState {
  editableRelationConfig : list Relation.t;
  selectedStudentIds : list string;
  errorMessage : option Error
}.

Definition handleStudentClick (studentId : string) (st : State) : State :=
  mkState (editableRelationConfig st)
    (if bool_decide (studentId ∈ selectedStudentIds st)
     then List.filter (λ id, negb (bool_decide (id = studentId)))
            (selectedStudentIds st)
     else if bool_decide (length (selectedStudentIds st) < 2)%nat
     then selectedStudentIds st ++ [studentId]
     else selectedStudentIds st)
    None.

(** [rel.type === type] *)
Definition sameType (type1 type2 : Relation.RelationType) : bool :=
  match type1, type2 with
  | Relation.co_seat, Relation.co_seat => true
  | Relation.no_co_seat, Relation.no_co_seat => true
  | _, _ => false
  end.

(** The test of [editableRelationConfig.some(...)]. *)
Definition sameRelation (id1 id2 : string) (type : Relation.RelationType)
    (rel : Relation.t) : bool :=
  (bool_decide (Relation.studentId1 rel = id1)
   && bool_decide (Relation.studentId2 rel = id2)
   || bool_decide (Relation.studentId1 rel = id2)
      && bool_decide (Relation.studentId2 rel = id1))
  && sameType (Relation.type rel) type.

Section Sorting.

(** [before a b]: [a] comes strictly before [b] in the order of
    [Array.prototype.sort] without a comparator, the order of the UTF-16
    code units. *)
Variable before : string → string → bool.

(** [selectedStudentIds.sort()] on an array of two: the elements are
    exchanged when the second comes before the first.  The call sorts
    the array held in the state in place, so the selection is sorted
    also when the handler returns early. *)
Definition sortTwo (a b : string) : string * string :=
  if before b a then (b, a) else (a, b).

Definition handleAddRelation (type : Relation.RelationType) (st : State)
  : State :=
  match selectedStudentIds st with
  | [a; b] =>
      let '(id1, id2) := sortTwo a b in
      if existsb (sameRelation id1 id2 type) (editableRelationConfig st)
      then mkState (editableRelationConfig st) [id1; id2] (Some RelationExists)
      else
        mkState (editableRelationConfig st ++ [Relation.mk id1 id2 type]) []
          None
  | _ =>
      mkState (editableRelationConfig st) (selectedStudentIds st)
        (Some SelectTwoStudents)
  end.

End Sorting.

Definition handleDeleteRelation (indexToDelete : nat) (st : State) : State :=
  mkState (delete indexToDelete (editableRelationConfig st))
    (selectedStudentIds st) (errorMessage st).

Definition handleClearAllRelations (confirmed : bool) (st : State) : State :=
  if confirmed then mkState [] (selectedStudentIds st) (errorMessage st)
  else st.

End RelationConfig.

(** * Specification vocabulary *)

(** A string without the letter [C], as the printed numbers are. *)
Fixpoint noSeparator (s : string) : Prop :=
  match s with
  | String c s' => c ≠ "C"%char ∧ noSeparator s'
  | EmptyString => True
  end.

(** A string of decimal digits only. *)
Fixpoint allDigits (s : string) : Prop :=
  match s with
  | String c s' => isDigit c = true ∧ allDigits s'
  | EmptyString => True
  end.

(** The relation names the student on one of its two sides. *)
Definition involves (rel : Relation.t) (studentId : string) : Prop :=
  Relation.studentId1 rel = studentId ∨ Relation.studentId2 rel = studentId.

(** The student with this id is already seated, at [seatId]: the record
    the lookup by id finds is flagged assigned and carries a seat id. *)
Definition seatedAt (allStudents : list Student.t) (studentId seatId : string)
  : Prop :=
  ∃ p, findStudent allStudents studentId = Some p
       ∧ Student.isAssigned p = true
       ∧ Student.assignedSeatId p = Some seatId
       ∧ seatId ≠ "".

(** What a relation of the given type asks of the partner's seat. *)
Definition relationHolds (type : Relation.RelationType)
    (adjacentSeats : list string) (partnerSeatId : string) : Prop :=
  match type with
  | Relation.co_seat => partnerSeatId ∈ adjacentSeats
  | Relation.no_co_seat => partnerSeatId ∉ adjacentSeats
  end.

(** One relation is respected by a seat with the given neighbours. *)
Definition relationRespected (studentId : string)
    (adjacentSeats : list string) (allStudents : list Student.t)
    (rel : Relation.t) : Prop :=
  involves rel studentId →
  ∀ partnerSeatId,
    seatedAt allStudents (partnerIdOf rel studentId) partnerSeatId →
    relationHolds (Relation.type rel) adjacentSeats partnerSeatId.

(** The seat passes the constraint checker for the student, in the
    state the handler reads. *)
Definition admissibleFor (sel : Student.t) (st : State) (seat : Seat.t)
  : Prop :=
  checkRelationConstraints (Seat.seatId seat) (Some sel) (seatMap st)
    (students st) (relationConfig st) = true.

(** What one attempt of the fallback search accepts. *)
Definition eligible (sel : Student.t) (st : State) (seat : Seat.t) : bool :=
  truthy (Some (Seat.seatId seat))
  && checkRelationConstraints (Seat.seatId seat) (Some sel) (seatMap st)
       (students st) (relationConfig st).

(** No fixed assignment names the student. *)
Definition noFixedSeatFor (sel : Student.t) (st : State) : Prop :=
  List.find (λ fsa, bool_decide (FixedSeat.studentId fsa = Student.id sel))
    (fixedSeatAssignments st) = None.

(** A seat id (the manual selection or the highlighted seat) that is
    not among the available seats or fails the constraint checker. *)
Definition unavailableOrInadmissible (sel : Student.t) (st : State)
    (seatId : string) : Prop :=
  findSeat (availableSeats st) seatId = None
  ∨ checkRelationConstraints seatId (Some sel) (seatMap st) (students st)
      (relationConfig st) = false.


(** The assignment data of two states agree: students, seats and
    history. *)
Definition sameAssignments (st st' : State) : Prop :=
  students st' = students st
  ∧ seatMap st' = seatMap st
  ∧ Roulette.winningHistory (rouletteState st')
    = Roulette.winningHistory (rouletteState st).

(** [st'] is [st] with the pair (student, seat) committed: the seat
    record, the student record and the history are updated together. *)
Definition committed (studentId seatId : string) (st st' : State) : Prop :=
  students st' = assignInStudents (students st) studentId seatId
  ∧ seatMap st' = assignInSeatMap (seatMap st) seatId studentId
  ∧ Roulette.winningHistory (rouletteState st')
    = Roulette.winningHistory (rouletteState st)
      ++ [Winning.mk studentId seatId].

(** ** The assignment invariant *)

(** [isAssigned] is set exactly when a seat id is recorded. *)
Definition flagsAgree (students : list Student.t) : Prop :=
  ∀ s, s ∈ students →
    Student.isAssigned s = true ↔ Student.assignedSeatId s ≠ None.

(** At most one student (position of the student list) holds a given
    seat id. *)
Definition seatsExclusive (students : list Student.t) : Prop :=
  ∀ i j s1 s2 seatId,
    students !! i = Some s1 → students !! j = Some s2 →
    Student.assignedSeatId s1 = Some seatId →
    Student.assignedSeatId s2 = Some seatId →
    i = j.

(** Student ids are unique and not empty. *)
Definition idsWellFormed (students : list Student.t) : Prop :=
  NoDup (Student.id <$> students)
  ∧ ∀ s, s ∈ students → Student.id s ≠ "".

(** The seat record of a held seat names its holder. *)
Definition seatRecordsAgree (students : list Student.t)
    (seatMap : list Seat.t) : Prop :=
  ∀ s seat, s ∈ students → seat ∈ seatMap →
    Student.assignedSeatId s = Some (Seat.seatId seat) →
    Seat.assignedStudentId seat = Some (Student.id s).

(** The invariant of the specification, carried together with what makes
    it inductive: well-formed ids and seat records that agree with the
    student records. *)
Definition consistent (students : list Student.t) (seatMap : list Seat.t)
  : Prop :=
  idsWellFormed students
  ∧ flagsAgree students
  ∧ seatsExclusive students
  ∧ seatRecordsAgree students seatMap.

Definition Consistent (st : State) : Prop :=
  consistent (students st) (seatMap st).

(** The invariant on the locals of the batch handler. *)
Definition tempConsistent (tmp : BulkTemp) : Prop :=
  consistent (tempStudents tmp) (tempSeatMap tmp).

(** The seat is free, or already the student's own. *)
Definition freeOrOwn (studentId : string) (seat : Seat.t) : Prop :=
  truthy (Seat.assignedStudentId seat) = false
  ∨ Seat.assignedStudentId seat = Some studentId.

(** What phase 2 of the batch keeps true of the seats it may still
    hand out: a listed seat whose id has not been used in this call is
    held by nobody. *)
Definition remainingFree (tmp : BulkTemp) (remaining : list Seat.t) : Prop :=
  ∀ seat s, seat ∈ remaining →
    Seat.seatId seat ∉ assignedSeatIdsInTemp tmp →
    s ∈ tempStudents tmp →
    Student.assignedSeatId s ≠ Some (Seat.seatId seat).

Section Reachability.

Variable sortByNumber : list Student.t → list Student.t.

(** The states the engine can be in: it starts with nobody assigned,
    and moves by a draw, a batch assignment or a reset; anything else
    that happens in between (selecting a student, starting the roulette,
    the highlight moving, a click on a seat) leaves students and seats
    alone. *)
Inductive reachable : State → Prop :=
| reachable_initial st :
    idsWellFormed (students st) →
    Forall (λ s, Student.isAssigned s = false
                 ∧ Student.assignedSeatId s = None) (students st) →
    reachable st
| reachable_stop shuffle st :
    reachable st →
    shuffle (availableSeats st) ≡ₚ availableSeats st →
    reachable (stopRoulette shuffle st)
| reachable_bulk confirmed rndStudents rndSeats st :
    reachable st →
    reachable (handleBulkAssign sortByNumber confirmed rndStudents rndSeats st)
| reachable_reset confirmed st :
    reachable st →
    reachable (handleResetRoulette sortByNumber confirmed st)
| reachable_other st st' :
    reachable st →
    students st' = students st →
    seatMap st' = seatMap st →
    reachable st'.

End Reachability.

(** ** Draws, batches and relations *)

(** The seat a draw may commit for [sel]: a usable seat of the map that
    is free or [sel]'s own; and, when no fixed assignment names [sel], an
    available seat that passes the checker. *)
Definition drawable (sel : Student.t) (st : State) (seat : Seat.t) : Prop :=
  seat ∈ seatMap st
  ∧ Seat.isUsable seat = true
  ∧ freeOrOwn (Student.id sel) seat
  ∧ (noFixedSeatFor sel st →
     isAvailable seat = true ∧ admissibleFor sel st seat).

(** Two seat records that differ at most in the assigned student. *)
Definition sameSeat (seat seat' : Seat.t) : Prop :=
  Seat.seatId seat' = Seat.seatId seat
  ∧ Seat.row seat' = Seat.row seat
  ∧ Seat.col seat' = Seat.col seat
  ∧ Seat.isUsable seat' = Seat.isUsable seat.

(** Two student records of the same person, the second assigned if the
    first is. *)
Definition stillAssigned (s s' : Student.t) : Prop :=
  Student.id s' = Student.id s
  ∧ Student.number s' = Student.number s
  ∧ Student.name s' = Student.name s
  ∧ Student.kana s' = Student.kana s
  ∧ Student.info1 s' = Student.info1 s
  ∧ Student.info2 s' = Student.info2 s
  ∧ Student.info3 s' = Student.info3 s
  ∧ (Student.isAssigned s = true → Student.isAssigned s' = true)
  ∧ (Student.assignedSeatId s ≠ None → Student.assignedSeatId s' ≠ None).

(** [st'] is [st] with assignments added: same seats and same people
    position by position, nobody unassigned, the history extended, the
    configuration untouched. *)
Definition onlyAddsAssignments (st st' : State) : Prop :=
  Forall2 sameSeat (seatMap st) (seatMap st')
  ∧ Forall2 stillAssigned (students st) (students st')
  ∧ (∃ added,
       Roulette.winningHistory (rouletteState st')
       = Roulette.winningHistory (rouletteState st) ++ added)
  ∧ relationConfig st' = relationConfig st
  ∧ fixedSeatAssignments st' = fixedSeatAssignments st.

(** The same, for the locals of the batch handler. *)
Definition tempExtends (tmp0 tmp : BulkTemp) : Prop :=
  Forall2 sameSeat (tempSeatMap tmp0) (tempSeatMap tmp)
  ∧ Forall2 stillAssigned (tempStudents tmp0) (tempStudents tmp)
  ∧ ∃ added, tempWinningHistory tmp = tempWinningHistory tmp0 ++ added.

(** A relation holds in a state: when both students are seated, the
    seat of one is, as the type of the relation asks, among or not among
    the neighbours of the seat of the other. *)
Definition relationSatisfied (students : list Student.t)
    (seatMap : list Seat.t) (rel : Relation.t) : Prop :=
  ∀ seat1 seat2,
    seatedAt students (Relation.studentId1 rel) seat1 →
    seatedAt students (Relation.studentId2 rel) seat2 →
    relationHolds (Relation.type rel) (getAdjacentSeatIds seat1 seatMap) seat2
    ∨ relationHolds (Relation.type rel) (getAdjacentSeatIds seat2 seatMap)
        seat1.

(** The student with this id is not seated. *)
Definition unseated (students : list Student.t) (studentId : string) : Prop :=
  ∀ seatId, ¬ seatedAt students studentId seatId.

(** ** The seating chart *)

(** The student with this id holds the seat. *)
Definition holdsSeat (students : list Student.t) (studentId seatId : string)
  : Prop :=
  ∃ s, s ∈ students ∧ Student.id s = studentId
       ∧ Student.assignedSeatId s = Some seatId.

(** Every seat record that names a student names the holder of the
    seat: together with [seatRecordsAgree], the seat map mirrors the
    student list. *)
Definition seatRecordsSound (students : list Student.t)
    (seatMap : list Seat.t) : Prop :=
  ∀ seat studentId, seat ∈ seatMap →
    Seat.assignedStudentId seat = Some studentId →
    holdsSeat students studentId (Seat.seatId seat).

(** What a drop from [fromSeatId] onto [toSeatId] makes of one student
    record: the two [map]s of [handleMoveStudent] in one function. *)
Definition movedRecord (students : list Student.t)
    (draggedStudentId fromSeatId toSeatId : string) (s : Student.t)
  : Student.t :=
  match studentAt students toSeatId with
  | Some other =>
      moveStudentTo (Student.id other) fromSeatId
        (moveStudentTo draggedStudentId toSeatId s)
  | None => moveStudentTo draggedStudentId toSeatId s
  end.

(** ** Seat layout *)

(** Two seat maps with the same seats in the same order, up to who sits
    there and whether the seat is usable. *)
Definition sameLayout (seatMap seatMap' : list Seat.t) : Prop :=
  (λ seat, (Seat.seatId seat, Seat.row seat, Seat.col seat)) <$> seatMap'
  = (λ seat, (Seat.seatId seat, Seat.row seat, Seat.col seat)) <$> seatMap.

(** Row [r], column [c] lies on a grid of the given size. *)
Definition onGrid (rows cols r c : Z) : Prop :=
  (1 ≤ r ≤ rows)%Z ∧ (1 ≤ c ≤ cols)%Z.

(** The id has the form the pattern [R(\d+)C(\d+)] finds. *)
Definition matchesPattern (seatId : string) : bool :=
  match matchSeatId seatId with Some _ => true | None => false end.

(** ** The configuration screens *)

(** No student and no seat occurs in two fixed assignments, and no id is
    empty. *)
Definition fixedAssignmentsUnique (assignments : list FixedSeat.t) : Prop :=
  NoDup (FixedSeat.studentId <$> assignments)
  ∧ NoDup (FixedSeat.seatId <$> assignments)
  ∧ Forall
      (λ fa, FixedSeat.studentId fa ≠ "" ∧ FixedSeat.seatId fa ≠ "")
      assignments.

(** Two relations of the same type between the same two students, in
    either order. *)
Definition duplicateRelation (rel1 rel2 : Relation.t) : Prop :=
  Relation.type rel1 = Relation.type rel2
  ∧ (Relation.studentId1 rel1 = Relation.studentId1 rel2
     ∧ Relation.studentId2 rel1 = Relation.studentId2 rel2
     ∨ Relation.studentId1 rel1 = Relation.studentId2 rel2
       ∧ Relation.studentId2 rel1 = Relation.studentId1 rel2).

(** Every relation is between two different students, and no relation
    is listed twice. *)
Definition relationsWellFormed (relations : list Relation.t) : Prop :=
  Forall (λ rel, Relation.studentId1 rel ≠ Relation.studentId2 rel) relations
  ∧ ∀ i j rel1 rel2,
      relations !! i = Some rel1 → relations !! j = Some rel2 →
      duplicateRelation rel1 rel2 → i = j.

(** At most two students are selected, and nobody twice. *)
Definition selectionWellFormed (selected : list string) : Prop :=
  NoDup selected ∧ (length selected ≤ 2)%nat.

(** The fixed assignment is carried out in the locals of the batch
    handler: its student and its seat are marked as used, the student's
    record shows the seat and the seat's record the student. *)
Definition fixedDone (fa : FixedSeat.t) (tmp : BulkTemp) : Prop :=
  FixedSeat.studentId fa ∈ assignedStudentIdsInTemp tmp
  ∧ FixedSeat.seatId fa ∈ assignedSeatIdsInTemp tmp
  ∧ (∃ s, findStudent (tempStudents tmp) (FixedSeat.studentId fa) = Some s
          ∧ Student.isAssigned s = true
          ∧ Student.assignedSeatId s = Some (FixedSeat.seatId fa))
  ∧ (∃ seat, findSeat (tempSeatMap tmp) (FixedSeat.seatId fa) = Some seat
             ∧ Seat.assignedStudentId seat = Some (FixedSeat.studentId fa)).

(** The fixed assignment can still be carried out: neither its student
    nor its seat is used, both are found, and the seat is usable and
    free or the student's own. *)
Definition fixedPending (fa : FixedSeat.t) (tmp : BulkTemp) : Prop :=
  (FixedSeat.studentId fa ∉ assignedStudentIdsInTemp tmp)
  ∧ (FixedSeat.seatId fa ∉ assignedSeatIdsInTemp tmp)
  ∧ (∃ s, findStudent (tempStudents tmp) (FixedSeat.studentId fa) = Some s)
  ∧ (∃ seat, findSeat (tempSeatMap tmp) (FixedSeat.seatId fa) = Some seat
             ∧ Seat.isUsable seat = true
             ∧ freeOrOwn (FixedSeat.studentId fa) seat).

(** * Sample data *)

Definition sampleStudent (id name : string) (seat : option string)
  : Student.t :=
  Student.mk id id name "" "" "" ""
    (match seat with Some _ => true | None => false end) seat.

Definition seatAt (row col : Z) (assigned : option string) (usable : bool)
  : Seat.t :=
  Seat.mk (seatIdOf row col) row col assigned usable.

Definition running (sel : option Student.t) (highlighted : option string)
  : Roulette.t :=
  Roulette.mk true highlighted sel [] false.

Definition aoi : Student.t := sampleStudent "S1" "Aoi" None.
Definition ben : Student.t := sampleStudent "S2" "Ben" (Some "R1C1").

(** Aoi is fixed to R1C1, which Ben already occupies; R1C2 is free. *)
Definition fixedConflictState : State :=
  mkState [aoi; ben]
    [seatAt 1 1 (Some "S2") true; seatAt 1 2 None true]
    (running (Some aoi) None) [] [FixedSeat.mk "S1" "R1C1"]
    false (Some aoi) None None.

(** Aoi must sit next to Ben (at R1C1) and the user clicked R1C3. *)
Definition manualRejectedState : State :=
  mkState [aoi; ben]
    [seatAt 1 1 (Some "S2") true; seatAt 1 2 None true; seatAt 1 3 None true]
    (running (Some aoi) None) [Relation.mk "S1" "S2" Relation.co_seat] []
    false (Some aoi) None (Some "R1C3").


Definition idle : Roulette.t := Roulette.mk false None None [] false.

(** Five unassigned students, four usable free seats, no relation and
    no fixed assignment. *)
Definition fiveStudentsFourSeats : State :=
  mkState
    [ sampleStudent "S1" "Aoi" None; sampleStudent "S2" "Ben" None;
      sampleStudent "S3" "Chie" None; sampleStudent "S4" "Dai" None;
      sampleStudent "S5" "Emi" None ]
    [ seatAt 1 1 None true; seatAt 1 2 None true;
      seatAt 2 1 None true; seatAt 2 2 None true ]
    idle [] [] false None None None.

(** A 3 by 3 grid with Aoi seated in the middle, R2C2. *)
Definition gridSeats : list Seat.t :=
  [ seatAt 1 1 None true; seatAt 1 2 None true; seatAt 1 3 None true;
    seatAt 2 1 None true; seatAt 2 2 (Some "S1") true; seatAt 2 3 None true;
    seatAt 3 1 None true; seatAt 3 2 None true; seatAt 3 3 None true ].

Definition gridStudents : list Student.t :=
  [ sampleStudent "S1" "Aoi" (Some "R2C2"); sampleStudent "S2" "Ben" None ].

(** Everybody is seated already. *)
Definition everyoneSeatedState : State :=
  mkState [ben]
    [seatAt 1 1 (Some "S2") true; seatAt 1 2 None true]
    idle [] [] false None None None.

(** Ben, seated at R1C1, is drawn once more while R1C2 is free. *)
Definition redrawState : State :=
  mkState [ben]
    [seatAt 1 1 (Some "S2") true; seatAt 1 2 None true]
    (running (Some ben) None) [] [] false (Some ben) None None.

(** Aoi must sit next to Ben (at R1C1); the roulette runs for Aoi and
    nothing is clicked or highlighted. *)
Definition drawState : State :=
  setManuallySelectedSeatIdForRoulette None manualRejectedState.

(** The same class before the roulette is started. *)
Definition readyState : State :=
  mkState [aoi; ben]
    [seatAt 1 1 (Some "S2") true; seatAt 1 2 None true; seatAt 1 3 None true]
    idle [Relation.mk "S1" "S2" Relation.co_seat] []
    false (Some aoi) None None.

(** Aoi must sit next to Ben (at R1C1), and the only seat next to Ben is
    not usable. *)
Definition noAdmissibleSeatState : State :=
  mkState [aoi; ben]
    [seatAt 1 1 (Some "S2") true; seatAt 1 2 None false; seatAt 1 3 None true]
    (running (Some aoi) None) [Relation.mk "S1" "S2" Relation.co_seat] []
    false (Some aoi) None None.

(** The 3 by 3 grid as a state, without relations and fixed seats. *)
Definition gridState : State :=
  mkState gridStudents gridSeats idle [] [] false None None None.

(** Nobody is seated; Aoi must sit next to Ben, and Ben is fixed to
    R1C1. *)
Definition fixedPartnerState : State :=
  mkState [aoi; sampleStudent "S2" "Ben" None]
    [seatAt 1 1 None true; seatAt 1 2 None true; seatAt 1 3 None true]
    idle [Relation.mk "S1" "S2" Relation.co_seat] [FixedSeat.mk "S2" "R1C1"]
    false None None None.

(** The finished chart of a class of two: Ben at R1C1, Aoi at R1C2, and
    R1C3 empty. *)
Definition chartState : State :=
  mkState
    [sampleStudent "S1" "Aoi" (Some "R1C2");
     sampleStudent "S2" "Ben" (Some "R1C1")]
    [seatAt 1 1 (Some "S2") true; seatAt 1 2 (Some "S1") true;
     seatAt 1 3 None true]
    idle [] [] false None None None.

(** The fixed-seat screen with Aoi fixed to R1C1, and Ben and R1C2
    selected. *)
Definition fixedSeatScreen : FixedSeatConfig.State :=
  FixedSeatConfig.mkState [FixedSeat.mk "S1" "R1C1"] (Some "S2")
    (Some "R1C2") None.

(** The relation screen with no relation yet, and Ben and Aoi selected
    in this order. *)
Definition relationScreen : RelationConfig.State :=
  RelationConfig.mkState [] ["S2"; "S1"] None.

(** * Properties *)

(** ** Seat identifiers *)

Lemma pretty_N_go_noSeparator (x : N) (s : string) :
  noSeparator s → noSeparator (pretty_N_go x s).
Proof.
  revert s. induction (N.lt_wf_0 x) as [x _ IH]; intros s Hs.
  destruct (decide (x = 0)%N) as [->|Hx].
  - by rewrite pretty_N_go_0.
  - rewrite pretty_N_go_step by lia.
    apply IH; [apply N.div_lt; lia|].
    split; [|done].
    unfold pretty_N_char. by repeat case_match.
Qed.

Lemma pretty_N_noSeparator (x : N) : noSeparator (pretty x).
Proof.
  unfold pretty, pretty_N. case_decide; [by cbn|].
  by apply pretty_N_go_noSeparator.
Qed.

Lemma pretty_Z_noSeparator (z : Z) : noSeparator (pretty z).
Proof.
  destruct z as [|p|p]; unfold pretty, pretty_Z; [by cbn|..].
  - apply (pretty_N_noSeparator (N.pos p)).
  - split; [done|]. apply (pretty_N_noSeparator (N.pos p)).
Qed.

(** The separator [C] ends the first number unambiguously. *)
Lemma separator_split (a a' b b' : string) :
  noSeparator a → noSeparator a' →
  a +:+ String "C" b = a' +:+ String "C" b' → a = a' ∧ b = b'.
Proof.
  revert a'. induction a as [|c a IH]; intros [|c' a'] Ha Ha' Heq;
    cbn in *.
  - by injection Heq.
  - injection Heq as <- _. by destruct Ha' as [[] _].
  - injection Heq as -> _. by destruct Ha as [[] _].
  - injection Heq as -> Heq. destruct Ha as [_ Ha], Ha' as [_ Ha'].
    by destruct (IH a' Ha Ha' Heq) as [-> ->].
Qed.

Lemma seatIdOf_inj (r c r' c' : Z) :
  seatIdOf r c = seatIdOf r' c' → r = r' ∧ c = c'.
Proof.
  unfold seatIdOf. cbn. intros [= Heq].
  apply separator_split in Heq as [Hr Hc];
    auto using pretty_Z_noSeparator.
  split; by apply (inj pretty).
Qed.


(** [forEach] with a conditional [push] is a filter. *)
Lemma fold_left_push_filter {A} (p : A → bool) (l init : list A) :
  fold_left (λ acc x, if p x then acc ++ [x] else acc) l init
  = init ++ List.filter p l.
Proof.
  revert init. induction l as [|x l IH]; intros init; cbn.
  - by rewrite app_nil_r.
  - rewrite IH. destruct (p x); [by rewrite <-app_assoc|done].
Qed.

Lemma someSeatWithId_true (seatMap : list Seat.t) (adjId : string) :
  someSeatWithId seatMap adjId = true
  ↔ ∃ seat, seat ∈ seatMap ∧ Seat.seatId seat = adjId.
Proof.
  unfold someSeatWithId. rewrite existsb_exists. split.
  - intros (seat & Hin & Heq). exists seat.
    rewrite list_elem_of_In. by apply bool_decide_eq_true in Heq.
  - intros (seat & Hin & Heq). exists seat.
    rewrite <-list_elem_of_In. by rewrite bool_decide_eq_true.
Qed.

Lemma getAdjacentSeatIds_matched (seatId m1 m2 : string)
    (seatMap : list Seat.t) :
  matchSeatId seatId = Some (m1, m2) →
  getAdjacentSeatIds seatId seatMap
  = List.filter
      (λ adjId,
         someSeatWithId seatMap adjId && negb (bool_decide (adjId = seatId)))
      (potentialAdjacents (parseInt m1) (parseInt m2)).
Proof.
  intros Hm. unfold getAdjacentSeatIds. rewrite Hm.
  by rewrite fold_left_push_filter.
Qed.

Lemma elem_of_getAdjacentSeatIds (seatId m1 m2 : string)
    (seatMap : list Seat.t) (x : string) :
  matchSeatId seatId = Some (m1, m2) →
  x ∈ getAdjacentSeatIds seatId seatMap
  ↔ x ∈ potentialAdjacents (parseInt m1) (parseInt m2)
    ∧ (∃ seat, seat ∈ seatMap ∧ Seat.seatId seat = x)
    ∧ x ≠ seatId.
Proof.
  intros Hm. rewrite (getAdjacentSeatIds_matched _ _ _ _ Hm).
  rewrite list_elem_of_In, filter_In, <-list_elem_of_In.
  rewrite andb_true_iff, someSeatWithId_true, negb_true_iff,
    bool_decide_eq_false.
  tauto.
Qed.

(** ** Well-formed seat ids are parsed back *)

Lemma pretty_N_char_is_nat (x : N) :
  (x < 10)%N → Ascii.is_nat (pretty_N_char x) = Some (N.to_nat x).
Proof.
  intros Hx. rewrite <-(N2Nat.id x) at 1.
  assert (N.to_nat x < 10)%nat as Hn by lia.
  revert Hn. generalize (N.to_nat x) as n. intros n Hn.
  do 10 (destruct n as [|n]; [reflexivity|]). lia.
Qed.

Lemma pretty_N_go_allDigits (x : N) (s : string) :
  allDigits s → allDigits (pretty_N_go x s).
Proof.
  revert s. induction (N.lt_wf_0 x) as [x _ IH]; intros s Hs.
  destruct (decide (x = 0)%N) as [->|Hx]; [by rewrite pretty_N_go_0|].
  rewrite pretty_N_go_step by lia.
  apply IH; [apply N.div_lt; lia|].
  split; [|done]. unfold isDigit.
  by rewrite pretty_N_char_is_nat by (apply N.mod_lt; lia).
Qed.

Lemma pretty_N_go_nonempty (x : N) (s : string) :
  s ≠ "" → pretty_N_go x s ≠ "".
Proof.
  revert s. induction (N.lt_wf_0 x) as [x _ IH]; intros s Hs.
  destruct (decide (x = 0)%N) as [->|Hx]; [by rewrite pretty_N_go_0|].
  rewrite pretty_N_go_step by lia.
  apply IH; [apply N.div_lt; lia|done].
Qed.

(** Reading back what was printed in front of [s] shifts the
    accumulator by the printed digits. *)
Lemma parseIntFrom_pretty_N_go (x : N) (s : string) :
  ∃ k, ∀ acc,
    parseIntFrom acc (pretty_N_go x s) = parseIntFrom (acc * k + Z.of_N x) s.
Proof.
  revert s. induction (N.lt_wf_0 x) as [x _ IH]; intros s.
  destruct (decide (x = 0)%N) as [->|Hx].
  - exists 1. intros acc. rewrite pretty_N_go_0. f_equal. lia.
  - rewrite pretty_N_go_step by lia.
    destruct (IH (x `div` 10)%N ltac:(apply N.div_lt; lia)
                (String (pretty_N_char (x `mod` 10)) s)) as [k Hk].
    exists (10 * k). intros acc. rewrite Hk. cbn [parseIntFrom].
    rewrite pretty_N_char_is_nat by (apply N.mod_lt; lia).
    f_equal. rewrite N_nat_Z.
    pose proof (N.div_mod x 10 ltac:(lia)) as Hdiv.
    lia.
Qed.

Lemma pretty_nonneg (z : Z) :
  (0 ≤ z)%Z →
  allDigits (pretty z) ∧ pretty z ≠ "" ∧ parseInt (pretty z) = z.
Proof.
  intros Hz. destruct z as [|p|p]; [by cbn| |lia].
  unfold pretty, pretty_Z, pretty, pretty_positive, pretty, pretty_N.
  rewrite decide_False by done. split; [|split].
  - by apply pretty_N_go_allDigits.
  - rewrite pretty_N_go_step by lia. by apply pretty_N_go_nonempty.
  - destruct (parseIntFrom_pretty_N_go (N.pos p) "") as [k Hk].
    unfold parseInt. rewrite Hk. cbn [parseIntFrom]. lia.
Qed.

Lemma spanDigits_app (ds rest : string) :
  allDigits ds →
  (∀ c rest', rest = String c rest' → isDigit c = false) →
  spanDigits (ds +:+ rest) = (ds, rest).
Proof.
  intros Hds Hrest. induction ds as [|c ds IH].
  - change ("" +:+ rest) with rest.
    destruct rest as [|c rest']; [done|].
    cbn [spanDigits]. by rewrite (Hrest c rest').
  - change (String c ds +:+ rest) with (String c (ds +:+ rest)).
    cbn [spanDigits]. destruct Hds as [-> Hds]. by rewrite IH.
Qed.

Lemma spanDigits_allDigits (ds : string) :
  allDigits ds → spanDigits ds = (ds, "").
Proof.
  induction ds as [|c ds IH]; [done|].
  intros [Hc Hds]. cbn [spanDigits]. by rewrite Hc, IH.
Qed.

(** A seat id printed from non-negative coordinates matches the pattern
    at its first character, and the captured groups read back as the
    coordinates. *)
Lemma matchSeatId_seatIdOf (row col : Z) :
  (0 ≤ row)%Z → (0 ≤ col)%Z →
  ∃ m1 m2,
    matchSeatId (seatIdOf row col) = Some (m1, m2)
    ∧ parseInt m1 = row ∧ parseInt m2 = col.
Proof.
  intros Hrow Hcol.
  destruct (pretty_nonneg row Hrow) as (Hd1 & Hne1 & Hp1).
  destruct (pretty_nonneg col Hcol) as (Hd2 & Hne2 & Hp2).
  exists (pretty row), (pretty col). split; [|done].
  assert (matchHere (seatIdOf row col) = Some (pretty row, pretty col))
    as Hhere.
  { unfold seatIdOf, matchHere.
    change ("R" +:+ ?s) with (String "R" s).
    change ("C" +:+ ?s) with (String "C" s). cbv iota beta.
    rewrite spanDigits_app; [|done|by intros c rest' [= <- _]].
    destruct (pretty row) as [|d1 ds1] eqn:Hrow'; [done|].
    rewrite spanDigits_allDigits by done.
    by destruct (pretty col). }
  destruct (seatIdOf row col) as [|c s] eqn:Hid; [done|].
  cbn [matchSeatId]. by rewrite Hhere.
Qed.

(** On seat ids of the grid, adjacency is membership among the four
    orthogonal neighbours present in the seat map. *)
Lemma elem_of_getAdjacentSeatIds_seatIdOf (row col : Z)
    (seatMap : list Seat.t) (x : string) :
  (0 ≤ row)%Z → (0 ≤ col)%Z →
  x ∈ getAdjacentSeatIds (seatIdOf row col) seatMap
  ↔ x ∈ potentialAdjacents row col
    ∧ ∃ seat, seat ∈ seatMap ∧ Seat.seatId seat = x.
Proof.
  intros Hrow Hcol.
  destruct (matchSeatId_seatIdOf row col Hrow Hcol)
    as (m1 & m2 & Hm & <- & <-).
  rewrite (elem_of_getAdjacentSeatIds _ _ _ _ _ Hm).
  split; [tauto|]. intros [Hin Hseat]. split; [done|split; [done|]].
  intros ->. unfold potentialAdjacents in Hin.
  rewrite !elem_of_cons, elem_of_nil in Hin.
  destruct Hin as [H|[H|[H|[H|[]]]]]; apply seatIdOf_inj in H; lia.
Qed.


(** The pattern is looked for anywhere in the identifier. *)
Example getAdjacentSeatIds_embedded_pattern :
  getAdjacentSeatIds "xR2C2y" gridSeats = ["R1C2"; "R3C2"; "R2C1"; "R2C3"]
  ∧ getAdjacentSeatIds "R2C2" gridSeats = ["R1C2"; "R3C2"; "R2C1"; "R2C3"]
  ∧ getAdjacentSeatIds "R1C1" gridSeats = ["R2C1"; "R1C2"].
Proof. by vm_compute. Qed.

(** ** The constraint checker *)

Lemma checkRelationsLoop_cons_true (studentId : string)
    (adjacentSeats : list string) (allStudents : list Student.t)
    (rel : Relation.t) (rest : list Relation.t) :
  checkRelationsLoop studentId adjacentSeats allStudents (rel :: rest) = true
  ↔ relationRespected studentId adjacentSeats allStudents rel
    ∧ checkRelationsLoop studentId adjacentSeats allStudents rest = true.
Proof.
  cbn [checkRelationsLoop].
  unfold relationRespected, involves, seatedAt, includes.
  destruct (bool_decide (Relation.studentId1 rel = studentId)
            || bool_decide (Relation.studentId2 rel = studentId)) eqn:Hinv.
  - apply orb_true_iff in Hinv.
    rewrite !bool_decide_eq_true in Hinv.
    destruct (findStudent allStudents (partnerIdOf rel studentId))
      as [p|] eqn:Hfind.
    + destruct (Student.isAssigned p) eqn:Hassigned; cbn [negb orb].
      * destruct (Student.assignedSeatId p) as [ps|] eqn:Hseat; cbn [truthy].
        -- case_bool_decide as Hempty; cbn [negb].
           ++ split; [|tauto]. intros Hrest. split; [|done].
              intros _ ps' (p' & [= <-] & _ & Hps' & Hne). congruence.
           ++ destruct (Relation.type rel) eqn:Htype; cbn [relationHolds];
                case_bool_decide as Hadj; cbn [negb].
              ** split; [|tauto]. intros Hrest. split; [|done].
                 intros _ ps' (p' & [= <-] & _ & Hps' & _). congruence.
              ** split; [done|]. intros [Hrel _]. exfalso.
                 apply Hadj, Hrel; [done|]. by exists p.
              ** split; [done|]. intros [Hrel _]. exfalso.
                 eapply Hrel; [done| |done]. by exists p.
              ** split; [|tauto]. intros Hrest. split; [|done].
                 intros _ ps' (p' & [= <-] & _ & Hps' & _). congruence.
        -- split; [|tauto]. intros Hrest. split; [|done].
           intros _ ps' (p' & [= <-] & _ & Hps' & _). congruence.
      * split; [|tauto]. intros Hrest. split; [|done].
        intros _ ps' (p' & [= <-] & Hp' & _). congruence.
    + split; [|tauto]. intros Hrest. split; [|done].
      by intros _ ps' (p' & [=] & _).
  - apply orb_false_iff in Hinv.
    rewrite !bool_decide_eq_false in Hinv.
    split; [|tauto]. intros Hrest. split; [|done]. tauto.
Qed.

Lemma checkRelationsLoop_true (studentId : string)
    (adjacentSeats : list string) (allStudents : list Student.t)
    (relations : list Relation.t) :
  checkRelationsLoop studentId adjacentSeats allStudents relations = true
  ↔ ∀ rel, rel ∈ relations →
      relationRespected studentId adjacentSeats allStudents rel.
Proof.
  induction relations as [|rel rest IH].
  - split; [|done]. intros _ rel Hin. by apply elem_of_nil in Hin.
  - rewrite checkRelationsLoop_cons_true, IH. split.
    + intros [Hrel Hrest] rel' [->|Hin]%elem_of_cons; auto.
    + intros Hall. split; [|intros rel' Hin]; apply Hall;
        rewrite elem_of_cons; auto.
Qed.


(** With Aoi seated at R2C2 and Ben bound to Aoi by a [co_seat]
    relation, Ben is admissible exactly at the four seats around R2C2;
    with a [no_co_seat] relation, exactly at the others. *)
Example checkRelationConstraints_grid :
  List.filter
    (λ seat,
       checkRelationConstraints (Seat.seatId seat)
         (Some (sampleStudent "S2" "Ben" None)) gridSeats gridStudents
         [Relation.mk "S1" "S2" Relation.co_seat])
    gridSeats
  = [ seatAt 1 2 None true; seatAt 2 1 None true; seatAt 2 3 None true;
      seatAt 3 2 None true ]
  ∧ Seat.seatId
      <$> List.filter
            (λ seat,
               checkRelationConstraints (Seat.seatId seat)
                 (Some (sampleStudent "S2" "Ben" None)) gridSeats gridStudents
                 [Relation.mk "S2" "S1" Relation.no_co_seat])
            gridSeats
    = ["R1C1"; "R1C3"; "R2C2"; "R3C1"; "R3C3"].
Proof. by vm_compute. Qed.

(** ** The single draw *)

Lemma resolveFixedOrManual_state (sel : Student.t) (st cur : State) :
  ∃ f, (resolveFixedOrManual sel st cur).2 = updateLocalErrorMessage f cur.
Proof.
  unfold resolveFixedOrManual, setLocalErrorMessage.
  assert (cur = updateLocalErrorMessage (λ m, m) cur) as Hid
    by by destruct cur.
  repeat case_match; cbn [snd]; eauto.
Qed.



Lemma fallbackLoop_step (sel : Student.t) (st : State)
    (shuffled : list Seat.t) (remaining attempts : nat) :
  fallbackLoop sel st shuffled (S remaining) attempts
  = match shuffled !! (attempts mod length shuffled)%nat with
    | Some seat =>
        if eligible sel st seat then Some (Seat.seatId seat)
        else fallbackLoop sel st shuffled remaining (S attempts)
    | None => fallbackLoop sel st shuffled remaining (S attempts)
    end.
Proof.
  cbn [fallbackLoop]. unfold eligible.
  destruct (shuffled !! _) as [seat|]; [|done].
  by destruct (truthy _), (checkRelationConstraints _ _ _ _ _).
Qed.



(** A seat id accepted by the loop is never empty. *)
Lemma fallbackLoop_truthy (sel : Student.t) (st : State)
    (shuffled : list Seat.t) (remaining attempts : nat) (seatId : string) :
  fallbackLoop sel st shuffled remaining attempts = Some seatId →
  truthy (Some seatId) = true.
Proof.
  revert attempts. induction remaining as [|remaining IH];
    intros attempts; [done|].
  rewrite fallbackLoop_step.
  destruct (shuffled !! _) as [seat|]; [|by apply IH].
  destruct (eligible sel st seat) eqn:Hok; [|by apply IH].
  intros [= <-]. unfold eligible in Hok. by apply andb_true_iff in Hok as [].
Qed.

Lemma elem_of_availableSeatsOf (seatMap : list Seat.t) (seat : Seat.t) :
  seat ∈ availableSeatsOf seatMap ↔ seat ∈ seatMap ∧ isAvailable seat = true.
Proof.
  unfold availableSeatsOf. by rewrite !list_elem_of_In, filter_In.
Qed.

Lemma eligible_admissible (sel : Student.t) (st : State) (seat : Seat.t) :
  Seat.seatId seat ≠ "" →
  eligible sel st seat = true ↔ admissibleFor sel st seat.
Proof.
  intros Hne. unfold eligible, admissibleFor. cbn [truthy].
  rewrite bool_decide_eq_false_2 by done. by cbn.
Qed.



Lemma fallbackLoop_ext (sel : Student.t) (st st' : State)
    (shuffled : list Seat.t) (remaining attempts : nat) :
  seatMap st' = seatMap st →
  students st' = students st →
  relationConfig st' = relationConfig st →
  fallbackLoop sel st' shuffled remaining attempts
  = fallbackLoop sel st shuffled remaining attempts.
Proof.
  intros Hseats Hstudents Hrels. revert attempts.
  induction remaining as [|remaining IH]; intros attempts; [done|].
  cbn [fallbackLoop]. by rewrite IH, Hseats, Hstudents, Hrels.
Qed.

(** C2 (the code at the failing input).  Aoi is fixed to R1C1, which Ben
    occupies.  The draw reports the conflict and nevertheless goes on to
    the fallback search, which seats Aoi at R1C2. *)
Example stopRoulette_fixed_conflict_commits_elsewhere :
  List.find (λ fsa, bool_decide (FixedSeat.studentId fsa = Student.id aoi))
    (fixedSeatAssignments fixedConflictState)
  = Some (FixedSeat.mk "S1" "R1C1")
  ∧ findSeat (seatMap fixedConflictState) "R1C1"
    = Some (seatAt 1 1 (Some "S2") true)
  ∧ localErrorMessage (stopRoulette (λ l, l) fixedConflictState)
    = Some [FixedSeatOccupied "Aoi" "R1C1"]
  ∧ committed "S1" "R1C2" fixedConflictState
      (stopRoulette (λ l, l) fixedConflictState)
  ∧ students (stopRoulette (λ l, l) fixedConflictState)
    = [sampleStudent "S1" "Aoi" (Some "R1C2"); ben].
Proof. vm_compute. repeat split. Qed.

(** C3 (counterexample).  Aoi has no fixed seat and must sit next to Ben
    at R1C1; the clicked seat R1C3 fails the constraint checker.  The draw
    does not stop there: the fallback search seats Aoi at R1C2. *)
Lemma stopRoulette_manual_rejected_commits :
  noFixedSeatFor aoi manualRejectedState
  ∧ manuallySelectedSeatIdForRoulette manualRejectedState = Some "R1C3"
  ∧ checkRelationConstraints "R1C3" (Some aoi)
      (seatMap manualRejectedState) (students manualRejectedState)
      (relationConfig manualRejectedState) = false
  ∧ committed "S1" "R1C2" manualRejectedState
      (stopRoulette (λ l, l) manualRejectedState)
  ∧ ¬ sameAssignments manualRejectedState
        (stopRoulette (λ l, l) manualRejectedState).
Proof.
  split; [by vm_compute|]. split; [by vm_compute|].
  split; [by vm_compute|]. split; [vm_compute; by repeat split|].
  intros [Hstudents _]. vm_compute in Hstudents. discriminate.
Qed.

(** C3 (as amended).  When the student has no fixed seat and the clicked
    seat is unavailable or inadmissible, the draw reports an error and
    then goes on with the highlighted seat and the fallback search exactly
    as it does without a manual selection: students, seat map and roulette
    state (history included) come out the same. *)
Theorem stopRoulette_manual_rejected_continues
    (shuffle : list Seat.t → list Seat.t) (st : State) (sel : Student.t)
    (manual : string) :
  Roulette.isRunning (rouletteState st) = true →
  selectedStudentForAssignment st = Some sel →
  noFixedSeatFor sel st →
  manuallySelectedSeatIdForRoulette st = Some manual →
  manual ≠ "" →
  unavailableOrInadmissible sel st manual →
  let st' := stopRoulette shuffle st in
  let ref := stopRoulette shuffle (setManuallySelectedSeatIdForRoulette None st) in
  localErrorMessage st' ≠ None
  ∧ students st' = students ref
  ∧ seatMap st' = seatMap ref
  ∧ rouletteState st' = rouletteState ref.
Proof.
  intros Hrun Hsel Hfixed Hmanual Hne Hbad st' ref.
  assert (∃ m, resolveFixedOrManual sel st (setLocalErrorMessage None st)
               = (None, setLocalErrorMessage (Some [m])
                          (setLocalErrorMessage None st))) as [m Hst].
  { unfold resolveFixedOrManual. unfold noFixedSeatFor in Hfixed.
    rewrite Hfixed, Hmanual. cbn [truthy].
    rewrite bool_decide_eq_false_2 by done. cbn [negb].
    destruct Hbad as [->| ->]; [by eauto|]. case_match; by eauto. }
  assert (resolveFixedOrManual sel
            (setManuallySelectedSeatIdForRoulette None st)
            (setLocalErrorMessage None
               (setManuallySelectedSeatIdForRoulette None st))
          = (None, setLocalErrorMessage None
                     (setManuallySelectedSeatIdForRoulette None st)))
    as Href.
  { unfold resolveFixedOrManual. unfold noFixedSeatFor in Hfixed.
    cbn [fixedSeatAssignments manuallySelectedSeatIdForRoulette
           setManuallySelectedSeatIdForRoulette].
    by rewrite Hfixed. }
  assert (resolveHighlighted sel
            (setManuallySelectedSeatIdForRoulette None st) None
          = resolveHighlighted sel st None) as Hhigh by done.
  assert (fallbackLoop sel (setManuallySelectedSeatIdForRoulette None st)
            (shuffle (availableSeats
                        (setManuallySelectedSeatIdForRoulette None st)))
            maxAttempts 0
          = fallbackLoop sel st (shuffle (availableSeats st)) maxAttempts 0)
    as Hloop by by apply fallbackLoop_ext.
  subst st' ref. unfold stopRoulette.
  cbn [rouletteState selectedStudentForAssignment
         setManuallySelectedSeatIdForRoulette].
  rewrite Hrun, Hsel, Hst, Href, Hhigh, Hloop. cbn [negb].
  clear Hst Href Hhigh Hloop.
  destruct (resolveHighlighted sel st None) as [seatId|];
    [by repeat split|].
  destruct (fallbackLoop sel st _ _ _) as [seatId|];
    [destruct (truthy (Some seatId))|]; by repeat split.
Qed.


Section EngineProperties.

Variable sortByNumber : list Student.t → list Student.t.

(** Sorting rearranges the list, whatever the comparison makes of the
    [number] texts. *)
Hypothesis sortByNumber_perm : ∀ l, sortByNumber l ≡ₚ l.

(** ** Batch assignment: the early returns *)

Lemma length_unassignedStudents (st : State) :
  length (unassignedStudents sortByNumber st)
  = length (List.filter (λ s, negb (Student.isAssigned s)) (students st)).
Proof.
  unfold unassignedStudents, unassignedStudentsOf.
  by rewrite sortByNumber_perm.
Qed.

(** C7.  [handleBulkAssign] returns before phase 1, with an error message
    and everything else untouched, when no student is unassigned, when
    students are unassigned and no seat is available, and when more
    students are unassigned than seats are available. *)
Theorem handleBulkAssign_preconditions (confirmed : bool)
    (rndStudents rndSeats : nat → nat) (st : State) :
  let unassigned :=
    List.filter (λ s, negb (Student.isAssigned s)) (students st) in
  let available := availableSeats st in
  let st' :=
    handleBulkAssign sortByNumber confirmed rndStudents rndSeats st in
  (unassigned = [] →
     st' = setLocalErrorMessage (Some [NoStudentsToAssign]) st)
  ∧ (unassigned ≠ [] → available = [] →
     st' = setLocalErrorMessage (Some [NoAvailableSeats]) st)
  ∧ (available ≠ [] → (length available < length unassigned)%nat →
     st' = setLocalErrorMessage
             (Some [MoreStudentsThanSeats (length unassigned)
                      (length available)]) st)
  ∧ (unassigned = [] ∨ available = []
     ∨ (length available < length unassigned)%nat →
     sameAssignments st st' ∧ localErrorMessage st' ≠ None).
Proof.
  intros unassigned available st'.
  assert (length (unassignedStudents sortByNumber st) = length unassigned)
    as Hlen by apply length_unassignedStudents.
  assert (unassigned = [] →
          st' = setLocalErrorMessage (Some [NoStudentsToAssign]) st) as H1.
  { intros Hnil. subst st'. unfold handleBulkAssign.
    rewrite Hlen, Hnil. by rewrite bool_decide_eq_true_2. }
  assert (unassigned ≠ [] → available = [] →
          st' = setLocalErrorMessage (Some [NoAvailableSeats]) st) as H2.
  { intros Hne Hnil. subst st'. unfold handleBulkAssign.
    rewrite Hlen. fold available. rewrite Hnil.
    rewrite bool_decide_eq_false_2 by by destruct unassigned.
    by rewrite bool_decide_eq_true_2. }
  assert (available ≠ [] → (length available < length unassigned)%nat →
          st' = setLocalErrorMessage
                  (Some [MoreStudentsThanSeats (length unassigned)
                           (length available)]) st) as H3.
  { intros Hne Hlt. subst st'. unfold handleBulkAssign.
    rewrite Hlen. fold available.
    rewrite bool_decide_eq_false_2 by lia.
    rewrite bool_decide_eq_false_2 by by destruct available.
    by rewrite bool_decide_eq_true_2. }
  do 3 (split; [done|]). intros Hcase.
  assert (∃ m, st' = setLocalErrorMessage (Some [m]) st) as [m ->]; [|done].
  destruct (decide (unassigned = [])) as [Hu|Hu]; [by eauto|].
  destruct (decide (available = [])) as [Ha|Ha]; [by eauto|].
  destruct Hcase as [?|[?|Hlt]]; by eauto.
Qed.

(** C8 (as amended).  With five unassigned students and four available
    seats, [handleBulkAssign] returns early with the message that the
    students outnumber the seats (5 against 4); nothing else in the state
    changes, so no assignment is committed. *)
Theorem handleBulkAssign_five_students_four_seats (confirmed : bool)
    (rndStudents rndSeats : nat → nat) (st : State) :
  length (List.filter (λ s, negb (Student.isAssigned s)) (students st))
  = 5%nat →
  length (availableSeats st) = 4%nat →
  handleBulkAssign sortByNumber confirmed rndStudents rndSeats st
  = setLocalErrorMessage (Some [MoreStudentsThanSeats 5 4]) st.
Proof.
  intros Hu Ha. unfold handleBulkAssign.
  rewrite length_unassignedStudents, Hu, Ha.
  rewrite !bool_decide_eq_false_2 by lia.
  by rewrite bool_decide_eq_true_2 by lia.
Qed.

(** ** Reset *)

(** C9.  A confirmed reset clears the assigned student of every seat,
    the assignment flag and seat of every student and the whole history;
    the fixed assignments, the relations, and the other fields of every
    seat (identifier, row, column, usability) and of every student are
    as before. *)
Theorem handleResetRoulette_clears_assignments (st : State) :
  let st' := handleResetRoulette sortByNumber true st in
  Forall (λ seat, Seat.assignedStudentId seat = None) (seatMap st')
  ∧ Forall (λ s, Student.isAssigned s = false
                 ∧ Student.assignedSeatId s = None) (students st')
  ∧ Roulette.winningHistory (rouletteState st') = []
  ∧ fixedSeatAssignments st' = fixedSeatAssignments st
  ∧ relationConfig st' = relationConfig st
  ∧ Forall2 (λ seat seat',
               Seat.seatId seat' = Seat.seatId seat
               ∧ Seat.row seat' = Seat.row seat
               ∧ Seat.col seat' = Seat.col seat
               ∧ Seat.isUsable seat' = Seat.isUsable seat)
      (seatMap st) (seatMap st')
  ∧ Forall2 (λ s s',
               Student.id s' = Student.id s
               ∧ Student.number s' = Student.number s
               ∧ Student.name s' = Student.name s
               ∧ Student.kana s' = Student.kana s
               ∧ Student.info1 s' = Student.info1 s
               ∧ Student.info2 s' = Student.info2 s
               ∧ Student.info3 s' = Student.info3 s)
      (students st) (students st').
Proof.
  cbn. repeat split.
  - by apply Forall_fmap, Forall_true.
  - by apply Forall_fmap, Forall_true.
  - apply Forall2_fmap_r, Forall2_same_length_lookup.
    split; [done|]. by intros i seat seat' -> [= ->].
  - apply Forall2_fmap_r, Forall2_same_length_lookup.
    split; [done|]. by intros i s s' -> [= ->].
Qed.

End EngineProperties.

(** C8 (counterexample).  On five unassigned students and four usable
    free seats, without relations or fixed assignments, the confirmed
    batch call commits nothing: the five students are still unassigned
    and the history is empty. *)
Lemma handleBulkAssign_five_four_commits_nothing :
  length (List.filter (λ s, negb (Student.isAssigned s))
            (students fiveStudentsFourSeats)) = 5%nat
  ∧ length (availableSeats fiveStudentsFourSeats) = 4%nat
  ∧ relationConfig fiveStudentsFourSeats = []
  ∧ fixedSeatAssignments fiveStudentsFourSeats = []
  ∧ length (List.filter (λ s, negb (Student.isAssigned s))
              (students
                 (handleBulkAssign (λ l, l) true (λ i, i) (λ i, i)
                    fiveStudentsFourSeats))) = 5%nat
  ∧ Roulette.winningHistory
      (rouletteState
         (handleBulkAssign (λ l, l) true (λ i, i) (λ i, i)
            fiveStudentsFourSeats)) = []
  ∧ localErrorMessage
      (handleBulkAssign (λ l, l) true (λ i, i) (λ i, i)
         fiveStudentsFourSeats)
    = Some [MoreStudentsThanSeats 5 4].
Proof. vm_compute. repeat split. Qed.

(** ** The assignment invariant *)

Lemma assignInStudents_ids (students : list Student.t)
    (studentId chosen : string) :
  Student.id <$> assignInStudents students studentId chosen
  = Student.id <$> students.
Proof.
  unfold assignInStudents. rewrite <-list_fmap_compose.
  apply list_fmap_ext. intros _ s _. cbn. unfold assignStudent.
  by case_bool_decide.
Qed.

Lemma lookup_same_id (students : list Student.t) (i j : nat)
    (s1 s2 : Student.t) :
  NoDup (Student.id <$> students) →
  students !! i = Some s1 → students !! j = Some s2 →
  Student.id s1 = Student.id s2 → i = j.
Proof.
  intros Hnodup H1 H2 Heq.
  apply (NoDup_lookup _ i j (Student.id s1) Hnodup);
    rewrite list_lookup_fmap; [by rewrite H1|by rewrite H2, Heq].
Qed.

(** A seat whose record shows it free, or the student's own, is held by
    nobody else. *)
Lemma freeOrOwn_holder (students : list Student.t) (seatMap : list Seat.t)
    (studentId : string) (seat : Seat.t) (s : Student.t) :
  consistent students seatMap →
  seat ∈ seatMap → freeOrOwn studentId seat →
  s ∈ students → Student.assignedSeatId s = Some (Seat.seatId seat) →
  Student.id s = studentId.
Proof.
  intros ([_ Hne] & _ & _ & Hrec) Hseat Hfree Hs Hheld.
  pose proof (Hrec s seat Hs Hseat Hheld) as Hassigned.
  destruct Hfree as [Hfree|Hown].
  - rewrite Hassigned in Hfree. cbn in Hfree.
    apply negb_false_iff, bool_decide_eq_true in Hfree.
    by destruct (Hne s Hs).
  - congruence.
Qed.

Lemma free_not_held (students : list Student.t) (seatMap : list Seat.t)
    (seat : Seat.t) (s : Student.t) :
  consistent students seatMap →
  seat ∈ seatMap → truthy (Seat.assignedStudentId seat) = false →
  s ∈ students → Student.assignedSeatId s ≠ Some (Seat.seatId seat).
Proof.
  intros Hcons Hseat Hfree Hs Hheld.
  destruct Hcons as ([Hnodup Hne] & Hrest).
  apply (Hne s Hs).
  by apply (freeOrOwn_holder students seatMap "" seat s);
    [split| |left| |].
Qed.

(** Committing a pair keeps the invariant, provided nobody but the
    student holds the seat. *)
Lemma assign_consistent (students : list Student.t) (seatMap : list Seat.t)
    (studentId chosen : string) :
  consistent students seatMap →
  (∀ s, s ∈ students → Student.assignedSeatId s = Some chosen →
        Student.id s = studentId) →
  consistent (assignInStudents students studentId chosen)
    (assignInSeatMap seatMap chosen studentId).
Proof.
  intros ([Hnodup Hne] & Hflags & Hexcl & Hrec) Hholder.
  split; [split|split; [|split]].
  - by rewrite assignInStudents_ids.
  - intros s' (s & -> & Hs)%list_elem_of_fmap.
    unfold assignStudent. case_bool_decide; cbn; by apply Hne.
  - intros s' (s & -> & Hs)%list_elem_of_fmap.
    unfold assignStudent. case_bool_decide; cbn; [done|by apply Hflags].
  - intros i j s1' s2' seatId H1 H2.
    unfold assignInStudents in H1, H2. rewrite list_lookup_fmap in H1, H2.
    destruct (students !! i) as [s1|] eqn:Hs1; [|done].
    destruct (students !! j) as [s2|] eqn:Hs2; [|done].
    cbn in H1, H2. injection H1 as <-. injection H2 as <-.
    unfold assignStudent.
    case_bool_decide as Hid1; case_bool_decide as Hid2; cbn.
    + intros _ _. eapply lookup_same_id; eauto. congruence.
    + intros [= <-] Hheld. destruct Hid2. apply Hholder; [|done].
      by eapply list_elem_of_lookup_2.
    + intros Hheld [= <-]. destruct Hid1. apply Hholder; [|done].
      by eapply list_elem_of_lookup_2.
    + by apply Hexcl.
  - intros s' seat' (s & -> & Hs)%list_elem_of_fmap
      (seat & -> & Hseat)%list_elem_of_fmap.
    unfold assignStudent, assignSeat.
    case_bool_decide as Hid; case_bool_decide as Hsid; cbn.
    + by rewrite Hid.
    + intros [= ->]. by destruct Hsid.
    + intros Hheld. destruct Hid. apply Hholder; [done|]. by rewrite Hheld, Hsid.
    + by apply Hrec.
Qed.

Lemma findSeat_Some (seats : list Seat.t) (seatId : string) (seat : Seat.t) :
  findSeat seats seatId = Some seat →
  seat ∈ seats ∧ Seat.seatId seat = seatId.
Proof.
  unfold findSeat. intros [Hin Heq]%find_some.
  by rewrite list_elem_of_In, <-(bool_decide_eq_true _).
Qed.

Lemma findStudent_Some (allStudents : list Student.t) (studentId : string)
    (s : Student.t) :
  findStudent allStudents studentId = Some s →
  s ∈ allStudents ∧ Student.id s = studentId.
Proof.
  unfold findStudent. intros [Hin Heq]%find_some.
  by rewrite list_elem_of_In, <-(bool_decide_eq_true _).
Qed.

Lemma available_freeOrOwn (seatMap : list Seat.t) (studentId : string)
    (seat : Seat.t) :
  seat ∈ availableSeatsOf seatMap →
  seat ∈ seatMap ∧ freeOrOwn studentId seat.
Proof.
  intros [Hin Havail]%elem_of_availableSeatsOf. split; [done|]. left.
  unfold isAvailable in Havail.
  apply andb_true_iff in Havail as [_ Hfree]. by apply negb_true_iff.
Qed.

(** The seat of steps 1 and 2 is in the seat map, and free or the
    student's own. *)
Lemma resolveFixedOrManual_safe (sel : Student.t) (st cur : State)
    (seatId : string) :
  (resolveFixedOrManual sel st cur).1 = Some seatId →
  ∃ seat, seat ∈ seatMap st ∧ Seat.seatId seat = seatId
          ∧ freeOrOwn (Student.id sel) seat.
Proof.
  unfold resolveFixedOrManual.
  destruct (List.find _ (fixedSeatAssignments st)) as [fixed|].
  - destruct (findSeat (seatMap st) (FixedSeat.seatId fixed))
      as [seat|] eqn:Hseat; [|done].
    apply findSeat_Some in Hseat as [Hin Hid].
    destruct (Seat.isUsable seat); cbn [negb]; [|done].
    destruct (truthy (Seat.assignedStudentId seat)) eqn:Htruthy;
      cbn [andb].
    + case_bool_decide as Hown; cbn [negb]; [|done].
      intros [= <-]. exists seat. by repeat split; [..|right].
    + intros [= <-]. exists seat. by repeat split; [..|left].
  - destruct (manuallySelectedSeatIdForRoulette st) as [manual|]; [|done].
    destruct (truthy (Some manual)); [|done].
    destruct (findSeat (availableSeats st) manual) as [seat|] eqn:Hseat;
      [|done].
    apply findSeat_Some in Hseat as [Hin Hid].
    apply (available_freeOrOwn _ (Student.id sel)) in Hin as [Hin Hfree].
    destruct (checkRelationConstraints _ _ _ _ _); [|done].
    intros [= <-]. by exists seat.
Qed.

Lemma resolveHighlighted_safe (sel : Student.t) (st : State)
    (seatId : string) :
  resolveHighlighted sel st None = Some seatId →
  ∃ seat, seat ∈ seatMap st ∧ Seat.seatId seat = seatId
          ∧ freeOrOwn (Student.id sel) seat.
Proof.
  unfold resolveHighlighted.
  destruct (Roulette.currentSelectedSeatId (rouletteState st))
    as [highlighted|]; [|done].
  destruct (truthy (Some highlighted)); [|done].
  destruct (findSeat (availableSeats st) highlighted) as [seat|] eqn:Hseat;
    [|done].
  apply findSeat_Some in Hseat as [Hin Hid].
  apply (available_freeOrOwn _ (Student.id sel)) in Hin as [Hin Hfree].
  destruct (checkRelationConstraints _ _ _ _ _); [|done].
  intros [= <-]. by exists seat.
Qed.

Lemma fallbackLoop_elem (sel : Student.t) (st : State)
    (shuffled : list Seat.t) (remaining attempts : nat) (seatId : string) :
  fallbackLoop sel st shuffled remaining attempts = Some seatId →
  ∃ seat, seat ∈ shuffled ∧ Seat.seatId seat = seatId.
Proof.
  revert attempts. induction remaining as [|remaining IH];
    intros attempts; [done|].
  rewrite fallbackLoop_step.
  destruct (shuffled !! _) as [seat|] eqn:Hseat; [|by apply IH].
  destruct (eligible sel st seat); [|by apply IH].
  intros [= <-]. exists seat. split; [|done].
  by eapply list_elem_of_lookup_2.
Qed.

(** A draw either leaves students and seats as they are, or commits one
    pair whose seat was free or the student's own. *)
Lemma stopRoulette_outcome (shuffle : list Seat.t → list Seat.t)
    (st : State) :
  shuffle (availableSeats st) ≡ₚ availableSeats st →
  (students (stopRoulette shuffle st) = students st
   ∧ seatMap (stopRoulette shuffle st) = seatMap st)
  ∨ ∃ sel seat,
      seat ∈ seatMap st
      ∧ freeOrOwn (Student.id sel) seat
      ∧ students (stopRoulette shuffle st)
        = assignInStudents (students st) (Student.id sel) (Seat.seatId seat)
      ∧ seatMap (stopRoulette shuffle st)
        = assignInSeatMap (seatMap st) (Seat.seatId seat) (Student.id sel).
Proof.
  intros Hperm. unfold stopRoulette.
  destruct (Roulette.isRunning (rouletteState st)); cbn [negb]; [|by left].
  destruct (selectedStudentForAssignment st) as [sel|]; [|by left].
  pose proof (resolveFixedOrManual_safe sel st
                (setLocalErrorMessage None st)) as Hsafe12.
  destruct (resolveFixedOrManual_state sel st
              (setLocalErrorMessage None st)) as [f Hf].
  destruct (resolveFixedOrManual sel st (setLocalErrorMessage None st))
    as [chosen12 st1].
  cbn [fst snd] in *. subst st1.
  assert (∀ seatId,
            resolveHighlighted sel st chosen12 = Some seatId →
            ∃ seat, seat ∈ seatMap st ∧ Seat.seatId seat = seatId
                    ∧ freeOrOwn (Student.id sel) seat) as Hsafe3.
  { destruct chosen12 as [x|].
    - intros seatId [= <-]. by apply Hsafe12.
    - apply resolveHighlighted_safe. }
  destruct (resolveHighlighted sel st chosen12) as [seatId|].
  { destruct (Hsafe3 seatId eq_refl) as (seat & Hin & <- & Hfree).
    right. by exists sel, seat. }
  destruct (fallbackLoop sel st _ _ _) as [seatId|] eqn:Hloop; [|by left].
  rewrite (fallbackLoop_truthy _ _ _ _ _ _ Hloop).
  apply fallbackLoop_elem in Hloop as (seat & Hin & <-).
  rewrite Hperm in Hin.
  apply (available_freeOrOwn _ (Student.id sel)) in Hin as [Hin Hfree].
  right. by exists sel, seat.
Qed.

Lemma stopRoulette_consistent (shuffle : list Seat.t → list Seat.t)
    (st : State) :
  shuffle (availableSeats st) ≡ₚ availableSeats st →
  Consistent st → Consistent (stopRoulette shuffle st).
Proof.
  intros Hperm Hcons. unfold Consistent in *.
  destruct (stopRoulette_outcome shuffle st Hperm)
    as [[-> ->]|(sel & seat & Hin & Hfree & -> & ->)]; [done|].
  apply assign_consistent; [done|].
  intros s Hs Hheld. by eapply freeOrOwn_holder.
Qed.

(** ** The shuffle *)

Lemma swap_perm {A} (a : list A) (i j : nat) : swap a i j ≡ₚ a.
Proof.
  unfold swap.
  destruct (a !! i) as [x|] eqn:Hi; [|done].
  destruct (a !! j) as [y|] eqn:Hj; [|done].
  by apply Permutation_insert_swap.
Qed.

Lemma shuffleFrom_perm {A} (rnd : nat → nat) (i : nat) (a : list A) :
  shuffleFrom rnd i a ≡ₚ a.
Proof.
  revert a. induction i as [|i IH]; intros a; [done|].
  cbn [shuffleFrom]. by rewrite IH, swap_perm.
Qed.

Lemma fisherYates_perm {A} (rnd : nat → nat) (a : list A) :
  fisherYates rnd a ≡ₚ a.
Proof. apply shuffleFrom_perm. Qed.

(** ** Reset and batch assignment keep the invariant *)

Section InvariantPreservation.

Variable sortByNumber : list Student.t → list Student.t.

Lemma handleResetRoulette_consistent (confirmed : bool) (st : State) :
  Consistent st → Consistent (handleResetRoulette sortByNumber confirmed st).
Proof.
  intros Hcons. destruct confirmed; [|done].
  destruct Hcons as ([Hnodup Hne] & _).
  unfold Consistent. cbn.
  assert (∀ s, s ∈ clearStudent <$> students st →
               Student.assignedSeatId s = None) as Hclear.
  { by intros s' (s & -> & _)%list_elem_of_fmap. }
  split; [split|split; [|split]].
  - by rewrite <-list_fmap_compose.
  - intros s' (s & -> & Hs)%list_elem_of_fmap. exact (Hne s Hs).
  - by intros s' (s & -> & Hs)%list_elem_of_fmap.
  - intros i j s1 s2 seatId H1 _ Hheld.
    apply list_elem_of_lookup_2, Hclear in H1. congruence.
  - intros s seat Hs _ Hheld. apply Hclear in Hs. congruence.
Qed.

Lemma assignFixed_consistent (acc : BulkTemp * list FixedError)
    (fixedAssignment : FixedSeat.t) :
  tempConsistent acc.1 → tempConsistent (assignFixed acc fixedAssignment).1.
Proof.
  destruct acc as [tmp errors]. cbn [fst]. intros Hcons.
  unfold assignFixed.
  destruct (findStudent (tempStudents tmp)
              (FixedSeat.studentId fixedAssignment)) as [student|],
    (findSeat (tempSeatMap tmp) (FixedSeat.seatId fixedAssignment))
      as [fixedSeat|] eqn:Hseat; try done.
  apply findSeat_Some in Hseat as [Hin _].
  destruct (Seat.isUsable fixedSeat); cbn [negb]; [|done].
  destruct (truthy (Seat.assignedStudentId fixedSeat)
            && negb (bool_decide (Seat.assignedStudentId fixedSeat
                                  = Some (Student.id student)))) eqn:Htaken;
    [done|].
  destruct (bool_decide (Student.id student ∈ _)); [done|].
  destruct (bool_decide (Seat.seatId fixedSeat ∈ _)); [done|].
  cbn [fst]. unfold tempConsistent, commitInTemp. cbn.
  apply assign_consistent; [done|].
  intros s Hs Hheld.
  apply (freeOrOwn_holder _ _ _ fixedSeat s Hcons); try done.
  apply andb_false_iff in Htaken as [Hfree|Hown]; [by left|right].
  by apply negb_false_iff, bool_decide_eq_true in Hown.
Qed.

Lemma phase1_consistent (fixedSeatAssignments : list FixedSeat.t)
    (acc : BulkTemp * list FixedError) :
  tempConsistent acc.1 →
  tempConsistent (fold_left assignFixed fixedSeatAssignments acc).1.
Proof.
  revert acc. induction fixedSeatAssignments as [|fa rest IH];
    intros acc Hcons; [done|].
  cbn [fold_left]. by apply IH, assignFixed_consistent.
Qed.

(** A seat the inner loop accepts is one of the listed seats, and its id
    has not been used in this call. *)
Lemma findSeatLoop_Some (student : Student.t) (tmp : BulkTemp)
    (relations : list Relation.t) (maxAttempts : nat) (rest : list Seat.t)
    (currentSeatIndex attempts k : nat) (seat : Seat.t) :
  findSeatLoop student tmp relations maxAttempts rest currentSeatIndex
    attempts = Some (k, seat) →
  seat ∈ rest ∧ Seat.seatId seat ∉ assignedSeatIdsInTemp tmp.
Proof.
  revert currentSeatIndex attempts.
  induction rest as [|potentialSeat rest IH];
    intros currentSeatIndex attempts; [done|].
  cbn [findSeatLoop].
  assert (findSeatLoop student tmp relations maxAttempts rest
            (S currentSeatIndex) (S attempts) = Some (k, seat) →
          seat ∈ potentialSeat :: rest
          ∧ Seat.seatId seat ∉ assignedSeatIdsInTemp tmp) as Hnext.
  { intros [Hin Hfresh]%IH. split; [by right|done]. }
  case_bool_decide; [|done].
  destruct (negb (truthy _)); [done|].
  case_bool_decide as Hused; [done|].
  destruct (checkRelationConstraints _ _ _ _ _); [|done].
  intros [= <- <-]. split; [by left|done].
Qed.

Lemma placeStudent_invariant (relations : list Relation.t)
    (acc : BulkTemp * list Seat.t * State) (student : Student.t) :
  tempConsistent acc.1.1 ∧ remainingFree acc.1.1 acc.1.2 →
  tempConsistent (placeStudent relations acc student).1.1
  ∧ remainingFree (placeStudent relations acc student).1.1
      (placeStudent relations acc student).1.2.
Proof.
  destruct acc as [[tmp remaining] st]. cbn [fst snd].
  intros [Hcons Hfree]. unfold placeStudent.
  case_bool_decide; [done|].
  destruct (findSeatLoop _ _ _ _ _ _ _) as [[k seat]|] eqn:Hloop; [|done].
  apply findSeatLoop_Some in Hloop as [Hin Hfresh].
  cbn [fst snd]. split.
  - unfold tempConsistent, commitInTemp. cbn.
    apply assign_consistent; [done|].
    intros s Hs Hheld. by destruct (Hfree seat s).
  - intros seat' s' Hin' Hfresh'.
    apply list_elem_of_delete_inv in Hin'.
    unfold commitInTemp in *. cbn in *.
    apply not_elem_of_union in Hfresh' as [Hne%not_elem_of_singleton Hfresh'].
    intros (s & -> & Hs)%list_elem_of_fmap.
    unfold assignStudent. case_bool_decide; cbn; [congruence|].
    by apply Hfree.
Qed.

Lemma phase2_invariant (relations : list Relation.t)
    (remainingUnassignedStudents : list Student.t)
    (acc : BulkTemp * list Seat.t * State) :
  tempConsistent acc.1.1 ∧ remainingFree acc.1.1 acc.1.2 →
  tempConsistent
    (fold_left (placeStudent relations) remainingUnassignedStudents acc).1.1.
Proof.
  revert acc. induction remainingUnassignedStudents as [|student rest IH];
    intros acc Hinv; [by destruct Hinv|].
  cbn [fold_left]. by apply IH, placeStudent_invariant.
Qed.

Lemma handleBulkAssign_consistent (confirmed : bool)
    (rndStudents rndSeats : nat → nat) (st : State) :
  Consistent st →
  Consistent
    (handleBulkAssign sortByNumber confirmed rndStudents rndSeats st).
Proof.
  intros Hcons. unfold handleBulkAssign.
  do 3 (case_bool_decide; [done|]).
  destruct confirmed; cbn [negb]; [|done].
  pose proof (phase1_consistent (fixedSeatAssignments st)
    (mkBulkTemp (seatMap st) (students st)
       (Roulette.winningHistory (rouletteState st)) ∅ ∅, []) Hcons) as Hphase1.
  destruct (fold_left assignFixed _ _) as [tmp1 errors]. cbn [fst] in Hphase1.
  match goal with
  | |- context [fold_left (placeStudent ?rels) ?l ?acc] =>
      pose proof (phase2_invariant rels l acc) as Hphase2
  end.
  destruct (fold_left (placeStudent _) _ _) as [[tmp2 remaining] st2].
  cbn [fst snd] in Hphase2. unfold Consistent. cbn. apply Hphase2.
  split; [done|].
  intros seat s Hin _ Hs. rewrite fisherYates_perm in Hin.
  apply elem_of_availableSeatsOf in Hin as [Hin Havail].
  eapply free_not_held; eauto.
  unfold isAvailable in Havail.
  apply andb_true_iff in Havail as [_ Hfree]. by apply negb_true_iff.
Qed.

End InvariantPreservation.

Section Invariant.

Variable sortByNumber : list Student.t → list Student.t.

(** C4.  Each engine operation keeps the invariant: from a state in which
    every student's [isAssigned] flag is set exactly when a seat id is
    recorded, no two students hold the same seat id, and the seat records
    name the holders (students being identified by unique, non-empty
    ids), a draw, a batch assignment and a reset each lead to a state in
    which all of this holds again. *)
Theorem engine_operations_preserve_invariant
    (shuffle : list Seat.t → list Seat.t) (confirmedBulk confirmedReset : bool)
    (rndStudents rndSeats : nat → nat) (st : State) :
  Consistent st →
  shuffle (availableSeats st) ≡ₚ availableSeats st →
  Consistent (stopRoulette shuffle st)
  ∧ Consistent
      (handleBulkAssign sortByNumber confirmedBulk rndStudents rndSeats st)
  ∧ Consistent (handleResetRoulette sortByNumber confirmedReset st).
Proof.
  intros Hcons Hperm. split; [|split].
  - by apply stopRoulette_consistent.
  - by apply handleBulkAssign_consistent.
  - by apply handleResetRoulette_consistent.
Qed.

Lemma unassigned_consistent (students : list Student.t)
    (seatMap : list Seat.t) :
  idsWellFormed students →
  Forall (λ s, Student.isAssigned s = false
               ∧ Student.assignedSeatId s = None) students →
  consistent students seatMap.
Proof.
  intros Hids Hnone. rewrite Forall_forall in Hnone.
  split; [done|split; [|split]].
  - intros s [-> ->]%Hnone. by split.
  - intros i j s1 s2 seatId H1%list_elem_of_lookup_2 _ Hheld.
    apply Hnone in H1 as [_ H1]. congruence.
  - intros s seat [_ Hs]%Hnone _ Hheld. congruence.
Qed.

Lemma reachable_Consistent (st : State) :
  reachable sortByNumber st → Consistent st.
Proof.
  induction 1 as [st Hids Hnone|shuffle st _ IH Hperm|? ? ? st _ IH
                 |? st _ IH|st st' _ IH Hstudents Hseats].
  - by apply unassigned_consistent.
  - by apply stopRoulette_consistent.
  - by apply handleBulkAssign_consistent.
  - by apply handleResetRoulette_consistent.
  - unfold Consistent. by rewrite Hstudents, Hseats.
Qed.

(** In every reachable state the flags agree with the recorded seats and
    no seat is held twice. *)
Theorem reachable_invariant (st : State) :
  reachable sortByNumber st →
  flagsAgree (students st) ∧ seatsExclusive (students st).
Proof. intros (_ & Hflags & Hexcl & _)%reachable_Consistent. done. Qed.

End Invariant.

Lemma manualRejectedState_Consistent : Consistent manualRejectedState.
Proof.
  split; [split|split; [|split]].
  - apply (bool_decide_unpack _). by vm_compute.
  - intros s Hs. cbn in Hs.
    repeat (apply elem_of_cons in Hs as [->|Hs]); try done.
    by apply elem_of_nil in Hs.
  - intros s Hs. cbn in Hs.
    repeat (apply elem_of_cons in Hs as [->|Hs]); try done.
    by apply elem_of_nil in Hs.
  - intros [|[|i]] [|[|j]] s1 s2 seatId H1 H2; cbn in *; by simplify_eq.
  - intros s seat Hs Hseat. cbn in Hs, Hseat.
    repeat (apply elem_of_cons in Hs as [->|Hs]);
      repeat (apply elem_of_cons in Hseat as [->|Hseat]);
      try (by apply elem_of_nil in Hs); try (by apply elem_of_nil in Hseat);
      by vm_compute.
Qed.

(** What the invariant leaves open: a draw for a student who is seated
    already moves the student record to the new seat and leaves the old
    seat record behind, so two seat records can name one student. *)
Example stopRoulette_redraw_leaves_seat_record :
  students (stopRoulette (λ l, l) redrawState)
  = [sampleStudent "S2" "Ben" (Some "R1C2")]
  ∧ seatMap (stopRoulette (λ l, l) redrawState)
    = [seatAt 1 1 (Some "S2") true; seatAt 1 2 (Some "S2") true].
Proof. by vm_compute. Qed.

(** * Further properties *)

(** ** The checker as a conjunction over relations *)

Lemma checkRelationsLoop_app (studentId : string)
    (adjacentSeats : list string) (allStudents : list Student.t)
    (rels1 rels2 : list Relation.t) :
  checkRelationsLoop studentId adjacentSeats allStudents (rels1 ++ rels2)
  = checkRelationsLoop studentId adjacentSeats allStudents rels1
    && checkRelationsLoop studentId adjacentSeats allStudents rels2.
Proof.
  apply eq_true_iff_eq.
  rewrite andb_true_iff, !checkRelationsLoop_true.
  setoid_rewrite elem_of_app. split.
  - intros Hall. split; intros rel Hin; apply Hall; [by left|by right].
  - intros [H1 H2] rel [Hin|Hin]; [by apply H1|by apply H2].
Qed.

(** X1. The answer for a list of relations is the conjunction of the answers
    for its parts, and the order of the relations does not matter. *)
Theorem checkRelationConstraints_conjunction
    (targetSeatId : string) (student : Student.t)
    (currentSeatMap : list Seat.t) (allStudents : list Student.t)
    (rels1 rels2 : list Relation.t) :
  checkRelationConstraints targetSeatId (Some student) currentSeatMap
    allStudents (rels1 ++ rels2)
  = checkRelationConstraints targetSeatId (Some student) currentSeatMap
      allStudents rels1
    && checkRelationConstraints targetSeatId (Some student) currentSeatMap
         allStudents rels2
  ∧ (rels1 ≡ₚ rels2 →
     checkRelationConstraints targetSeatId (Some student) currentSeatMap
       allStudents rels1
     = checkRelationConstraints targetSeatId (Some student) currentSeatMap
         allStudents rels2).
Proof.
  cbn [checkRelationConstraints]. split; [apply checkRelationsLoop_app|].
  intros Hperm. apply eq_true_iff_eq. rewrite !checkRelationsLoop_true.
  by setoid_rewrite Hperm.
Qed.

(** ** The checker reads the seat map for its seat ids only *)

Lemma someSeatWithId_ids (seatMap1 seatMap2 : list Seat.t) (adjId : string) :
  Seat.seatId <$> seatMap1 = Seat.seatId <$> seatMap2 →
  someSeatWithId seatMap1 adjId = someSeatWithId seatMap2 adjId.
Proof.
  intros Hids. apply eq_true_iff_eq. rewrite !someSeatWithId_true.
  assert (∀ m : list Seat.t,
            (∃ seat, seat ∈ m ∧ Seat.seatId seat = adjId)
            ↔ adjId ∈ Seat.seatId <$> m) as Hfmap.
  { intros m. rewrite list_elem_of_fmap. split.
    - intros (seat & Hin & <-). by exists seat.
    - intros (seat & -> & Hin). by exists seat. }
  by rewrite !Hfmap, Hids.
Qed.

Lemma getAdjacentSeatIds_ids (seatId : string)
    (seatMap1 seatMap2 : list Seat.t) :
  Seat.seatId <$> seatMap1 = Seat.seatId <$> seatMap2 →
  getAdjacentSeatIds seatId seatMap1 = getAdjacentSeatIds seatId seatMap2.
Proof.
  intros Hids. unfold getAdjacentSeatIds.
  destruct (matchSeatId seatId) as [[m1 m2]|]; [|done].
  rewrite !fold_left_push_filter. f_equal.
  apply List.filter_ext. intros adjId.
  by rewrite (someSeatWithId_ids _ _ _ Hids).
Qed.

(** X2. Two seat maps with the same seat ids in the same order (whatever
    their assignments and usability flags) give the same neighbours and the
    same answer of the checker. *)
Theorem checkRelationConstraints_seat_ids
    (targetSeatId : string) (student : option Student.t)
    (seatMap1 seatMap2 : list Seat.t) (allStudents : list Student.t)
    (relations : list Relation.t) :
  Seat.seatId <$> seatMap1 = Seat.seatId <$> seatMap2 →
  getAdjacentSeatIds targetSeatId seatMap1
  = getAdjacentSeatIds targetSeatId seatMap2
  ∧ checkRelationConstraints targetSeatId student seatMap1 allStudents
      relations
    = checkRelationConstraints targetSeatId student seatMap2 allStudents
        relations.
Proof.
  intros Hids. split; [by apply getAdjacentSeatIds_ids|].
  destruct student as [s|]; [|done]. cbn [checkRelationConstraints].
  by rewrite (getAdjacentSeatIds_ids _ _ _ Hids).
Qed.

(** ** Contradictory relations *)

(** X3. When the relations bind a student to an already seated partner both
    by [co_seat] and by [no_co_seat], no seat is admissible for the student. *)
Theorem checkRelationConstraints_contradictory
    (targetSeatId : string) (student : Student.t)
    (currentSeatMap : list Seat.t) (allStudents : list Student.t)
    (relations : list Relation.t) (together apart : Relation.t)
    (partnerSeatId : string) :
  together ∈ relations → apart ∈ relations →
  Relation.type together = Relation.co_seat →
  Relation.type apart = Relation.no_co_seat →
  involves together (Student.id student) →
  involves apart (Student.id student) →
  partnerIdOf together (Student.id student)
  = partnerIdOf apart (Student.id student) →
  seatedAt allStudents (partnerIdOf together (Student.id student))
    partnerSeatId →
  checkRelationConstraints targetSeatId (Some student) currentSeatMap
    allStudents relations = false.
Proof.
  intros Hin1 Hin2 Hco Hno Hinv1 Hinv2 Hpartner Hseated.
  apply not_true_is_false. cbn [checkRelationConstraints].
  rewrite checkRelationsLoop_true. intros Hall.
  pose proof (Hall together Hin1 Hinv1 partnerSeatId Hseated) as H1.
  rewrite Hpartner in Hseated.
  pose proof (Hall apart Hin2 Hinv2 partnerSeatId Hseated) as H2.
  rewrite Hco in H1. rewrite Hno in H2. by cbn in *.
Qed.

(** ** What a draw commits *)

Lemma available_drawable (sel : Student.t) (st : State) (seat : Seat.t) :
  seat ∈ availableSeats st → admissibleFor sel st seat →
  drawable sel st seat.
Proof.
  intros Hin Hok.
  pose proof Hin as [Hmap Havail]%elem_of_availableSeatsOf.
  pose proof Havail as [Husable _]%andb_true_iff.
  apply (available_freeOrOwn _ (Student.id sel)) in Hin as [_ Hfree].
  by do 3 (split; [done|]).
Qed.

Lemma resolveFixedOrManual_drawable (sel : Student.t) (st cur : State)
    (seatId : string) :
  (resolveFixedOrManual sel st cur).1 = Some seatId →
  ∃ seat, Seat.seatId seat = seatId ∧ drawable sel st seat.
Proof.
  unfold resolveFixedOrManual.
  destruct (List.find _ (fixedSeatAssignments st)) as [fixed|] eqn:Hfixed.
  - destruct (findSeat (seatMap st) (FixedSeat.seatId fixed))
      as [seat|] eqn:Hseat; [|done].
    apply findSeat_Some in Hseat as [Hin Hid].
    destruct (Seat.isUsable seat) eqn:Husable; cbn [negb]; [|done].
    assert (freeOrOwn (Student.id sel) seat → drawable sel st seat) as Hdraw.
    { intros Hfree. do 3 (split; [done|]).
      unfold noFixedSeatFor. intros Hnone. congruence. }
    destruct (truthy (Seat.assignedStudentId seat)) eqn:Htruthy;
      cbn [andb].
    + case_bool_decide as Hown; cbn [negb]; [|done].
      intros [= <-]. exists seat. split; [done|]. apply Hdraw. by right.
    + intros [= <-]. exists seat. split; [done|]. apply Hdraw. by left.
  - destruct (manuallySelectedSeatIdForRoulette st) as [manual|]; [|done].
    destruct (truthy (Some manual)); [|done].
    destruct (findSeat (availableSeats st) manual) as [seat|] eqn:Hseat;
      [|done].
    apply findSeat_Some in Hseat as [Hin Hid].
    destruct (checkRelationConstraints _ _ _ _ _) eqn:Hok; [|done].
    intros [= <-]. exists seat. split; [done|].
    apply available_drawable; [done|]. unfold admissibleFor. by rewrite Hid.
Qed.

Lemma resolveHighlighted_drawable (sel : Student.t) (st : State)
    (seatId : string) :
  resolveHighlighted sel st None = Some seatId →
  ∃ seat, Seat.seatId seat = seatId ∧ drawable sel st seat.
Proof.
  unfold resolveHighlighted.
  destruct (Roulette.currentSelectedSeatId (rouletteState st))
    as [highlighted|]; [|done].
  destruct (truthy (Some highlighted)); [|done].
  destruct (findSeat (availableSeats st) highlighted) as [seat|] eqn:Hseat;
    [|done].
  apply findSeat_Some in Hseat as [Hin Hid].
  destruct (checkRelationConstraints _ _ _ _ _) eqn:Hok; [|done].
  intros [= <-]. exists seat. split; [done|].
  apply available_drawable; [done|]. unfold admissibleFor. by rewrite Hid.
Qed.

Lemma fallbackLoop_eligible (sel : Student.t) (st : State)
    (shuffled : list Seat.t) (remaining attempts : nat) (seatId : string) :
  fallbackLoop sel st shuffled remaining attempts = Some seatId →
  ∃ seat, seat ∈ shuffled ∧ Seat.seatId seat = seatId
          ∧ eligible sel st seat = true.
Proof.
  revert attempts. induction remaining as [|remaining IH];
    intros attempts; [done|].
  rewrite fallbackLoop_step.
  destruct (shuffled !! _) as [seat|] eqn:Hseat; [|by apply IH].
  destruct (eligible sel st seat) eqn:Hok; [|by apply IH].
  intros [= <-]. exists seat. split; [|done].
  by eapply list_elem_of_lookup_2.
Qed.

(** The two ways a draw ends. *)
Lemma stopRoulette_cases (shuffle : list Seat.t → list Seat.t) (st : State) :
  Roulette.isRunning (rouletteState st) = true →
  (∃ f message,
     stopRoulette shuffle st
     = abandonDraw message (updateLocalErrorMessage f st))
  ∨ (∃ f sel seatId,
       selectedStudentForAssignment st = Some sel
       ∧ stopRoulette shuffle st
         = commitDraw sel seatId st (updateLocalErrorMessage f st)
       ∧ (shuffle (availableSeats st) ≡ₚ availableSeats st →
          ∃ seat, Seat.seatId seat = seatId ∧ drawable sel st seat)).
Proof.
  intros Hrun. unfold stopRoulette. rewrite Hrun. cbn [negb].
  destruct (selectedStudentForAssignment st) as [sel|];
    [|left; by exists (λ _, None), NoStudentSelected].
  pose proof (resolveFixedOrManual_drawable sel st
                (setLocalErrorMessage None st)) as Hsafe12.
  destruct (resolveFixedOrManual_state sel st
              (setLocalErrorMessage None st)) as [f Hf].
  destruct (resolveFixedOrManual sel st (setLocalErrorMessage None st))
    as [chosen12 st1].
  cbn [fst snd] in *. subst st1.
  assert (∀ seatId,
            resolveHighlighted sel st chosen12 = Some seatId →
            ∃ seat, Seat.seatId seat = seatId ∧ drawable sel st seat)
    as Hsafe3.
  { destruct chosen12 as [x|].
    - intros seatId [= <-]. by apply Hsafe12.
    - apply resolveHighlighted_drawable. }
  destruct (resolveHighlighted sel st chosen12) as [seatId|].
  { right. exists (λ _, f None), sel, seatId. repeat split.
    intros _. by apply Hsafe3. }
  destruct (fallbackLoop sel st _ _ _) as [seatId|] eqn:Hloop;
    [|left; by exists (λ _, f None), NoAdmissibleSeatFound].
  rewrite (fallbackLoop_truthy _ _ _ _ _ _ Hloop).
  right. exists (λ _, f None), sel, seatId. repeat split.
  intros Hperm.
  apply fallbackLoop_eligible in Hloop as (seat & Hin & <- & Hok).
  exists seat. split; [done|]. rewrite Hperm in Hin.
  apply available_drawable; [done|].
  unfold eligible in Hok. by apply andb_true_iff in Hok as [_ Hok].
Qed.


(** X5. A pair a draw appends to the history is legitimate: the student is
    the selected one, the seat is a usable seat of the map that was free or
    the student's own, and, unless a fixed assignment names the student, it
    was available and passes the constraint checker. *)
Theorem stopRoulette_commits_drawable (shuffle : list Seat.t → list Seat.t)
    (st : State) (studentId seatId : string) :
  Roulette.isRunning (rouletteState st) = true →
  shuffle (availableSeats st) ≡ₚ availableSeats st →
  Roulette.winningHistory (rouletteState (stopRoulette shuffle st))
  = Roulette.winningHistory (rouletteState st)
    ++ [Winning.mk studentId seatId] →
  ∃ sel seat,
    selectedStudentForAssignment st = Some sel
    ∧ Student.id sel = studentId
    ∧ Seat.seatId seat = seatId
    ∧ drawable sel st seat
    ∧ committed studentId seatId st (stopRoulette shuffle st).
Proof.
  intros Hrun Hperm.
  destruct (stopRoulette_cases shuffle st Hrun)
    as [(f & message & ->)|(f & sel & x & Hsel & -> & Hseat)].
  - cbn. intros Hhist. apply (f_equal length) in Hhist.
    rewrite length_app in Hhist. cbn in Hhist. lia.
  - cbn. intros [= <- <-]%app_inv_head.
    destruct (Hseat Hperm) as (seat & Hid & Hdraw).
    exists sel, seat. do 4 (split; [done|]). by repeat split.
Qed.

(** ** The order of resolution, and when a draw fails *)


(** What the loop passed over was not eligible. *)
Lemma fallbackLoop_none_inv (sel : Student.t) (st : State)
    (shuffled : list Seat.t) (remaining attempts : nat) :
  fallbackLoop sel st shuffled remaining attempts = None →
  ∀ k seat, (attempts ≤ k < attempts + remaining)%nat →
    shuffled !! (k mod length shuffled)%nat = Some seat →
    eligible sel st seat = false.
Proof.
  revert attempts. induction remaining as [|remaining IH];
    intros attempts Hloop k seat Hk Hseat; [lia|].
  rewrite fallbackLoop_step in Hloop.
  destruct (decide (k = attempts)) as [->|Hne].
  - rewrite Hseat in Hloop. by destruct (eligible sel st seat).
  - apply (IH (S attempts)) with (k := k); [|lia|done].
    destruct (shuffled !! (attempts mod _)%nat) as [seat'|]; [|done].
    by destruct (eligible sel st seat').
Qed.

Lemma stopRoulette_history_kept (shuffle : list Seat.t → list Seat.t)
    (st : State) (sel : Student.t) :
  Roulette.isRunning (rouletteState st) = true →
  selectedStudentForAssignment st = Some sel →
  Roulette.winningHistory (rouletteState (stopRoulette shuffle st))
  = Roulette.winningHistory (rouletteState st) →
  fallbackLoop sel st (shuffle (availableSeats st)) maxAttempts 0 = None.
Proof.
  intros Hrun Hsel. unfold stopRoulette. rewrite Hrun, Hsel. cbn [negb].
  destruct (resolveFixedOrManual_state sel st
              (setLocalErrorMessage None st)) as [f Hf].
  destruct (resolveFixedOrManual sel st (setLocalErrorMessage None st))
    as [chosen st1].
  cbn [snd] in Hf. subst st1.
  assert (∀ x g,
            Roulette.winningHistory
              (rouletteState
                 (commitDraw sel x st (updateLocalErrorMessage g st)))
            ≠ Roulette.winningHistory (rouletteState st)) as Hgrows.
  { intros x g Hhist. cbn in Hhist. apply (f_equal length) in Hhist.
    rewrite length_app in Hhist. cbn in Hhist. lia. }
  destruct (resolveHighlighted sel st chosen) as [x|];
    [intros Hhist; by destruct (Hgrows x (λ _, f None))|].
  destruct (fallbackLoop sel st _ _ _) as [x|] eqn:Hloop; [|done].
  rewrite (fallbackLoop_truthy _ _ _ _ _ _ Hloop).
  intros Hhist. by destruct (Hgrows x (λ _, f None)).
Qed.

(** X7. On a seat map with at most 100 available seats the bounded fallback
    search misses nothing: a draw for a student without a fixed seat commits
    nothing exactly when no available seat is admissible. *)
Theorem stopRoulette_fails_iff_none_admissible
    (shuffle : list Seat.t → list Seat.t) (st : State) (sel : Student.t) :
  Roulette.isRunning (rouletteState st) = true →
  selectedStudentForAssignment st = Some sel →
  noFixedSeatFor sel st →
  shuffle (availableSeats st) ≡ₚ availableSeats st →
  (∀ seat, seat ∈ seatMap st → Seat.seatId seat ≠ "") →
  (length (availableSeats st) ≤ 100)%nat →
  Roulette.winningHistory (rouletteState (stopRoulette shuffle st))
  = Roulette.winningHistory (rouletteState st)
  ↔ ∀ seat, seat ∈ availableSeats st → ¬ admissibleFor sel st seat.
Proof.
  intros Hrun Hsel Hfixed Hperm Hids Hlen. split.
  - intros Hhist seat Hin Hok.
    pose proof (stopRoulette_history_kept shuffle st sel Hrun Hsel Hhist)
      as Hloop.
    rewrite <-Hperm in Hin.
    apply list_elem_of_lookup_1 in Hin as [i Hi].
    pose proof (lookup_lt_Some _ _ _ Hi) as Hilen.
    rewrite Hperm in Hilen.
    assert (eligible sel st seat = false) as Hel.
    { apply (fallbackLoop_none_inv _ _ _ _ _ Hloop i);
        [unfold maxAttempts; lia|].
      rewrite Nat.mod_small; [done|]. by rewrite Hperm. }
    rewrite <-not_true_iff_false, eligible_admissible in Hel; [done|].
    apply Hids. apply list_elem_of_lookup_2 in Hi. rewrite Hperm in Hi.
    by apply elem_of_availableSeatsOf in Hi as [].
  - intros Hnone.
    destruct (stopRoulette_cases shuffle st Hrun)
      as [(f & message & ->)|(f & sel' & x & Hsel' & -> & Hseat)];
      [done|].
    destruct (Hseat Hperm) as (seat & Hid & Hin & _ & _ & Hadm).
    assert (sel' = sel) as -> by congruence.
    destruct (Hadm Hfixed) as [Havail Hok].
    destruct (Hnone seat); [|done].
    by apply elem_of_availableSeatsOf.
Qed.

(** ** Draw and batch only add assignments *)

Lemma sameSeat_refl (seatMap : list Seat.t) : Forall2 sameSeat seatMap seatMap.
Proof.
  apply Forall2_same_length_lookup. split; [done|].
  by intros i a b -> [= ->].
Qed.

Lemma stillAssigned_refl (students : list Student.t) :
  Forall2 stillAssigned students students.
Proof.
  apply Forall2_same_length_lookup. split; [done|].
  intros i a b -> [= ->]. by repeat split.
Qed.

Lemma sameSeat_assign (seatMap0 seatMap : list Seat.t)
    (chosen studentId : string) :
  Forall2 sameSeat seatMap0 seatMap →
  Forall2 sameSeat seatMap0 (assignInSeatMap seatMap chosen studentId).
Proof.
  intros H. apply Forall2_fmap_r. eapply Forall2_impl; [done|].
  intros a b Hab. unfold compose, assignSeat.
  by destruct (bool_decide _).
Qed.

Lemma stillAssigned_assign (students0 students : list Student.t)
    (studentId chosen : string) :
  Forall2 stillAssigned students0 students →
  Forall2 stillAssigned students0
    (assignInStudents students studentId chosen).
Proof.
  intros H. apply Forall2_fmap_r. eapply Forall2_impl; [done|].
  intros a b Hab. unfold compose, assignStudent.
  destruct (bool_decide _); [|done].
  destruct Hab as (? & ? & ? & ? & ? & ? & ? & _). by repeat split.
Qed.

Lemma tempExtends_refl (tmp : BulkTemp) : tempExtends tmp tmp.
Proof.
  split; [apply sameSeat_refl|]. split; [apply stillAssigned_refl|].
  exists []. by rewrite app_nil_r.
Qed.

Lemma tempExtends_commit (tmp0 tmp : BulkTemp) (studentId seatId : string) :
  tempExtends tmp0 tmp →
  tempExtends tmp0 (commitInTemp tmp studentId seatId).
Proof.
  intros (Hseats & Hstudents & added & Hhist).
  split; [by apply sameSeat_assign|]. split; [by apply stillAssigned_assign|].
  exists (added ++ [Winning.mk studentId seatId]). cbn.
  by rewrite Hhist, app_assoc.
Qed.

Lemma assignFixed_extends (tmp0 : BulkTemp)
    (acc : BulkTemp * list FixedError) (fixedAssignment : FixedSeat.t) :
  tempExtends tmp0 acc.1 →
  tempExtends tmp0 (assignFixed acc fixedAssignment).1.
Proof.
  destruct acc as [tmp errors]. cbn [fst]. intros Hext.
  unfold assignFixed.
  destruct (findStudent (tempStudents tmp)
              (FixedSeat.studentId fixedAssignment)) as [student|],
    (findSeat (tempSeatMap tmp) (FixedSeat.seatId fixedAssignment))
      as [fixedSeat|]; try done.
  destruct (negb (Seat.isUsable fixedSeat)); [done|].
  destruct (truthy _ && negb _); [done|].
  destruct (bool_decide (Student.id student ∈ _)); [done|].
  destruct (bool_decide (Seat.seatId fixedSeat ∈ _)); [done|].
  by apply tempExtends_commit.
Qed.

Lemma phase1_extends (tmp0 : BulkTemp)
    (fixedSeatAssignments : list FixedSeat.t)
    (acc : BulkTemp * list FixedError) :
  tempExtends tmp0 acc.1 →
  tempExtends tmp0 (fold_left assignFixed fixedSeatAssignments acc).1.
Proof.
  revert acc. induction fixedSeatAssignments as [|fa rest IH];
    intros acc Hext; [done|].
  cbn [fold_left]. by apply IH, assignFixed_extends.
Qed.

Lemma placeStudent_extends (tmp0 : BulkTemp) (relations : list Relation.t)
    (acc : BulkTemp * list Seat.t * State) (student : Student.t) :
  tempExtends tmp0 acc.1.1 →
  tempExtends tmp0 (placeStudent relations acc student).1.1.
Proof.
  destruct acc as [[tmp remaining] st]. cbn [fst]. intros Hext.
  unfold placeStudent.
  destruct (bool_decide (Student.id student ∈ _)); [done|].
  destruct (findSeatLoop _ _ _ _ _ _ _) as [[k seat]|]; [|done].
  by apply tempExtends_commit.
Qed.

Lemma phase2_extends (tmp0 : BulkTemp) (relations : list Relation.t)
    (remainingUnassignedStudents : list Student.t)
    (acc : BulkTemp * list Seat.t * State) :
  tempExtends tmp0 acc.1.1 →
  tempExtends tmp0
    (fold_left (placeStudent relations) remainingUnassignedStudents acc).1.1.
Proof.
  revert acc. induction remainingUnassignedStudents as [|student rest IH];
    intros acc Hext; [done|].
  cbn [fold_left]. by apply IH, placeStudent_extends.
Qed.

Lemma placeStudent_state (relations : list Relation.t)
    (acc : BulkTemp * list Seat.t * State) (student : Student.t) :
  ∃ f, (placeStudent relations acc student).2
       = updateLocalErrorMessage f acc.2.
Proof.
  destruct acc as [[tmp remaining] st]. cbn [snd].
  assert (st = updateLocalErrorMessage (λ m, m) st) as Hid by by destruct st.
  unfold placeStudent.
  destruct (bool_decide (Student.id student ∈ _)); [by eauto|].
  destruct (findSeatLoop _ _ _ _ _ _ _) as [[k seat]|]; by eauto.
Qed.

Lemma phase2_state (relations : list Relation.t)
    (remainingUnassignedStudents : list Student.t)
    (acc : BulkTemp * list Seat.t * State) :
  ∃ f, (fold_left (placeStudent relations) remainingUnassignedStudents acc).2
       = updateLocalErrorMessage f acc.2.
Proof.
  revert acc. induction remainingUnassignedStudents as [|student rest IH];
    intros acc.
  - exists (λ m, m). cbn. by destruct (acc.2).
  - cbn [fold_left].
    destruct (IH (placeStudent relations acc student)) as [f ->].
    destruct (placeStudent_state relations acc student) as [g ->].
    by exists (λ m, f (g m)).
Qed.

Lemma onlyAddsAssignments_message (st : State)
    (f : option (list Message) → option (list Message)) :
  onlyAddsAssignments st (updateLocalErrorMessage f st).
Proof.
  split; [apply sameSeat_refl|]. split; [apply stillAssigned_refl|].
  split; [|done]. exists []. cbn. by rewrite app_nil_r.
Qed.

Lemma stopRoulette_onlyAdds (shuffle : list Seat.t → list Seat.t)
    (st : State) :
  onlyAddsAssignments st (stopRoulette shuffle st).
Proof.
  destruct (Roulette.isRunning (rouletteState st)) eqn:Hrun.
  - destruct (stopRoulette_cases shuffle st Hrun)
      as [(f & message & ->)|(f & sel & x & _ & -> & _)].
    + split; [apply sameSeat_refl|]. split; [apply stillAssigned_refl|].
      split; [|done]. exists []. cbn. by rewrite app_nil_r.
    + split; [apply sameSeat_assign, sameSeat_refl|].
      split; [apply stillAssigned_assign, stillAssigned_refl|].
      split; [|done]. by eexists.
  - unfold stopRoulette. rewrite Hrun. cbn [negb].
    apply (onlyAddsAssignments_message st (λ m, m)).
Qed.

Lemma handleBulkAssign_onlyAdds
    (sortByNumber : list Student.t → list Student.t) (confirmed : bool)
    (rndStudents rndSeats : nat → nat) (st : State) :
  onlyAddsAssignments st
    (handleBulkAssign sortByNumber confirmed rndStudents rndSeats st).
Proof.
  unfold handleBulkAssign.
  do 3 (case_bool_decide;
        [apply (onlyAddsAssignments_message st (λ _, _))|]).
  destruct confirmed; cbn [negb];
    [|apply (onlyAddsAssignments_message st (λ m, m))].
  pose (tmp0 := mkBulkTemp (seatMap st) (students st)
                  (Roulette.winningHistory (rouletteState st)) ∅ ∅).
  pose proof (phase1_extends tmp0 (fixedSeatAssignments st) (tmp0, [])
                (tempExtends_refl tmp0)) as Hphase1.
  fold tmp0. destruct (fold_left assignFixed _ _) as [tmp1 errors].
  cbn [fst] in Hphase1.
  match goal with
  | |- context [fold_left (placeStudent ?rels) ?l ?acc] =>
      pose proof (phase2_extends tmp0 rels l acc) as Hphase2;
      destruct (phase2_state rels l acc) as [f Hstate]
  end.
  specialize (Hphase2 Hphase1).
  destruct (fold_left (placeStudent _) _ _) as [[tmp2 remaining] st2].
  cbn [fst snd] in Hphase2, Hstate. subst st2.
  destruct Hphase2 as (Hseats & Hstudents & Hhist).
  split; [done|]. split; [done|]. split; [done|].
  by destruct errors.
Qed.

(** X8. A draw and a batch assignment only add assignments: seat ids, rows,
    columns and usability flags, the identity of every student, the
    relations and the fixed assignments are untouched, no student loses an
    assignment, and the history is only extended. *)
Theorem stop_and_bulk_only_add_assignments
    (sortByNumber : list Student.t → list Student.t)
    (shuffle : list Seat.t → list Seat.t) (confirmed : bool)
    (rndStudents rndSeats : nat → nat) (st : State) :
  onlyAddsAssignments st (stopRoulette shuffle st)
  ∧ onlyAddsAssignments st
      (handleBulkAssign sortByNumber confirmed rndStudents rndSeats st).
Proof.
  split; [apply stopRoulette_onlyAdds|apply handleBulkAssign_onlyAdds].
Qed.

(** ** Relations hold after a placement *)

Lemma findStudent_assign (students : list Student.t)
    (studentId chosen wanted : string) :
  findStudent (assignInStudents students studentId chosen) wanted
  = assignStudent studentId chosen <$> findStudent students wanted.
Proof.
  unfold findStudent, assignInStudents.
  induction students as [|s students IH]; [done|].
  cbn [fmap list_fmap List.find].
  replace (Student.id (assignStudent studentId chosen s))
    with (Student.id s)
    by (unfold assignStudent; by destruct (bool_decide _)).
  by destruct (bool_decide (Student.id s = wanted)).
Qed.

Lemma seatedAt_assign_other (students : list Student.t)
    (studentId chosen other seatId : string) :
  other ≠ studentId →
  seatedAt (assignInStudents students studentId chosen) other seatId
  ↔ seatedAt students other seatId.
Proof.
  intros Hne. unfold seatedAt. rewrite findStudent_assign.
  destruct (findStudent students other) as [p|] eqn:Hfind;
    [|split; by intros (? & [=] & _)].
  pose proof (findStudent_Some _ _ _ Hfind) as [_ Hid].
  cbn. unfold assignStudent.
  rewrite bool_decide_eq_false_2 by congruence.
  split; intros (p' & [= <-] & H); by exists p.
Qed.

Lemma seatedAt_assign_self (students : list Student.t)
    (studentId chosen seatId : string) :
  seatedAt (assignInStudents students studentId chosen) studentId seatId →
  seatId = chosen.
Proof.
  unfold seatedAt. rewrite findStudent_assign.
  destruct (findStudent students studentId) as [p|] eqn:Hfind;
    [|by intros (? & [=] & _)].
  pose proof (findStudent_Some _ _ _ Hfind) as [_ Hid].
  cbn. unfold assignStudent. rewrite bool_decide_eq_true_2 by done.
  intros (p' & [= <-] & _ & Hseat & _). cbn in Hseat. congruence.
Qed.

Lemma assignInSeatMap_ids (seatMap : list Seat.t) (chosen studentId : string) :
  Seat.seatId <$> assignInSeatMap seatMap chosen studentId
  = Seat.seatId <$> seatMap.
Proof.
  unfold assignInSeatMap. rewrite <-list_fmap_compose.
  apply list_fmap_ext. intros _ seat _. cbn. unfold assignSeat.
  by destruct (bool_decide _).
Qed.

Lemma relationSatisfied_assign_other (students : list Student.t)
    (seatMap : list Seat.t) (studentId chosen : string) (rel : Relation.t) :
  ¬ involves rel studentId →
  relationSatisfied students seatMap rel →
  relationSatisfied (assignInStudents students studentId chosen)
    (assignInSeatMap seatMap chosen studentId) rel.
Proof.
  intros Hinv Hsat seat1 seat2 H1 H2.
  apply seatedAt_assign_other in H1; [|intros Heq; apply Hinv; by left].
  apply seatedAt_assign_other in H2; [|intros Heq; apply Hinv; by right].
  rewrite (getAdjacentSeatIds_ids seat1 _ seatMap),
    (getAdjacentSeatIds_ids seat2 _ seatMap) by apply assignInSeatMap_ids.
  by apply Hsat.
Qed.

(** Placing a student on a seat the checker accepts makes every relation
    of the student with another student hold. *)
Lemma relationSatisfied_assign_checked (students : list Student.t)
    (seatMap : list Seat.t) (student : Student.t) (chosen : string)
    (relations : list Relation.t) (rel : Relation.t) :
  checkRelationConstraints chosen (Some student) seatMap students relations
  = true →
  rel ∈ relations →
  Relation.studentId1 rel ≠ Relation.studentId2 rel →
  involves rel (Student.id student) →
  relationSatisfied (assignInStudents students (Student.id student) chosen)
    (assignInSeatMap seatMap chosen (Student.id student)) rel.
Proof.
  intros Hcheck Hin Hdistinct Hinv seat1 seat2 H1 H2.
  cbn [checkRelationConstraints] in Hcheck.
  rewrite checkRelationsLoop_true in Hcheck.
  pose proof (Hcheck rel Hin Hinv) as Hrel.
  rewrite (getAdjacentSeatIds_ids seat1 _ seatMap),
    (getAdjacentSeatIds_ids seat2 _ seatMap) by apply assignInSeatMap_ids.
  unfold partnerIdOf in Hrel.
  destruct (decide (Relation.studentId1 rel = Student.id student))
    as [Heq1|Hne1].
  - rewrite bool_decide_eq_true_2 in Hrel by done.
    rewrite Heq1 in H1. apply seatedAt_assign_self in H1 as ->.
    apply seatedAt_assign_other in H2; [|congruence].
    left. by apply Hrel.
  - rewrite bool_decide_eq_false_2 in Hrel by done.
    destruct Hinv as [Heq1|Heq2]; [done|].
    rewrite Heq2 in H2. apply seatedAt_assign_self in H2 as ->.
    apply seatedAt_assign_other in H1; [|done].
    right. by apply Hrel.
Qed.

(** X9. A draw for a student without a fixed seat keeps every relation that
    held: a relation between two different students that was satisfied
    before the draw is satisfied after it. *)
Theorem stopRoulette_keeps_relations (shuffle : list Seat.t → list Seat.t)
    (st : State) (rel : Relation.t) :
  (∀ sel, selectedStudentForAssignment st = Some sel → noFixedSeatFor sel st) →
  shuffle (availableSeats st) ≡ₚ availableSeats st →
  rel ∈ relationConfig st →
  Relation.studentId1 rel ≠ Relation.studentId2 rel →
  relationSatisfied (students st) (seatMap st) rel →
  relationSatisfied (students (stopRoulette shuffle st))
    (seatMap (stopRoulette shuffle st)) rel.
Proof.
  intros Hfixed Hperm Hin Hdistinct Hsat.
  destruct (Roulette.isRunning (rouletteState st)) eqn:Hrun;
    [|unfold stopRoulette; by rewrite Hrun].
  destruct (stopRoulette_cases shuffle st Hrun)
    as [(f & message & ->)|(f & sel & x & Hsel & -> & Hseat)]; [done|].
  destruct (Hseat Hperm) as (seat & <- & _ & _ & _ & Hadm).
  destruct (Hadm (Hfixed sel Hsel)) as [_ Hok]. cbn.
  destruct (decide (Relation.studentId1 rel = Student.id sel
                    ∨ Relation.studentId2 rel = Student.id sel)) as [Hinv|Hinv].
  - by apply (relationSatisfied_assign_checked _ _ _ _ (relationConfig st)).
  - by apply relationSatisfied_assign_other.
Qed.

(** ** Relations in the batch assignment *)

Lemma findSeatLoop_checked (student : Student.t) (tmp : BulkTemp)
    (relations : list Relation.t) (maxAttempts : nat) (rest : list Seat.t)
    (currentSeatIndex attempts k : nat) (seat : Seat.t) :
  findSeatLoop student tmp relations maxAttempts rest currentSeatIndex
    attempts = Some (k, seat) →
  checkRelationConstraints (Seat.seatId seat) (Some student)
    (tempSeatMap tmp) (tempStudents tmp) relations = true.
Proof.
  revert currentSeatIndex attempts.
  induction rest as [|potentialSeat rest IH];
    intros currentSeatIndex attempts; [done|].
  cbn [findSeatLoop].
  case_bool_decide; [|done].
  destruct (negb (truthy _)); [apply IH|].
  case_bool_decide as Hused; [apply IH|].
  destruct (checkRelationConstraints (Seat.seatId potentialSeat) _ _ _ _)
    eqn:Hcheck; [|apply IH].
  by intros [= <- <-].
Qed.

Lemma placeStudent_keeps_relation (relations : list Relation.t)
    (acc : BulkTemp * list Seat.t * State) (student : Student.t)
    (rel : Relation.t) :
  rel ∈ relations →
  Relation.studentId1 rel ≠ Relation.studentId2 rel →
  relationSatisfied (tempStudents acc.1.1) (tempSeatMap acc.1.1) rel →
  relationSatisfied (tempStudents (placeStudent relations acc student).1.1)
    (tempSeatMap (placeStudent relations acc student).1.1) rel.
Proof.
  destruct acc as [[tmp remaining] st]. cbn [fst].
  intros Hin Hdistinct Hsat. unfold placeStudent.
  destruct (bool_decide (Student.id student ∈ _)); [done|].
  destruct (findSeatLoop _ _ _ _ _ _ _) as [[k seat]|] eqn:Hloop; [|done].
  apply findSeatLoop_checked in Hloop. cbn.
  destruct (decide (Relation.studentId1 rel = Student.id student
                    ∨ Relation.studentId2 rel = Student.id student))
    as [Hinv|Hinv].
  - by apply (relationSatisfied_assign_checked _ _ _ _ relations).
  - by apply relationSatisfied_assign_other.
Qed.

Lemma phase2_keeps_relation (relations : list Relation.t)
    (remainingUnassignedStudents : list Student.t)
    (acc : BulkTemp * list Seat.t * State) (rel : Relation.t) :
  rel ∈ relations →
  Relation.studentId1 rel ≠ Relation.studentId2 rel →
  relationSatisfied (tempStudents acc.1.1) (tempSeatMap acc.1.1) rel →
  relationSatisfied
    (tempStudents
       (fold_left (placeStudent relations) remainingUnassignedStudents acc).1.1)
    (tempSeatMap
       (fold_left (placeStudent relations) remainingUnassignedStudents acc).1.1)
    rel.
Proof.
  intros Hin Hdistinct. revert acc.
  induction remainingUnassignedStudents as [|student rest IH];
    intros acc Hsat; [done|].
  cbn [fold_left]. by apply IH, placeStudent_keeps_relation.
Qed.

Lemma assignFixed_cases (acc : BulkTemp * list FixedError)
    (fixedAssignment : FixedSeat.t) :
  (assignFixed acc fixedAssignment).1 = acc.1
  ∨ ((assignFixed acc fixedAssignment).1
     = commitInTemp acc.1 (FixedSeat.studentId fixedAssignment)
         (FixedSeat.seatId fixedAssignment)
     ∧ (FixedSeat.studentId fixedAssignment ∉ assignedStudentIdsInTemp acc.1)
     ∧ FixedSeat.seatId fixedAssignment ∉ assignedSeatIdsInTemp acc.1).
Proof.
  destruct acc as [tmp errors]. cbn [fst]. unfold assignFixed.
  destruct (findStudent (tempStudents tmp)
              (FixedSeat.studentId fixedAssignment)) as [student|] eqn:Hstudent,
    (findSeat (tempSeatMap tmp) (FixedSeat.seatId fixedAssignment))
      as [fixedSeat|] eqn:Hseat; try by left.
  apply findStudent_Some in Hstudent as [_ Hid].
  apply findSeat_Some in Hseat as [_ Hsid].
  destruct (negb (Seat.isUsable fixedSeat)); [by left|].
  destruct (truthy _ && negb _); [by left|].
  destruct (bool_decide (Student.id student ∈ _)) eqn:Hhas1; [by left|].
  destruct (bool_decide (Seat.seatId fixedSeat ∈ _)) eqn:Hhas2; [by left|].
  apply bool_decide_eq_false in Hhas1, Hhas2.
  right. cbn [fst]. by rewrite <-Hid, <-Hsid.
Qed.

Lemma phase1_keeps_relation (fixedSeatAssignments : list FixedSeat.t)
    (acc : BulkTemp * list FixedError) (rel : Relation.t) :
  (∀ fa, fa ∈ fixedSeatAssignments →
         ¬ involves rel (FixedSeat.studentId fa)) →
  relationSatisfied (tempStudents acc.1) (tempSeatMap acc.1) rel →
  relationSatisfied
    (tempStudents (fold_left assignFixed fixedSeatAssignments acc).1)
    (tempSeatMap (fold_left assignFixed fixedSeatAssignments acc).1) rel.
Proof.
  revert acc. induction fixedSeatAssignments as [|fa rest IH];
    intros acc Hfixed Hsat; [done|].
  cbn [fold_left]. apply IH; [intros fa' Hfa'; apply Hfixed; by right|].
  destruct (assignFixed_cases acc fa) as [->|(-> & _ & _)]; [done|].
  cbn. apply relationSatisfied_assign_other; [|done].
  apply Hfixed. by left.
Qed.

Lemma phase1_unseated (fixedSeatAssignments : list FixedSeat.t)
    (acc : BulkTemp * list FixedError) (studentId : string) :
  (∀ fa, fa ∈ fixedSeatAssignments → FixedSeat.studentId fa ≠ studentId) →
  unseated (tempStudents acc.1) studentId →
  unseated (tempStudents (fold_left assignFixed fixedSeatAssignments acc).1)
    studentId.
Proof.
  revert acc. induction fixedSeatAssignments as [|fa rest IH];
    intros acc Hfixed Hun; [done|].
  cbn [fold_left]. apply IH; [intros fa' Hfa'; apply Hfixed; by right|].
  destruct (assignFixed_cases acc fa) as [->|(-> & _ & _)]; [done|].
  cbn. intros seat Hseat.
  apply seatedAt_assign_other in Hseat; [by destruct (Hun seat)|].
  intros ->. by apply (Hfixed fa); [left|].
Qed.

Lemma unseated_relationSatisfied (students : list Student.t)
    (seatMap : list Seat.t) (rel : Relation.t) (studentId : string) :
  involves rel studentId →
  unseated students studentId →
  relationSatisfied students seatMap rel.
Proof.
  intros [<-|<-] Hun seat1 seat2 H1 H2.
  - by destruct (Hun seat1).
  - by destruct (Hun seat2).
Qed.

Lemma handleBulkAssign_relation_after_phase1
    (sortByNumber : list Student.t → list Student.t) (confirmed : bool)
    (rndStudents rndSeats : nat → nat) (st : State) (rel : Relation.t) :
  rel ∈ relationConfig st →
  Relation.studentId1 rel ≠ Relation.studentId2 rel →
  relationSatisfied (students st) (seatMap st) rel →
  (∀ acc, relationSatisfied (students st) (seatMap st) rel →
     acc = fold_left assignFixed (fixedSeatAssignments st)
             (mkBulkTemp (seatMap st) (students st)
                (Roulette.winningHistory (rouletteState st)) ∅ ∅, []) →
     relationSatisfied (tempStudents acc.1) (tempSeatMap acc.1) rel) →
  relationSatisfied
    (students
       (handleBulkAssign sortByNumber confirmed rndStudents rndSeats st))
    (seatMap
       (handleBulkAssign sortByNumber confirmed rndStudents rndSeats st)) rel.
Proof.
  intros Hin Hdistinct Hsat Hphase1. unfold handleBulkAssign.
  do 3 (case_bool_decide; [done|]).
  destruct confirmed; cbn [negb]; [|done].
  specialize (Hphase1 _ Hsat eq_refl).
  destruct (fold_left assignFixed _ _) as [tmp1 errors]. cbn [fst] in Hphase1.
  match goal with
  | |- context [fold_left (placeStudent ?rels) ?l ?acc] =>
      pose proof (phase2_keeps_relation rels l acc rel Hin Hdistinct Hphase1)
        as Hphase2
  end.
  by destruct (fold_left (placeStudent _) _ _) as [[tmp2 remaining] st2].
Qed.

(** X10. A batch assignment keeps every relation that held, unless a fixed
    assignment names one of its students: a relation between two different
    students, neither with a fixed assignment, that was satisfied before the
    batch is satisfied after it. *)
Theorem handleBulkAssign_keeps_relations
    (sortByNumber : list Student.t → list Student.t) (confirmed : bool)
    (rndStudents rndSeats : nat → nat) (st : State) (rel : Relation.t) :
  rel ∈ relationConfig st →
  Relation.studentId1 rel ≠ Relation.studentId2 rel →
  (∀ fa, fa ∈ fixedSeatAssignments st →
         ¬ involves rel (FixedSeat.studentId fa)) →
  relationSatisfied (students st) (seatMap st) rel →
  relationSatisfied
    (students
       (handleBulkAssign sortByNumber confirmed rndStudents rndSeats st))
    (seatMap
       (handleBulkAssign sortByNumber confirmed rndStudents rndSeats st)) rel.
Proof.
  intros Hin Hdistinct Hfixed Hsat.
  apply handleBulkAssign_relation_after_phase1; try done.
  intros acc _ ->. by apply phase1_keeps_relation.
Qed.

(** X11. The batch assignment respects the relations of the students it
    places itself: a relation between two different students holds after the
    batch when one of them was unseated before it and has no fixed
    assignment. *)
Theorem handleBulkAssign_relations_hold
    (sortByNumber : list Student.t → list Student.t) (confirmed : bool)
    (rndStudents rndSeats : nat → nat) (st : State) (rel : Relation.t)
    (studentId : string) :
  rel ∈ relationConfig st →
  Relation.studentId1 rel ≠ Relation.studentId2 rel →
  involves rel studentId →
  unseated (students st) studentId →
  (∀ fa, fa ∈ fixedSeatAssignments st → FixedSeat.studentId fa ≠ studentId) →
  relationSatisfied
    (students
       (handleBulkAssign sortByNumber confirmed rndStudents rndSeats st))
    (seatMap
       (handleBulkAssign sortByNumber confirmed rndStudents rndSeats st)) rel.
Proof.
  intros Hin Hdistinct Hinv Hun Hfixed.
  apply handleBulkAssign_relation_after_phase1; try done.
  - by apply (unseated_relationSatisfied _ _ _ studentId).
  - intros acc _ ->.
    apply (unseated_relationSatisfied _ _ _ studentId); [done|].
    by apply phase1_unseated.
Qed.

(** ** A batch without relations and fixed seats seats everyone *)

Lemma NoDup_fmap_filter {A B} (f : A → B) (p : A → bool) (l : list A) :
  NoDup (f <$> l) → NoDup (f <$> List.filter p l).
Proof.
  induction l as [|a l IH]; [done|].
  cbn. intros [Hnotin Hnodup]%NoDup_cons.
  destruct (p a); [|by apply IH].
  cbn. apply NoDup_cons. split; [|by apply IH].
  intros (b & Hb & Hin)%list_elem_of_fmap. apply Hnotin.
  apply list_elem_of_fmap. exists b. split; [done|].
  apply list_elem_of_In, filter_In in Hin as [Hin _].
  by apply list_elem_of_In.
Qed.

Lemma findSeatLoop_no_relations (student : Student.t) (tmp : BulkTemp)
    (seat : Seat.t) (rest : list Seat.t) :
  Seat.seatId seat ≠ "" →
  Seat.seatId seat ∉ assignedSeatIdsInTemp tmp →
  findSeatLoop student tmp [] (length (seat :: rest) * 2) (seat :: rest) 0 0
  = Some (0%nat, seat).
Proof.
  intros Hne Hfresh. cbn [findSeatLoop length].
  rewrite bool_decide_eq_true_2 by lia.
  cbn [truthy]. rewrite (bool_decide_eq_false_2 _ Hne). cbn [negb].
  by rewrite (bool_decide_eq_false_2 _ Hfresh).
Qed.

Lemma phase2_seats_everyone (pending : list Student.t) (tmp : BulkTemp)
    (remaining : list Seat.t) (st : State) :
  NoDup (Seat.seatId <$> remaining) →
  (∀ seat, seat ∈ remaining →
     Seat.seatId seat ≠ "" ∧ Seat.seatId seat ∉ assignedSeatIdsInTemp tmp) →
  (length pending ≤ length remaining)%nat →
  (∀ s, s ∈ tempStudents tmp →
     Student.isAssigned s = true ∨ Student.id s ∈ Student.id <$> pending) →
  (∀ s, s ∈ tempStudents tmp →
     Student.id s ∈ assignedStudentIdsInTemp tmp →
     Student.isAssigned s = true) →
  (fold_left (placeStudent []) pending (tmp, remaining, st)).2 = st
  ∧ Forall (λ s, Student.isAssigned s = true)
      (tempStudents
         (fold_left (placeStudent []) pending (tmp, remaining, st)).1.1).
Proof.
  revert tmp remaining.
  induction pending as [|x pending IH];
    intros tmp remaining Hnodup Hseats Hlen Hpending Hplaced.
  - cbn. split; [done|]. apply Forall_forall. intros s Hs.
    destruct (Hpending s Hs) as [?|Hin]; [done|]. by inversion Hin.
  - cbn [fold_left]. unfold placeStudent at 2 4.
    case_bool_decide as Hdone.
    + apply IH; try done; [cbn in Hlen; lia|].
      intros s Hs. destruct (Hpending s Hs) as [?|Hin]; [by left|].
      cbn in Hin. apply elem_of_cons in Hin as [Heq|Hin]; [|by right].
      left. apply Hplaced; [done|]. by rewrite Heq.
    + destruct remaining as [|seat rest]; [cbn in Hlen; lia|].
      destruct (Hseats seat) as [Hne Hfresh]; [by left|].
      rewrite findSeatLoop_no_relations by done.
      cbn [delete list_delete].
      cbn in Hnodup. apply NoDup_cons in Hnodup as [Hnotin Hnodup].
      apply IH; try done.
      * intros seat' Hin. destruct (Hseats seat') as [Hne' Hfresh'];
          [by right|].
        split; [done|]. cbn. apply not_elem_of_union. split; [|done].
        apply not_elem_of_singleton. intros Heq. apply Hnotin.
        rewrite <-Heq. apply list_elem_of_fmap. by exists seat'.
      * cbn in Hlen. lia.
      * cbn. intros s' (s & -> & Hs)%list_elem_of_fmap.
        unfold assignStudent.
        destruct (decide (Student.id s = Student.id x)) as [Heq|Hneq].
        -- rewrite bool_decide_eq_true_2 by done. by left.
        -- rewrite bool_decide_eq_false_2 by done.
           destruct (Hpending s Hs) as [?|Hin]; [by left|right].
           cbn in Hin. by apply elem_of_cons in Hin as [?|?].
      * cbn. intros s' (s & -> & Hs)%list_elem_of_fmap.
        unfold assignStudent.
        destruct (decide (Student.id s = Student.id x)) as [Heq|Hneq].
        -- by rewrite bool_decide_eq_true_2 by done.
        -- rewrite bool_decide_eq_false_2 by done.
           intros [Hin%elem_of_singleton|Hin]%elem_of_union; [done|].
           by apply Hplaced.
Qed.

Section BatchSeatsEveryone.

Variable sortByNumber : list Student.t → list Student.t.
Hypothesis sortByNumber_perm : ∀ l, sortByNumber l ≡ₚ l.

Lemma handleBulkAssign_seats_everyone_after (rndStudents rndSeats : nat → nat)
    (st : State) :
  relationConfig st = [] →
  fixedSeatAssignments st = [] →
  NoDup (Seat.seatId <$> seatMap st) →
  (∀ seat, seat ∈ seatMap st → Seat.seatId seat ≠ "") →
  (length (unassignedStudents sortByNumber st)
   ≤ length (availableSeats st))%nat →
  Forall (λ s, Student.isAssigned s = true)
    (students (handleBulkAssign sortByNumber true rndStudents rndSeats st))
  ∧ (unassignedStudents sortByNumber st ≠ [] →
     localErrorMessage
       (handleBulkAssign sortByNumber true rndStudents rndSeats st) = None).
Proof.
  intros Hrels Hfixed Hnodup Hids Hfit. unfold handleBulkAssign.
  rewrite (length_unassignedStudents sortByNumber sortByNumber_perm) in *.
  case_bool_decide as Hnone.
  { split.
    - cbn. apply Forall_forall. intros s Hs.
      destruct (Student.isAssigned s) eqn:Hassigned; [done|].
      apply length_zero_iff_nil in Hnone.
      assert (s ∈ List.filter (λ s, negb (Student.isAssigned s)) (students st))
        as Hin.
      { apply list_elem_of_In, filter_In. split; [by apply list_elem_of_In|].
        by rewrite Hassigned. }
      rewrite Hnone in Hin. by inversion Hin.
    - intros Hsome. destruct Hsome.
      apply length_zero_iff_nil.
      by rewrite (length_unassignedStudents sortByNumber sortByNumber_perm). }
  case_bool_decide as Hseats; [lia|].
  case_bool_decide as Hmore; [lia|].
  cbn [negb]. rewrite Hfixed, Hrels. cbn [fold_left].
  match goal with
  | |- context [fold_left (placeStudent []) ?l (?tmp, ?remaining, ?st1)] =>
      destruct (phase2_seats_everyone l tmp remaining st1)
        as [Hstate Hall]
  end.
  - cbn. eapply NoDup_Permutation_proper;
      [apply fmap_Permutation, fisherYates_perm|].
    by apply NoDup_fmap_filter.
  - intros seat Hin. rewrite fisherYates_perm in Hin.
    apply elem_of_availableSeatsOf in Hin as [Hin _].
    split; [by apply Hids|]. cbn. set_solver.
  - by rewrite !fisherYates_perm.
  - cbn [tempStudents]. intros s Hs.
    destruct (Student.isAssigned s) eqn:Hassigned; [by left|right].
    apply list_elem_of_fmap. exists s. split; [done|].
    rewrite fisherYates_perm.
    apply list_elem_of_In, filter_In. split; [by apply list_elem_of_In|].
    by rewrite Hassigned.
  - cbn. set_solver.
  - destruct (fold_left (placeStudent []) _ _) as [[tmp2 remaining2] st2].
    cbn [fst snd] in *. subst st2. by split.
Qed.

(** X12. Without relations and fixed assignments the batch seats everyone:
    when the seat ids are distinct and non-empty and the unassigned students
    fit on the available seats, a confirmed batch leaves no student
    unassigned, and it reports no error unless nobody was unassigned to
    begin with. *)
Theorem handleBulkAssign_seats_everyone (rndStudents rndSeats : nat → nat)
    (st : State) :
  relationConfig st = [] →
  fixedSeatAssignments st = [] →
  NoDup (Seat.seatId <$> seatMap st) →
  (∀ seat, seat ∈ seatMap st → Seat.seatId seat ≠ "") →
  (length (unassignedStudents sortByNumber st)
   ≤ length (availableSeats st))%nat →
  Forall (λ s, Student.isAssigned s = true)
    (students (handleBulkAssign sortByNumber true rndStudents rndSeats st))
  ∧ (unassignedStudents sortByNumber st ≠ [] →
     localErrorMessage
       (handleBulkAssign sortByNumber true rndStudents rndSeats st) = None).
Proof. apply handleBulkAssign_seats_everyone_after. Qed.

Lemma filter_unassigned_clearStudent (students : list Student.t) :
  List.filter (λ s, negb (Student.isAssigned s)) (clearStudent <$> students)
  = clearStudent <$> students.
Proof.
  induction students as [|s students IH]; [done|]. cbn. by rewrite IH.
Qed.

Lemma length_available_clearSeat (seatMap : list Seat.t) :
  length (availableSeatsOf (clearSeat <$> seatMap))
  = length (List.filter Seat.isUsable seatMap).
Proof.
  unfold availableSeatsOf.
  induction seatMap as [|seat seatMap IH]; [done|].
  cbn [fmap list_fmap List.filter]. unfold isAvailable at 1. cbn.
  rewrite andb_true_r. destruct (Seat.isUsable seat); cbn; by rewrite IH.
Qed.

(** X13. A reset followed by a batch seats the whole class again: without
    relations and fixed assignments, and with at least as many usable seats
    as students, every student is assigned afterwards and no error is
    reported, whatever was assigned before the reset. *)
Theorem reset_then_bulk_seats_everyone (rndStudents rndSeats : nat → nat)
    (st : State) :
  relationConfig st = [] →
  fixedSeatAssignments st = [] →
  NoDup (Seat.seatId <$> seatMap st) →
  (∀ seat, seat ∈ seatMap st → Seat.seatId seat ≠ "") →
  students st ≠ [] →
  (length (students st) ≤ length (List.filter Seat.isUsable (seatMap st)))%nat →
  Forall (λ s, Student.isAssigned s = true)
    (students
       (handleBulkAssign sortByNumber true rndStudents rndSeats
          (handleResetRoulette sortByNumber true st)))
  ∧ localErrorMessage
      (handleBulkAssign sortByNumber true rndStudents rndSeats
         (handleResetRoulette sortByNumber true st)) = None.
Proof.
  intros Hrels Hfixed Hnodup Hids Hsome Hfit.
  assert (length (unassignedStudents sortByNumber
                    (handleResetRoulette sortByNumber true st))
          = length (students st)) as Hlen.
  { rewrite (length_unassignedStudents sortByNumber sortByNumber_perm).
    cbn. by rewrite filter_unassigned_clearStudent, length_fmap. }
  destruct (handleBulkAssign_seats_everyone_after rndStudents rndSeats
              (handleResetRoulette sortByNumber true st)) as [Hall Hmsg];
    try done.
  - cbn. by rewrite <-list_fmap_compose.
  - cbn. intros seat' (seat & -> & Hin)%list_elem_of_fmap. cbn.
    by apply Hids.
  - rewrite Hlen. unfold availableSeats. cbn [handleResetRoulette].
    cbn [seatMap setManuallySelectedSeatIdForRoulette
         setSelectedStudentForAssignment setLocalErrorMessage
         updateLocalErrorMessage setRouletteState setStudents setSeatMap].
    by rewrite length_available_clearSeat.
  - split; [done|]. apply Hmsg. intros Hnil.
    rewrite Hnil in Hlen. cbn in Hlen.
    by destruct (students st).
Qed.

End BatchSeatsEveryone.

(** ** The handlers around a draw *)


Lemma findSeat_elem (seats : list Seat.t) (seat : Seat.t) :
  seat ∈ seats →
  ∃ seat', findSeat seats (Seat.seatId seat) = Some seat'.
Proof.
  unfold findSeat. induction 1 as [seat seats|seat seat' seats _ IH].
  - cbn. rewrite bool_decide_eq_true_2 by done. by eexists.
  - cbn. destruct (bool_decide _); [by eexists|done].
Qed.

Lemma elem_same_id (students : list Student.t) (s1 s2 : Student.t) :
  NoDup (Student.id <$> students) →
  s1 ∈ students → s2 ∈ students →
  Student.id s1 = Student.id s2 → s1 = s2.
Proof.
  intros Hnodup [i H1]%list_elem_of_lookup_1 [j H2]%list_elem_of_lookup_1 Heq.
  assert (i = j) as -> by by eapply lookup_same_id.
  congruence.
Qed.





(** X16. The roulette only starts with an available seat and a selected
    student, and starting changes no assignment: afterwards the roulette
    runs exactly when it ran before or both are present, and students, seats
    and history are as before. *)
Theorem startRoulette_guarded (st : State) :
  (Roulette.isRunning (rouletteState (startRoulette st)) = true
   ↔ Roulette.isRunning (rouletteState st) = true
     ∨ (availableSeats st ≠ [] ∧ selectedStudentForAssignment st ≠ None))
  ∧ sameAssignments st (startRoulette st)
  ∧ (Roulette.isRunning (rouletteState st) = false →
     Roulette.isRunning (rouletteState (startRoulette st)) = true →
     manuallySelectedSeatIdForRoulette (startRoulette st) = None
     ∧ Roulette.currentSelectedSeatId (rouletteState (startRoulette st)) = None
     ∧ localErrorMessage (startRoulette st) = None).
Proof.
  unfold startRoulette.
  case_bool_decide as Hlen.
  { apply length_zero_iff_nil in Hlen. cbn. split; [|split; [done|]].
    - split; [by left|]. by intros [?|[? _]].
    - congruence. }
  assert (availableSeats st ≠ []) as Hsome
    by (intros Hnil; by rewrite Hnil in Hlen).
  destruct (selectedStudentForAssignment st) as [sel|].
  - destruct (Roulette.isRunning (rouletteState st)) eqn:Hrun.
    + rewrite Hrun. split; [|split; [done|]]; [by split; [left|]|congruence].
    + cbn. split; [|done]. split; [|done]. by right.
  - cbn. split; [|split; [done|]].
    + split; [by left|]. by intros [?|[_ ?]].
    + congruence.
Qed.

(** X17. Selecting a student succeeds exactly when the roulette is not
    running and the student exists and is unassigned (ids being unique); the
    selection is then that student's record, any manual seat selection and
    error message are cleared, and no assignment changes. *)
Theorem handleStudentSelect_selects_unassigned (studentId : string)
    (st : State) :
  NoDup (Student.id <$> students st) →
  ((∃ st', handleStudentSelect studentId st = inr st')
   ↔ Roulette.isRunning (rouletteState st) = false
     ∧ ∃ s, s ∈ students st ∧ Student.id s = studentId
            ∧ Student.isAssigned s = false)
  ∧ ∀ st', handleStudentSelect studentId st = inr st' →
      ∃ s, s ∈ students st ∧ Student.id s = studentId
           ∧ Student.isAssigned s = false
           ∧ selectedStudentForAssignment st' = Some s
           ∧ Roulette.currentAssigningStudent (rouletteState st') = Some s
           ∧ manuallySelectedSeatIdForRoulette st' = None
           ∧ localErrorMessage st' = None
           ∧ sameAssignments st st'.
Proof.
  intros Hnodup. unfold handleStudentSelect.
  destruct (Roulette.isRunning (rouletteState st)).
  { split; [|done]. split; [by intros [? ?]|by intros [? _]]. }
  destruct (findStudent (students st) studentId) as [student|] eqn:Hfind.
  - pose proof (findStudent_Some _ _ _ Hfind) as [Hin Hid].
    destruct (Student.isAssigned student) eqn:Hassigned; cbn [negb].
    + split; [|done]. split; [by intros [? ?]|].
      intros [_ (s & Hs & Hids & Hun)].
      assert (s = student) as -> by (by apply (elem_same_id (students st));
                                     [| | |rewrite Hid]).
      congruence.
    + split.
      * split; [intros _; split; [done|]; by exists student|by eauto].
      * intros st' [= <-]. exists student. by repeat split.
  - split; [|done]. split; [by intros [? ?]|].
    intros [_ (s & Hs & Hids & _)].
    unfold findStudent in Hfind.
    apply list_elem_of_In in Hs.
    pose proof (find_none _ _ Hfind s Hs) as Hno.
    by apply bool_decide_eq_false in Hno.
Qed.

Section ScreenProperties.

Variable sortByNumber : list Student.t → list Student.t.

(** X18. The preparing effect settles after one run: running it again
    changes nothing. It never touches an assignment; afterwards a student is
    up for assignment whenever one is unassigned, and the roulette is marked
    stopped when none is. *)
Theorem prepareRoulette_settles (st : State) :
  prepareRoulette sortByNumber (prepareRoulette sortByNumber st)
  = prepareRoulette sortByNumber st
  ∧ sameAssignments st (prepareRoulette sortByNumber st)
  ∧ (unassignedStudents sortByNumber st ≠ [] →
     Roulette.currentAssigningStudent
       (rouletteState (prepareRoulette sortByNumber st)) ≠ None)
  ∧ (unassignedStudents sortByNumber st = [] →
     Roulette.isStopped (rouletteState (prepareRoulette sortByNumber st))
     = true).
Proof.
  unfold prepareRoulette, unassignedStudents.
  destruct (Roulette.currentAssigningStudent (rouletteState st))
    as [current|] eqn:Hcurrent,
    (unassignedStudentsOf sortByNumber (students st))
      as [|first rest] eqn:Hun,
    (Roulette.isStopped (rouletteState st)) eqn:Hstopped;
    cbn; rewrite ?Hcurrent, ?Hun, ?Hstopped; cbn;
    do 3 (split; [done|]); done.
Qed.

Hypothesis sortByNumber_perm : ∀ l, sortByNumber l ≡ₚ l.

Lemma elem_of_unassignedStudents (st : State) (s : Student.t) :
  s ∈ unassignedStudents sortByNumber st
  ↔ s ∈ students st ∧ Student.isAssigned s = false.
Proof.
  unfold unassignedStudents, unassignedStudentsOf.
  rewrite sortByNumber_perm, !list_elem_of_In, filter_In.
  by rewrite negb_true_iff.
Qed.

(** X19. Closing the result dialog moves on to an unassigned student other
    than the one selected; it announces that everything is decided exactly
    when no such student exists, and then keeps the selection while clearing
    the student shown as up for assignment. *)
Theorem handleCloseResultModal_next_student (st : State) :
  match handleCloseResultModal sortByNumber st with
  | NextStudent st' =>
      ∃ next,
        next ∈ students st ∧ Student.isAssigned next = false
        ∧ (∀ sel, selectedStudentForAssignment st = Some sel →
                  Student.id next ≠ Student.id sel)
        ∧ selectedStudentForAssignment st' = Some next
        ∧ Roulette.currentAssigningStudent (rouletteState st') = Some next
        ∧ Roulette.isStopped (rouletteState st') = false
        ∧ openResultModal st' = false
        ∧ sameAssignments st st'
  | AllDecided st' =>
      (∀ s, s ∈ students st → Student.isAssigned s = false →
         ∃ sel, selectedStudentForAssignment st = Some sel
                ∧ Student.id s = Student.id sel)
      ∧ selectedStudentForAssignment st' = selectedStudentForAssignment st
      ∧ Roulette.currentAssigningStudent (rouletteState st') = None
      ∧ Roulette.isStopped (rouletteState st') = true
      ∧ openResultModal st' = false
      ∧ sameAssignments st st'
  end.
Proof.
  unfold handleCloseResultModal.
  destruct (List.find _ _) as [next|] eqn:Hfind.
  - apply find_some in Hfind as [Hin Hdiff].
    apply list_elem_of_In, elem_of_unassignedStudents in Hin as [Hin Hun].
    exists next. do 2 (split; [done|]). split; [|done].
    intros sel Hsel. rewrite Hsel in Hdiff. cbn in Hdiff.
    by apply negb_true_iff, bool_decide_eq_false in Hdiff.
  - split; [|done]. intros s Hs Hun.
    assert (s ∈ unassignedStudents sortByNumber st) as Hin
      by by apply elem_of_unassignedStudents.
    apply list_elem_of_In in Hin.
    pose proof (find_none _ _ Hfind s Hin) as Hsame.
    destruct (selectedStudentForAssignment st) as [sel|]; [|done].
    exists sel. split; [done|]. cbn in Hsame.
    by apply negb_false_iff, bool_decide_eq_true in Hsame.
Qed.

End ScreenProperties.

(** ** Moving a student on the seating chart *)

Section MoveStudent.

Variables (students : list Student.t) (seatMap : list Seat.t).
Variables (draggedStudentId fromSeatId toSeatId : string).

Hypothesis Hcons : consistent students seatMap.
Hypothesis Hdragged : holdsSeat students draggedStudentId fromSeatId.
Hypothesis Hne : fromSeatId ≠ toSeatId.

Local Abbreviation moved :=
  (movedRecord students draggedStudentId fromSeatId toSeatId).

Lemma same_id_same_student (s1 s2 : Student.t) :
  s1 ∈ students → s2 ∈ students → Student.id s1 = Student.id s2 → s1 = s2.
Proof. destruct Hcons as [[Hnodup _] _]. by apply elem_same_id. Qed.

Lemma same_seat_same_student (s1 s2 : Student.t) (seatId : string) :
  s1 ∈ students → s2 ∈ students →
  Student.assignedSeatId s1 = Some seatId →
  Student.assignedSeatId s2 = Some seatId → s1 = s2.
Proof.
  destruct Hcons as (_ & _ & Hexcl & _).
  intros [i H1]%list_elem_of_lookup_1 [j H2]%list_elem_of_lookup_1 Hs1 Hs2.
  assert (i = j) as -> by by eapply Hexcl.
  congruence.
Qed.

Lemma studentAt_Some (other : Student.t) :
  studentAt students toSeatId = Some other →
  other ∈ students ∧ Student.assignedSeatId other = Some toSeatId.
Proof.
  unfold studentAt. intros [Hin Heq]%find_some.
  by rewrite list_elem_of_In, <-(bool_decide_eq_true _).
Qed.

Lemma studentAt_holder (s : Student.t) :
  s ∈ students → Student.assignedSeatId s = Some toSeatId →
  studentAt students toSeatId = Some s.
Proof.
  intros Hs Hheld.
  destruct (studentAt students toSeatId) as [other|] eqn:Hat.
  - apply studentAt_Some in Hat as [Hin Hother].
    f_equal. by apply (same_seat_same_student _ _ toSeatId).
  - unfold studentAt in Hat. apply list_elem_of_In in Hs.
    pose proof (find_none _ _ Hat s Hs) as Hno.
    by apply bool_decide_eq_false in Hno.
Qed.

(** What the drop does to one record: the student on the target seat
    goes to the source seat, the dragged student to the target seat, and
    every other record, holding neither seat, stays as it is. *)
Lemma moved_cases (s : Student.t) :
  s ∈ students →
  (studentAt students toSeatId = Some s ∧ moved s = sitAt fromSeatId s)
  ∨ (Student.id s = draggedStudentId
     ∧ Student.assignedSeatId s = Some fromSeatId
     ∧ moved s = sitAt toSeatId s)
  ∨ (Student.id s ≠ draggedStudentId
     ∧ Student.assignedSeatId s ≠ Some fromSeatId
     ∧ Student.assignedSeatId s ≠ Some toSeatId
     ∧ moved s = s).
Proof.
  intros Hs. destruct Hdragged as (d & Hd & Hdid & Hdseat).
  unfold movedRecord.
  destruct (studentAt students toSeatId) as [other|] eqn:Hat.
  - pose proof (studentAt_Some _ Hat) as [Hother Hoseat].
    destruct (decide (Student.id s = Student.id other)) as [Heq|Hneq].
    + left. assert (s = other) as -> by by apply same_id_same_student.
      split; [done|]. unfold moveStudentTo.
      destruct (bool_decide (Student.id other = draggedStudentId)); cbn;
        by rewrite bool_decide_eq_true_2.
    + right. unfold moveStudentTo.
      destruct (decide (Student.id s = draggedStudentId)) as [Hid|Hnid].
      * left. assert (s = d) as -> by (apply same_id_same_student; congruence).
        rewrite (bool_decide_eq_true_2 _ Hid). cbn.
        by rewrite (bool_decide_eq_false_2 _ Hneq).
      * right. rewrite (bool_decide_eq_false_2 _ Hnid).
        rewrite (bool_decide_eq_false_2 _ Hneq).
        split; [done|]. split; [|split; [|done]].
        -- intros Hheld. apply Hnid.
           by rewrite (same_seat_same_student s d fromSeatId).
        -- intros Hheld. apply Hneq.
           by rewrite (same_seat_same_student s other toSeatId).
  - right. unfold moveStudentTo.
    destruct (decide (Student.id s = draggedStudentId)) as [Hid|Hnid].
    + left. assert (s = d) as -> by (apply same_id_same_student; congruence).
      by rewrite (bool_decide_eq_true_2 _ Hid).
    + right. rewrite (bool_decide_eq_false_2 _ Hnid).
      split; [done|]. split; [|split; [|done]].
      * intros Hheld. apply Hnid.
        by rewrite (same_seat_same_student s d fromSeatId).
      * intros Hheld. by rewrite (studentAt_holder s) in Hat.
Qed.

Lemma moved_id (s : Student.t) : Student.id (moved s) = Student.id s.
Proof.
  unfold movedRecord, moveStudentTo.
  destruct (studentAt students toSeatId) as [other|];
    repeat (destruct (bool_decide _); cbn); done.
Qed.

Lemma moved_isAssigned (s : Student.t) :
  Student.isAssigned (moved s) = Student.isAssigned s.
Proof.
  unfold movedRecord, moveStudentTo.
  destruct (studentAt students toSeatId) as [other|];
    repeat (destruct (bool_decide _); cbn); done.
Qed.

(** Where a record sits after the drop. *)
Lemma moved_seat (s : Student.t) (seatId : string) :
  s ∈ students →
  Student.assignedSeatId (moved s) = Some seatId →
  (seatId = fromSeatId ∧ studentAt students toSeatId = Some s)
  ∨ (seatId = toSeatId ∧ Student.id s = draggedStudentId)
  ∨ (seatId ≠ fromSeatId ∧ seatId ≠ toSeatId
     ∧ Student.assignedSeatId s = Some seatId ∧ moved s = s).
Proof.
  intros Hs.
  destruct (moved_cases s Hs)
    as [[Hat ->]|[(Hid & _ & ->)|(Hnid & Hnfrom & Hnto & ->)]]; cbn.
  - intros [= <-]. by left.
  - intros [= <-]. right. by left.
  - intros Hheld. right. right.
    split; [congruence|]. split; [congruence|done].
Qed.

Lemma moved_consistent :
  consistent (moved <$> students)
    (setSeatHolder toSeatId (Some draggedStudentId)
     <$> (setSeatHolder fromSeatId
            (Student.id <$> studentAt students toSeatId) <$> seatMap)).
Proof.
  pose proof Hcons as ([Hnodup Hnonempty] & Hflags & Hexcl & Hrec).
  split; [split|split; [|split]].
  - rewrite <-list_fmap_compose.
    by rewrite (list_fmap_ext _ Student.id students)
      by (intros i s _; apply moved_id).
  - intros s' (s & -> & Hs)%list_elem_of_fmap. rewrite moved_id.
    by apply Hnonempty.
  - intros s' (s & -> & Hs)%list_elem_of_fmap. rewrite moved_isAssigned.
    destruct (moved_cases s Hs)
      as [[Hat ->]|[(Hid & Hseat & ->)|(_ & _ & _ & ->)]]; cbn.
    + apply studentAt_Some in Hat as [_ Hseat].
      rewrite (Hflags s Hs), Hseat. by split.
    + rewrite (Hflags s Hs), Hseat. by split.
    + by apply Hflags.
  - intros i j s1' s2' seatId H1 H2.
    rewrite list_lookup_fmap in H1, H2.
    destruct (students !! i) as [s1|] eqn:Hs1; [|done].
    destruct (students !! j) as [s2|] eqn:Hs2; [|done].
    cbn in H1, H2. injection H1 as <-. injection H2 as <-.
    pose proof (list_elem_of_lookup_2 _ _ _ Hs1) as Hin1.
    pose proof (list_elem_of_lookup_2 _ _ _ Hs2) as Hin2.
    intros Hheld1 Hheld2.
    assert (Student.id s1 = Student.id s2) as Hid;
      [|by eapply (lookup_same_id students)].
    destruct (moved_seat s1 seatId Hin1 Hheld1)
      as [[Heq1 Hat1]|[[Heq1 Hid1]|(Hnf1 & Hnt1 & Hold1 & _)]],
      (moved_seat s2 seatId Hin2 Hheld2)
      as [[Heq2 Hat2]|[[Heq2 Hid2]|(Hnf2 & Hnt2 & Hold2 & _)]];
      try congruence.
    f_equal. by apply (same_seat_same_student s1 s2 seatId).
  - intros s' seat' (s & -> & Hs)%list_elem_of_fmap
      (seat1 & -> & (seat & -> & Hseat)%list_elem_of_fmap)%list_elem_of_fmap.
    rewrite moved_id. unfold setSeatHolder.
    destruct (bool_decide (Seat.seatId seat = fromSeatId)) eqn:Hfrom; cbn.
    + apply bool_decide_eq_true in Hfrom.
      rewrite bool_decide_eq_false_2 by congruence. cbn. rewrite Hfrom.
      intros Hheld.
      destruct (moved_seat s fromSeatId Hs Hheld)
        as [[_ ->]|[[? _]|(? & _)]]; done.
    + apply bool_decide_eq_false in Hfrom.
      destruct (bool_decide (Seat.seatId seat = toSeatId)) eqn:Hto; cbn.
      * apply bool_decide_eq_true in Hto. rewrite Hto. intros Hheld.
        destruct (moved_seat s toSeatId Hs Hheld)
          as [[? _]|[[_ ->]|(_ & ? & _)]]; done.
      * apply bool_decide_eq_false in Hto. intros Hheld.
        destruct (moved_seat s _ Hs Hheld)
          as [[? _]|[[? _]|(_ & _ & Hold & _)]]; [done..|].
        by apply Hrec.
Qed.

Lemma moved_holds_target :
  holdsSeat (moved <$> students) draggedStudentId toSeatId.
Proof.
  destruct Hdragged as (d & Hd & Hdid & Hdseat).
  exists (moved d). split; [apply list_elem_of_fmap; by exists d|].
  rewrite moved_id. split; [done|].
  destruct (moved_cases d Hd)
    as [[Hat _]|[(_ & _ & ->)|(Hnid & _)]]; [|done..].
  apply studentAt_Some in Hat as [_ Hat]. congruence.
Qed.

Lemma moved_holds_source (otherId : string) :
  holdsSeat students otherId toSeatId →
  holdsSeat (moved <$> students) otherId fromSeatId.
Proof.
  intros (other & Hother & <- & Hseat).
  exists (moved other). split; [apply list_elem_of_fmap; by exists other|].
  rewrite moved_id. split; [done|].
  destruct (moved_cases other Hother)
    as [[_ ->]|[(_ & ? & _)|(_ & _ & ? & _)]]; [done|congruence|done].
Qed.

(** The holder of the source seat after the drop is the student who
    held the target seat. *)
Lemma studentAt_moved :
  studentAt (moved <$> students) fromSeatId
  = moved <$> studentAt students toSeatId.
Proof.
  unfold studentAt at 1 2.
  assert (∀ l, (∀ s, s ∈ l → s ∈ students) →
            List.find
              (λ s, bool_decide (Student.assignedSeatId s = Some fromSeatId))
              (moved <$> l)
            = moved
              <$> List.find
                    (λ s,
                       bool_decide (Student.assignedSeatId s = Some toSeatId))
                    l) as Hfind; [|by apply Hfind].
  induction l as [|s l IH]; intros Hl; [done|].
  cbn [fmap list_fmap List.find].
  assert (s ∈ students) as Hs by (apply Hl; by left).
  assert (bool_decide (Student.assignedSeatId (moved s) = Some fromSeatId)
          = bool_decide (Student.assignedSeatId s = Some toSeatId)) as ->.
  { apply bool_decide_ext. split.
    - intros Hheld.
      destruct (moved_seat s fromSeatId Hs Hheld)
        as [[_ Hat]|[[? _]|(? & _)]]; [|done..].
      by apply studentAt_Some in Hat as [_ Hat].
    - intros Hheld. apply studentAt_holder in Hheld; [|done].
      destruct (moved_cases s Hs)
        as [[_ ->]|[(_ & ? & _)|(_ & _ & ? & _)]]; [done|..].
      + apply studentAt_Some in Hheld as [_ Hheld]. congruence.
      + by apply studentAt_Some in Hheld as [_ Hheld]. }
  destruct (bool_decide (Student.assignedSeatId s = Some toSeatId)); [done|].
  apply IH. intros s' Hs'. apply Hl. by right.
Qed.

End MoveStudent.

Lemma handleMoveStudent_moved (draggedStudentId fromSeatId toSeatId : string)
    (st : State) :
  fromSeatId ≠ toSeatId →
  handleMoveStudent AppPhase.chart (Some toSeatId) draggedStudentId
    fromSeatId st
  = setSeatMap
      (setSeatHolder toSeatId (Some draggedStudentId)
       <$> (setSeatHolder fromSeatId
              (Student.id <$> studentAt (students st) toSeatId)
            <$> seatMap st))
      (setStudents
         (movedRecord (students st) draggedStudentId fromSeatId toSeatId
          <$> students st) st).
Proof.
  intros Hne. unfold handleMoveStudent.
  rewrite (bool_decide_eq_false_2 _ Hne). do 2 f_equal.
  unfold movedRecord.
  destruct (studentAt (students st) toSeatId) as [other|]; [|done].
  by rewrite <-list_fmap_compose.
Qed.

(** X20. A drop on the seating chart keeps the assignment invariant: when
    the dragged student holds the seat the drag starts from, the state after
    the drop is consistent again; the dragged student then holds the target
    seat, and whoever held the target seat holds the source seat. *)
Theorem handleMoveStudent_swaps_consistently (appPhase : AppPhase.t)
    (destination : option string) (draggedStudentId fromSeatId : string)
    (st : State) :
  Consistent st →
  holdsSeat (students st) draggedStudentId fromSeatId →
  Consistent
    (handleMoveStudent appPhase destination draggedStudentId fromSeatId st)
  ∧ ∀ toSeatId,
      appPhase = AppPhase.chart → destination = Some toSeatId →
      holdsSeat
        (students
           (handleMoveStudent appPhase destination draggedStudentId
              fromSeatId st))
        draggedStudentId toSeatId
      ∧ ∀ otherId,
          holdsSeat (students st) otherId toSeatId →
          holdsSeat
            (students
               (handleMoveStudent appPhase destination draggedStudentId
                  fromSeatId st))
            otherId fromSeatId.
Proof.
  intros Hcons Hdragged.
  destruct appPhase; try (split; [done|by intros ? [=]]).
  destruct destination as [toSeatId|]; [|by split].
  destruct (decide (fromSeatId = toSeatId)) as [<-|Hne].
  { unfold handleMoveStudent. rewrite bool_decide_eq_true_2 by done.
    split; [done|]. by intros ? _ [= <-]. }
  rewrite handleMoveStudent_moved by done. split.
  - by apply moved_consistent.
  - intros ? _ [= <-]. cbn. split.
    + by apply (moved_holds_target _ (seatMap st)).
    + intros otherId. by apply (moved_holds_source _ (seatMap st)).
Qed.

Lemma fmap_fixed {A} (f : A → A) (l : list A) :
  (∀ x, x ∈ l → f x = x) → f <$> l = l.
Proof.
  induction l as [|x l IH]; intros Hfix; [done|].
  cbn. rewrite (Hfix x) by by left.
  f_equal. apply IH. intros y Hy. apply Hfix. by right.
Qed.

Lemma setSeatHolder_there_and_back (fromSeatId toSeatId : string)
    (h1 h2 h3 h4 : option string) (seat : Seat.t) :
  fromSeatId ≠ toSeatId →
  (Seat.seatId seat = fromSeatId → Seat.assignedStudentId seat = h4) →
  (Seat.seatId seat = toSeatId → Seat.assignedStudentId seat = h3) →
  setSeatHolder fromSeatId h4
    (setSeatHolder toSeatId h3
       (setSeatHolder toSeatId h2 (setSeatHolder fromSeatId h1 seat)))
  = seat.
Proof.
  intros Hne Hfrom Hto. destruct seat as [sid row col holder usable].
  cbn in Hfrom, Hto. unfold setSeatHolder.
  destruct (decide (sid = fromSeatId)) as [->|Hnfrom];
    [|destruct (decide (sid = toSeatId)) as [->|Hnto]]; cbn.
  - rewrite (bool_decide_eq_true_2 (fromSeatId = fromSeatId)) by done. cbn.
    rewrite (bool_decide_eq_false_2 (fromSeatId = toSeatId)) by done. cbn.
    rewrite (bool_decide_eq_false_2 (fromSeatId = toSeatId)) by done. cbn.
    rewrite (bool_decide_eq_true_2 (fromSeatId = fromSeatId)) by done.
    by rewrite Hfrom.
  - rewrite (bool_decide_eq_false_2 (toSeatId = fromSeatId)) by done. cbn.
    rewrite (bool_decide_eq_true_2 (toSeatId = toSeatId)) by done. cbn.
    rewrite (bool_decide_eq_true_2 (toSeatId = toSeatId)) by done. cbn.
    rewrite (bool_decide_eq_false_2 (toSeatId = fromSeatId)) by done.
    by rewrite Hto.
  - rewrite (bool_decide_eq_false_2 (sid = fromSeatId)) by done. cbn.
    rewrite (bool_decide_eq_false_2 (sid = toSeatId)) by done. cbn.
    rewrite (bool_decide_eq_false_2 (sid = toSeatId)) by done. cbn.
    by rewrite (bool_decide_eq_false_2 (sid = fromSeatId)) by done.
Qed.

Lemma sitAt_back (s : Student.t) (seatId seatId' : string) :
  Student.assignedSeatId s = Some seatId →
  sitAt seatId (sitAt seatId' s) = s.
Proof. destruct s. cbn. by intros ->. Qed.

(** X21. Dragging the student back undoes the drop: in a consistent state
    whose seat records name only holders, moving a student from one seat to
    another and then back gives the state before the first drop, also when
    the two students of a swap change places. *)
Theorem handleMoveStudent_back_restores (draggedStudentId fromSeatId
    toSeatId : string) (st : State) :
  Consistent st →
  seatRecordsSound (students st) (seatMap st) →
  holdsSeat (students st) draggedStudentId fromSeatId →
  handleMoveStudent AppPhase.chart (Some fromSeatId) draggedStudentId
    toSeatId
    (handleMoveStudent AppPhase.chart (Some toSeatId) draggedStudentId
       fromSeatId st)
  = st.
Proof.
  intros Hcons Hsound Hdragged.
  destruct (decide (fromSeatId = toSeatId)) as [<-|Hne].
  { unfold handleMoveStudent. by rewrite !bool_decide_eq_true_2. }
  rewrite (handleMoveStudent_moved _ fromSeatId toSeatId) by done.
  rewrite handleMoveStudent_moved by done. cbn -[studentAt movedRecord].
  pose proof Hcons as ([Hnodup _] & _ & _ & Hrec).
  pose proof Hdragged as (d & Hd & Hdid & Hdseat).
  assert (movedRecord
            (movedRecord (students st) draggedStudentId fromSeatId toSeatId
             <$> students st)
            draggedStudentId toSeatId fromSeatId
          <$> (movedRecord (students st) draggedStudentId fromSeatId toSeatId
               <$> students st)
          = students st) as ->.
  { rewrite <-list_fmap_compose.
    apply fmap_fixed. intros s Hs. cbn.
    unfold movedRecord at 1.
    rewrite (studentAt_moved _ (seatMap st) _ _ _ Hcons Hdragged Hne).
    destruct (moved_cases _ (seatMap st) _ _ toSeatId Hcons Hdragged s Hs)
      as [[Hat Hmoved]|[(Hid & Hseat & Hmoved)|(Hnid & Hnf & Hnt & Hmoved)]].
    - pose proof (studentAt_Some _ _ _ Hat) as [_ Hto].
      assert (Student.id s ≠ draggedStudentId) as Hnid.
      { intros Heq.
        assert (s = d) as ->
          by (apply (elem_same_id (students st)); congruence).
        congruence. }
      rewrite Hat. cbn. rewrite Hmoved. unfold moveStudentTo. cbn.
      rewrite (bool_decide_eq_false_2 _ Hnid). cbn.
      rewrite bool_decide_eq_true_2 by done. by apply sitAt_back.
    - assert (∀ other, studentAt (students st) toSeatId = Some other →
                       Student.id other ≠ Student.id s) as Hother.
      { intros other Hat Heq.
        pose proof (studentAt_Some _ _ _ Hat) as [Hin Hto].
        assert (other = s) as -> by by apply (elem_same_id (students st)).
        congruence. }
      rewrite Hmoved. unfold moveStudentTo. cbn.
      rewrite (bool_decide_eq_true_2 _ Hid).
      destruct (studentAt (students st) toSeatId) as [other|] eqn:Hat; cbn.
      + rewrite moved_id.
        rewrite bool_decide_eq_false_2 by (intros Heq; by apply (Hother other)).
        by apply sitAt_back.
      + by apply sitAt_back.
    - rewrite Hmoved. unfold moveStudentTo.
      rewrite (bool_decide_eq_false_2 _ Hnid).
      destruct (studentAt (students st) toSeatId) as [other|] eqn:Hat; cbn;
        [|done].
      rewrite moved_id.
      rewrite bool_decide_eq_false_2; [done|].
      intros Heq. pose proof (studentAt_Some _ _ _ Hat) as [Hin Hto].
      assert (s = other) as -> by by apply (elem_same_id (students st)).
      done. }
  assert (setSeatHolder fromSeatId (Some draggedStudentId)
          <$> (setSeatHolder toSeatId
                 (Student.id
                  <$> studentAt
                        (movedRecord (students st) draggedStudentId fromSeatId
                           toSeatId <$> students st) fromSeatId)
               <$> (setSeatHolder toSeatId (Some draggedStudentId)
                    <$> (setSeatHolder fromSeatId
                           (Student.id <$> studentAt (students st) toSeatId)
                         <$> seatMap st)))
          = seatMap st) as ->; [|by destruct st].
  rewrite (studentAt_moved _ (seatMap st) _ _ _ Hcons Hdragged Hne).
  rewrite <-!list_fmap_compose.
  apply fmap_fixed. intros seat Hseat. unfold compose.
  apply setSeatHolder_there_and_back; [done|..].
  - intros Hfrom. rewrite <-Hdid. apply (Hrec d seat); [done..|congruence].
  - intros Hto.
    destruct (studentAt (students st) toSeatId) as [other|] eqn:Hat; cbn.
    + rewrite moved_id.
      pose proof (studentAt_Some _ _ _ Hat) as [Hin Hheld].
      apply (Hrec other seat); [done..|congruence].
    + destruct (Seat.assignedStudentId seat) as [studentId|] eqn:Hholder;
        [|done].
      destruct (Hsound seat studentId Hseat Hholder) as (s & Hs & _ & Hheld).
      rewrite Hto in Hheld.
      by rewrite (studentAt_holder _ (seatMap st) _ Hcons s Hs Hheld) in Hat.
Qed.

(** ** Reset after draws and batches *)

Lemma clearSeat_sameSeat (seatMap seatMap' : list Seat.t) :
  Forall2 sameSeat seatMap seatMap' →
  clearSeat <$> seatMap' = clearSeat <$> seatMap.
Proof.
  induction 1 as [|seat seat' l l' (Hid & Hrow & Hcol & Husable) _ IH];
    [done|].
  cbn. rewrite IH. f_equal. unfold clearSeat. congruence.
Qed.

Lemma clearStudent_stillAssigned (students students' : list Student.t) :
  Forall2 stillAssigned students students' →
  clearStudent <$> students' = clearStudent <$> students.
Proof.
  induction 1
    as [|s s' l l' (Hid & Hnum & Hname & Hkana & H1 & H2 & H3 & _) _ IH];
    [done|].
  cbn. rewrite IH. f_equal. unfold clearStudent. congruence.
Qed.

Lemma handleResetRoulette_after_additions
    (sortByNumber : list Student.t → list Student.t) (st st' : State) :
  onlyAddsAssignments st st' →
  setOpenResultModal (openResultModal st)
    (handleResetRoulette sortByNumber true st')
  = handleResetRoulette sortByNumber true st.
Proof.
  intros (Hseats & Hstudents & _ & Hrels & Hfixed).
  unfold handleResetRoulette.
  rewrite (clearSeat_sameSeat _ _ Hseats).
  rewrite (clearStudent_stillAssigned _ _ Hstudents).
  destruct st, st'. cbn in *. by subst.
Qed.

(** X22. Reset undoes draws and batches: resetting after a draw or after a
    batch assignment gives the state that resetting before it gives (the
    flag of the result dialog apart, which a draw sets and reset leaves
    alone). *)
Theorem handleResetRoulette_undoes_draw_and_batch
    (sortByNumber : list Student.t → list Student.t)
    (shuffle : list Seat.t → list Seat.t) (confirmed : bool)
    (rndStudents rndSeats : nat → nat) (st : State) :
  setOpenResultModal (openResultModal st)
    (handleResetRoulette sortByNumber true (stopRoulette shuffle st))
  = handleResetRoulette sortByNumber true st
  ∧ setOpenResultModal (openResultModal st)
      (handleResetRoulette sortByNumber true
         (handleBulkAssign sortByNumber confirmed rndStudents rndSeats st))
    = handleResetRoulette sortByNumber true st.
Proof.
  split; apply handleResetRoulette_after_additions;
    [apply stopRoulette_onlyAdds|apply handleBulkAssign_onlyAdds].
Qed.

(** ** The generated seat map *)

Lemma length_loopIndices (bound : Z) :
  length (loopIndices bound) = Z.to_nat bound.
Proof. apply length_seq. Qed.

Lemma elem_of_loopIndices (bound : Z) (i : nat) :
  i ∈ loopIndices bound ↔ (Z.of_nat i + 1 ≤ bound)%Z.
Proof.
  unfold loopIndices. rewrite list_elem_of_In, in_seq. lia.
Qed.

Lemma length_flat_map_fmap {A B C} (f : A → B → C) (l1 : list A)
    (l2 : list B) :
  length (flat_map (λ a, f a <$> l2) l1) = (length l1 * length l2)%nat.
Proof.
  induction l1 as [|a l1 IH]; [done|].
  cbn. by rewrite length_app, length_fmap, IH.
Qed.

Lemma elem_of_flat_map_fmap {A B C} (f : A → B → C) (l1 : list A)
    (l2 : list B) (x : C) :
  x ∈ flat_map (λ a, f a <$> l2) l1
  ↔ ∃ a b, a ∈ l1 ∧ b ∈ l2 ∧ x = f a b.
Proof.
  rewrite list_elem_of_In, in_flat_map. split.
  - intros (a & Ha & Hx). apply list_elem_of_In, list_elem_of_fmap in Hx
      as (b & -> & Hb).
    exists a, b. by rewrite list_elem_of_In.
  - intros (a & b & Ha & Hb & ->). exists a.
    rewrite <-!list_elem_of_In. split; [done|].
    apply list_elem_of_fmap. by exists b.
Qed.

Lemma NoDup_flat_map_fmap {A B C} (f : A → B → C) (l1 : list A)
    (l2 : list B) :
  (∀ a a' b b', f a b = f a' b' → a = a' ∧ b = b') →
  NoDup l1 → NoDup l2 →
  NoDup (flat_map (λ a, f a <$> l2) l1).
Proof.
  intros Hinj Hl1 Hl2. induction Hl1 as [|a l1 Ha Hl1 IH]; [constructor|].
  cbn. apply NoDup_app. split; [|split; [|done]].
  - apply NoDup_fmap_2_strong; [|done].
    intros b b' _ _ Heq. by apply Hinj in Heq as [_ ?].
  - intros x (b & -> & Hb)%list_elem_of_fmap
      (a' & b' & Ha' & _ & Heq)%elem_of_flat_map_fmap.
    apply Hinj in Heq as [-> _]. done.
Qed.

Lemma seatId_newSeat (existingSeatMap : list Seat.t) (r c : nat) :
  Seat.seatId (SeatMapConfig.newSeat existingSeatMap r c)
  = seatIdOf (Z.of_nat r + 1) (Z.of_nat c + 1).
Proof. done. Qed.

Lemma elem_of_generateSeatMap (rows cols : Z)
    (existingSeatMap : list Seat.t) (seat : Seat.t) :
  seat ∈ SeatMapConfig.generateSeatMap rows cols existingSeatMap
  ↔ ∃ r c : nat,
      onGrid rows cols (Z.of_nat r + 1) (Z.of_nat c + 1)
      ∧ seat = SeatMapConfig.newSeat existingSeatMap r c.
Proof.
  unfold SeatMapConfig.generateSeatMap, onGrid.
  rewrite elem_of_flat_map_fmap.
  setoid_rewrite elem_of_loopIndices.
  split; intros (r & c & H); exists r, c; [|tauto].
  destruct H as (? & ? & ?). split; [|done]. lia.
Qed.

Lemma seatIdOf_nonempty (row col : Z) : seatIdOf row col ≠ "".
Proof. unfold seatIdOf. by change ("R" +:+ ?s) with (String "R" s). Qed.

Lemma generateSeatMap_ids_NoDup (rows cols : Z)
    (existingSeatMap : list Seat.t) :
  NoDup
    (Seat.seatId
     <$> SeatMapConfig.generateSeatMap rows cols existingSeatMap).
Proof.
  unfold SeatMapConfig.generateSeatMap.
  assert (∀ (l1 l2 : list nat),
            Seat.seatId
            <$> flat_map
                  (λ r, (λ c, SeatMapConfig.newSeat existingSeatMap r c) <$> l2)
                  l1
            = flat_map
                (λ r, (λ c, seatIdOf (Z.of_nat r + 1) (Z.of_nat c + 1)) <$> l2)
                l1) as ->.
  { intros l1 l2. induction l1 as [|r l1 IH]; [done|].
    cbn [flat_map]. rewrite fmap_app, IH. f_equal.
    by rewrite <-list_fmap_compose. }
  apply (NoDup_flat_map_fmap
           (λ r c, seatIdOf (Z.of_nat r + 1) (Z.of_nat c + 1)));
    [|apply NoDup_ListNoDup, seq_NoDup..].
  intros a a' b b' [Ha Hb]%seatIdOf_inj. lia.
Qed.

Lemma generateSeatMap_complete (rows cols : Z)
    (existingSeatMap : list Seat.t) (r c : Z) :
  onGrid rows cols r c →
  ∃ seat,
    seat ∈ SeatMapConfig.generateSeatMap rows cols existingSeatMap
    ∧ Seat.seatId seat = seatIdOf r c.
Proof.
  intros [Hr Hc].
  exists (SeatMapConfig.newSeat existingSeatMap (Z.to_nat (r - 1))
            (Z.to_nat (c - 1))).
  split.
  - apply elem_of_generateSeatMap. eexists _, _. split; [|done].
    unfold onGrid. lia.
  - rewrite seatId_newSeat. f_equal; lia.
Qed.

Section GeneratedSeatMap.

Variables (rows cols : Z) (existingSeatMap : list Seat.t).

Local Abbreviation generated :=
  (SeatMapConfig.generateSeatMap rows cols existingSeatMap).

(** X23. The map the layout screen builds is the grid: [rows * cols] seats
    with distinct, non-empty ids, each seat [R{r}C{c}] of the grid present
    once with its row and column, carrying the student and the usability
    flag of the seat with the same id in the existing map, and free and
    usable otherwise. A map the screen lets through has between 1 and 100
    seats. *)
Theorem generateSeatMap_is_grid :
  length generated = (Z.to_nat rows * Z.to_nat cols)%nat
  ∧ NoDup (Seat.seatId <$> generated)
  ∧ (∀ seat, seat ∈ generated →
       Seat.seatId seat = seatIdOf (Seat.row seat) (Seat.col seat)
       ∧ Seat.seatId seat ≠ ""
       ∧ onGrid rows cols (Seat.row seat) (Seat.col seat)
       ∧ match findSeat existingSeatMap (Seat.seatId seat) with
         | Some existingSeat =>
             Seat.assignedStudentId seat
             = Seat.assignedStudentId existingSeat
             ∧ Seat.isUsable seat = Seat.isUsable existingSeat
         | None =>
             Seat.assignedStudentId seat = None ∧ Seat.isUsable seat = true
         end)
  ∧ (∀ r c, onGrid rows cols r c →
       ∃ seat, seat ∈ generated ∧ Seat.seatId seat = seatIdOf r c)
  ∧ (∀ result,
       SeatMapConfig.handleGenerateClick rows cols generated = inr result →
       (1 ≤ length generated ≤ 100)%nat).
Proof.
  split; [|split; [|split; [|split]]].
  - unfold SeatMapConfig.generateSeatMap.
    by rewrite length_flat_map_fmap, !length_loopIndices.
  - apply generateSeatMap_ids_NoDup.
  - intros seat (r & c & Hgrid & ->)%elem_of_generateSeatMap.
    split; [done|]. split; [apply seatIdOf_nonempty|]. split; [done|].
    unfold SeatMapConfig.newSeat. cbn.
    by destruct (findSeat existingSeatMap _).
  - apply generateSeatMap_complete.
  - intros result. unfold SeatMapConfig.handleGenerateClick.
    do 2 case_bool_decide; cbn [orb]; try done.
    case_bool_decide as Hmax; [done|]. intros _.
    unfold SeatMapConfig.generateSeatMap.
    rewrite length_flat_map_fmap, !length_loopIndices.
    unfold MAX_SEATS in Hmax. nia.
Qed.

End GeneratedSeatMap.

(** ** Neighbours on a grid *)

Lemma sameLayout_ids (seatMap seatMap' : list Seat.t) :
  sameLayout seatMap seatMap' →
  Seat.seatId <$> seatMap' = Seat.seatId <$> seatMap.
Proof.
  unfold sameLayout. intros Hlayout.
  apply (f_equal (fmap (λ t : string * Z * Z, t.1.1))) in Hlayout.
  by rewrite <-!list_fmap_compose in Hlayout.
Qed.

Lemma elem_of_potentialAdjacents (row col r c : Z) :
  seatIdOf r c ∈ potentialAdjacents row col
  ↔ (Z.abs (row - r) + Z.abs (col - c) = 1)%Z.
Proof.
  unfold potentialAdjacents. rewrite !elem_of_cons, elem_of_nil. split.
  - intros [H|[H|[H|[H|[]]]]]; apply seatIdOf_inj in H; lia.
  - intros Hdist.
    destruct (decide (r = row - 1)%Z) as [->|?];
      [left; f_equal; lia|].
    destruct (decide (r = row + 1)%Z) as [->|?];
      [right; left; f_equal; lia|].
    destruct (decide (c = col - 1)%Z) as [->|?];
      [right; right; left; f_equal; lia|].
    right; right; right; left. f_equal; lia.
Qed.

(** X24. On a map laid out as the [rows] by [cols] grid, whatever is
    assigned or unusable, the neighbours of a seat are the seats of the grid
    one step up, down, left or right of it; being neighbours is symmetric
    between seats of the grid. *)
Theorem getAdjacentSeatIds_on_grid (rows cols : Z)
    (seatMap : list Seat.t) (row col : Z) :
  sameLayout (SeatMapConfig.generateSeatMap rows cols []) seatMap →
  (0 ≤ row)%Z → (0 ≤ col)%Z →
  (∀ x, x ∈ getAdjacentSeatIds (seatIdOf row col) seatMap →
     ∃ r c, x = seatIdOf r c ∧ onGrid rows cols r c)
  ∧ (∀ r c,
       seatIdOf r c ∈ getAdjacentSeatIds (seatIdOf row col) seatMap
       ↔ onGrid rows cols r c
         ∧ (Z.abs (row - r) + Z.abs (col - c) = 1)%Z)
  ∧ (∀ r c,
       onGrid rows cols row col →
       seatIdOf r c ∈ getAdjacentSeatIds (seatIdOf row col) seatMap →
       seatIdOf row col ∈ getAdjacentSeatIds (seatIdOf r c) seatMap).
Proof.
  intros Hlayout%sameLayout_ids Hrow Hcol.
  assert (∀ x, (∃ seat, seat ∈ seatMap ∧ Seat.seatId seat = x)
               ↔ ∃ r c, x = seatIdOf r c ∧ onGrid rows cols r c) as Hseats.
  { intros x. split.
    - intros (seat & Hin & <-).
      assert (Seat.seatId seat ∈ Seat.seatId <$> seatMap) as Hid
        by (apply list_elem_of_fmap; by exists seat).
      rewrite Hlayout in Hid.
      apply list_elem_of_fmap in Hid as (seat' & -> & Hin').
      apply elem_of_generateSeatMap in Hin' as (r & c & Hgrid & ->).
      by eexists _, _.
    - intros (r & c & -> & Hgrid).
      destruct (generateSeatMap_complete rows cols [] r c Hgrid)
        as (seat' & Hin' & Hid').
      assert (seatIdOf r c ∈ Seat.seatId <$> seatMap) as Hid.
      { rewrite Hlayout. apply list_elem_of_fmap. by exists seat'. }
      apply list_elem_of_fmap in Hid as (seat & Heq & Hin).
      by exists seat. }
  assert (∀ row col r c, (0 ≤ row)%Z → (0 ≤ col)%Z →
            seatIdOf r c ∈ getAdjacentSeatIds (seatIdOf row col) seatMap
            ↔ onGrid rows cols r c
              ∧ (Z.abs (row - r) + Z.abs (col - c) = 1)%Z) as Hadj.
  { intros row' col' r c Hrow' Hcol'.
    rewrite elem_of_getAdjacentSeatIds_seatIdOf by done.
    rewrite elem_of_potentialAdjacents, Hseats. split.
    - intros [Hdist (r' & c' & [-> ->]%seatIdOf_inj & Hgrid)]. by split.
    - intros [Hgrid Hdist]. split; [done|]. by exists r, c. }
  split; [|split].
  - intros x [_ Hseat]%elem_of_getAdjacentSeatIds_seatIdOf; [|done..].
    by apply Hseats.
  - intros r c. by apply Hadj.
  - intros r c Hgrid [[Hr Hc] Hdist]%Hadj; [|done..].
    apply Hadj; [lia..|]. split; [done|lia].
Qed.

(** ** Reopening the layout screen *)

Lemma maxOf_spec (first : Z) (rest : list Z) (m : Z) :
  (∀ x, x ∈ first :: rest → (x ≤ m)%Z) →
  m ∈ first :: rest →
  maxOf first rest = m.
Proof.
  unfold maxOf. revert first.
  induction rest as [|y rest IH]; intros first Hle Hin.
  - by apply list_elem_of_singleton in Hin.
  - cbn [fold_left].
    pose proof (Hle first ltac:(by left)) as Hfirst.
    pose proof (Hle y ltac:(by right; left)) as Hy.
    apply IH.
    + intros x [->|Hx]%elem_of_cons; [lia|]. apply Hle. by do 2 right.
    + apply elem_of_cons.
      apply elem_of_cons in Hin as [->|[->|Hin]%elem_of_cons];
        [left; lia|left; lia|by right].
Qed.

Lemma findSeat_NoDup (seatMap : list Seat.t) (seat : Seat.t) :
  NoDup (Seat.seatId <$> seatMap) → seat ∈ seatMap →
  findSeat seatMap (Seat.seatId seat) = Some seat.
Proof.
  intros Hnodup Hin.
  destruct (findSeat_elem _ _ Hin) as [seat' Hfind].
  rewrite Hfind. f_equal.
  apply findSeat_Some in Hfind as [Hin' Hid].
  apply list_elem_of_lookup_1 in Hin as [i Hi].
  apply list_elem_of_lookup_1 in Hin' as [j Hj].
  assert (i = j) as ->; [|congruence].
  apply (NoDup_lookup _ i j (Seat.seatId seat) Hnodup);
    rewrite list_lookup_fmap; [by rewrite Hi|rewrite Hj; cbn; by rewrite Hid].
Qed.

Section Reopen.

Variables (rows cols : Z) (seatMap : list Seat.t).

Hypothesis Hlayout :
  sameLayout (SeatMapConfig.generateSeatMap rows cols []) seatMap.
Hypothesis Hrows : (1 ≤ rows)%Z.
Hypothesis Hcols : (1 ≤ cols)%Z.

Lemma layout_seat (seat : Seat.t) :
  seat ∈ seatMap →
  ∃ r c : nat,
    onGrid rows cols (Z.of_nat r + 1) (Z.of_nat c + 1)
    ∧ Seat.seatId seat = seatIdOf (Z.of_nat r + 1) (Z.of_nat c + 1)
    ∧ Seat.row seat = (Z.of_nat r + 1)%Z
    ∧ Seat.col seat = (Z.of_nat c + 1)%Z.
Proof.
  intros Hin.
  assert ((Seat.seatId seat, Seat.row seat, Seat.col seat)
          ∈ (λ seat, (Seat.seatId seat, Seat.row seat, Seat.col seat))
            <$> seatMap) as Hid
    by (apply list_elem_of_fmap; by exists seat).
  rewrite Hlayout in Hid.
  apply list_elem_of_fmap in Hid as (seat' & Heq & Hin').
  apply elem_of_generateSeatMap in Hin' as (r & c & Hgrid & ->).
  exists r, c. cbn in Heq. by simplify_eq.
Qed.

Lemma layout_complete (r c : Z) :
  onGrid rows cols r c →
  ∃ seat, seat ∈ seatMap ∧ Seat.seatId seat = seatIdOf r c.
Proof.
  intros Hgrid.
  destruct (generateSeatMap_complete rows cols [] r c Hgrid)
    as (seat' & Hin' & Hid').
  assert (seatIdOf r c ∈ Seat.seatId <$> seatMap) as Hid.
  { rewrite (sameLayout_ids _ _ Hlayout).
    apply list_elem_of_fmap. by exists seat'. }
  apply list_elem_of_fmap in Hid as (seat & Heq & Hin).
  by exists seat.
Qed.

Lemma layout_ids_NoDup : NoDup (Seat.seatId <$> seatMap).
Proof.
  rewrite (sameLayout_ids _ _ Hlayout). apply generateSeatMap_ids_NoDup.
Qed.

Lemma parsedRowOf_seatIdOf (seat : Seat.t) (r c : Z) :
  (0 ≤ r)%Z → (0 ≤ c)%Z → Seat.seatId seat = seatIdOf r c →
  parsedRowOf seat = r ∧ parsedColOf seat = c.
Proof.
  intros Hr Hc Hid. unfold parsedRowOf, parsedColOf. rewrite Hid.
  by destruct (matchSeatId_seatIdOf r c Hr Hc) as (m1 & m2 & -> & <- & <-).
Qed.

Lemma initialRows_layout : initialRows seatMap = rows.
Proof.
  unfold initialRows.
  destruct (layout_complete rows 1) as (top & Htop & Hidtop);
    [unfold onGrid; lia|].
  destruct (parsedRowOf <$> seatMap) as [|first rest] eqn:Hparsed.
  { apply fmap_nil_inv in Hparsed. rewrite Hparsed in Htop.
    by apply elem_of_nil in Htop. }
  apply maxOf_spec; rewrite <-Hparsed.
  - intros x (seat & -> & Hin)%list_elem_of_fmap.
    destruct (layout_seat seat Hin) as (r & c & [Hr Hc] & Hid & _).
    destruct (parsedRowOf_seatIdOf seat (Z.of_nat r + 1) (Z.of_nat c + 1)
                ltac:(lia) ltac:(lia) Hid)
      as [-> _].
    lia.
  - apply list_elem_of_fmap. exists top. split; [|done].
    by destruct (parsedRowOf_seatIdOf top rows 1 ltac:(lia) ltac:(lia) Hidtop)
      as [-> _].
Qed.

Lemma initialCols_layout : initialCols seatMap = cols.
Proof.
  unfold initialCols.
  destruct (layout_complete 1 cols) as (top & Htop & Hidtop);
    [unfold onGrid; lia|].
  destruct (parsedColOf <$> seatMap) as [|first rest] eqn:Hparsed.
  { apply fmap_nil_inv in Hparsed. rewrite Hparsed in Htop.
    by apply elem_of_nil in Htop. }
  apply maxOf_spec; rewrite <-Hparsed.
  - intros x (seat & -> & Hin)%list_elem_of_fmap.
    destruct (layout_seat seat Hin) as (r & c & [Hr Hc] & Hid & _).
    destruct (parsedRowOf_seatIdOf seat (Z.of_nat r + 1) (Z.of_nat c + 1)
                ltac:(lia) ltac:(lia) Hid)
      as [_ ->].
    lia.
  - apply list_elem_of_fmap. exists top. split; [|done].
    by destruct (parsedRowOf_seatIdOf top 1 cols ltac:(lia) ltac:(lia) Hidtop)
      as [_ ->].
Qed.

Lemma generateSeatMap_layout :
  SeatMapConfig.generateSeatMap rows cols seatMap = seatMap.
Proof.
  pose proof layout_ids_NoDup as Hnodup.
  assert (∀ l0 l : list Seat.t,
            (λ seat, (Seat.seatId seat, Seat.row seat, Seat.col seat)) <$> l
            = (λ seat, (Seat.seatId seat, Seat.row seat, Seat.col seat))
              <$> l0 →
            (∀ seat, seat ∈ l → seat ∈ seatMap) →
            (λ g, Seat.mk (Seat.seatId g) (Seat.row g) (Seat.col g)
                    (match findSeat seatMap (Seat.seatId g) with
                     | Some seat => Seat.assignedStudentId seat
                     | None => None
                     end)
                    (match findSeat seatMap (Seat.seatId g) with
                     | Some seat => Seat.isUsable seat
                     | None => true
                     end)) <$> l0
            = l) as Hrebuild.
  { induction l0 as [|g l0 IH]; intros [|seat l] Hkeys Hin; try done.
    cbn in Hkeys. injection Hkeys as Hid Hrow Hcol Hkeys.
    cbn [fmap list_fmap]. rewrite IH with (l := l);
      [|done|intros ? ?; apply Hin; by right].
    f_equal. rewrite <-Hid, <-Hrow, <-Hcol.
    rewrite (findSeat_NoDup seatMap seat Hnodup) by (apply Hin; by left).
    by destruct seat. }
  rewrite <-(Hrebuild (SeatMapConfig.generateSeatMap rows cols []) seatMap)
    at 2; [|done..].
  unfold SeatMapConfig.generateSeatMap.
  generalize (loopIndices rows). intros l1.
  induction l1 as [|r l1 IH]; [done|].
  cbn [flat_map]. rewrite fmap_app, <-IH. f_equal.
  by rewrite <-list_fmap_compose.
Qed.

End Reopen.

(** X25. Reopening the layout screen on a map laid out as a grid of at least
    one row and one column shows that very map: the row and column counts
    are recovered from the seat ids, and the regenerated map carries every
    student and every usability flag where it was. A click on a seat, a
    reset and an assignment keep the layout, so this holds for the map at
    any time. *)
Theorem reopenSeatMapConfig_reproduces (rows cols : Z)
    (seatMap : list Seat.t) :
  sameLayout (SeatMapConfig.generateSeatMap rows cols []) seatMap →
  (1 ≤ rows)%Z → (1 ≤ cols)%Z →
  initialRows seatMap = rows
  ∧ initialCols seatMap = cols
  ∧ reopenSeatMapConfig seatMap = seatMap
  ∧ (∀ seatId,
       sameLayout (SeatMapConfig.generateSeatMap rows cols [])
         (SeatMapConfig.handleSeatClick seatId seatMap))
  ∧ sameLayout (SeatMapConfig.generateSeatMap rows cols [])
      (clearSeat <$> seatMap)
  ∧ (∀ chosen studentId,
       sameLayout (SeatMapConfig.generateSeatMap rows cols [])
         (assignInSeatMap seatMap chosen studentId)).
Proof.
  intros Hlayout Hrows Hcols.
  pose proof (initialRows_layout rows cols seatMap Hlayout Hrows Hcols)
    as Hr.
  pose proof (initialCols_layout rows cols seatMap Hlayout Hrows Hcols)
    as Hc.
  split; [done|]. split; [done|]. split.
  { unfold reopenSeatMapConfig. rewrite Hr, Hc.
    by apply generateSeatMap_layout. }
  unfold sameLayout in *. rewrite <-Hlayout.
  split; [|split].
  - intros seatId. unfold SeatMapConfig.handleSeatClick.
    rewrite <-list_fmap_compose. apply list_fmap_ext. intros _ seat _.
    cbn. unfold SeatMapConfig.toggleUsable. by destruct (bool_decide _).
  - by rewrite <-list_fmap_compose.
  - intros chosen studentId. unfold assignInSeatMap.
    rewrite <-list_fmap_compose. apply list_fmap_ext. intros _ seat _.
    cbn. unfold assignSeat. by destruct (bool_decide _).
Qed.

(** ** Marking seats unusable *)

Lemma toggleUsable_other (seatId : string) (seatMap : list Seat.t) :
  seatId ∉ Seat.seatId <$> seatMap →
  SeatMapConfig.toggleUsable seatId <$> seatMap = seatMap.
Proof.
  intros Hnotin. apply fmap_fixed. intros seat Hin.
  unfold SeatMapConfig.toggleUsable.
  rewrite bool_decide_eq_false_2; [done|].
  intros Heq. apply Hnotin, list_elem_of_fmap. by exists seat.
Qed.

(** X26. A click on a seat of the layout screen flips the usability of the
    seats with that id and nothing else: a second click undoes the first, a
    click on an id that is not on the map changes nothing, and on a map with
    distinct ids the number of usable seats goes down by one when the seat
    was usable and up by one when it was not. *)
Theorem handleSeatClick_toggles (seatId : string) (seatMap : list Seat.t) :
  SeatMapConfig.handleSeatClick seatId
    (SeatMapConfig.handleSeatClick seatId seatMap) = seatMap
  ∧ (seatId ∉ Seat.seatId <$> seatMap →
     SeatMapConfig.handleSeatClick seatId seatMap = seatMap)
  ∧ (NoDup (Seat.seatId <$> seatMap) →
     ∀ seat, seat ∈ seatMap → Seat.seatId seat = seatId →
       if Seat.isUsable seat
       then S (SeatMapConfig.usableSeatCount
                 (SeatMapConfig.handleSeatClick seatId seatMap))
            = SeatMapConfig.usableSeatCount seatMap
       else SeatMapConfig.usableSeatCount
              (SeatMapConfig.handleSeatClick seatId seatMap)
            = S (SeatMapConfig.usableSeatCount seatMap)).
Proof.
  unfold SeatMapConfig.handleSeatClick, SeatMapConfig.usableSeatCount.
  split; [|split].
  - rewrite <-list_fmap_compose. apply fmap_fixed. intros seat _. cbn.
    unfold SeatMapConfig.toggleUsable.
    destruct (bool_decide (Seat.seatId seat = seatId)) eqn:Hid; cbn;
      rewrite Hid; [|done].
    destruct seat. cbn. by rewrite negb_involutive.
  - apply toggleUsable_other.
  - induction seatMap as [|first rest IH]; intros Hnodup seat Hin Hid.
    { by apply elem_of_nil in Hin. }
    cbn in Hnodup. apply NoDup_cons in Hnodup as [Hfirst Hnodup].
    apply elem_of_cons in Hin as [->|Hin].
    + cbn [fmap list_fmap]. rewrite toggleUsable_other by congruence.
      unfold SeatMapConfig.toggleUsable.
      rewrite (bool_decide_eq_true_2 _ Hid). cbn.
      by destruct (Seat.isUsable first).
    + assert (Seat.seatId first ≠ seatId) as Hne.
      { intros Heq. apply Hfirst. rewrite Heq, <-Hid.
        apply list_elem_of_fmap. by exists seat. }
      specialize (IH Hnodup seat Hin Hid).
      cbn [fmap list_fmap]. unfold SeatMapConfig.toggleUsable at 1 3.
      rewrite (bool_decide_eq_false_2 _ Hne). cbn.
      destruct (Seat.isUsable seat), (Seat.isUsable first); cbn; lia.
Qed.

(** ** The two versions of [getAdjacentSeatIds] *)

Lemma maxOf_ge (first : Z) (rest : list Z) (x : Z) :
  x ∈ first :: rest → (x ≤ maxOf first rest)%Z.
Proof.
  unfold maxOf. revert first x.
  induction rest as [|y rest IH]; intros first x.
  - by intros ->%list_elem_of_singleton.
  - cbn [fold_left]. intros [->|[->|Hin]%elem_of_cons]%elem_of_cons.
    + etrans; [|apply (IH _ (first `max` y)%Z); by left]. lia.
    + etrans; [|apply (IH _ (first `max` y)%Z); by left]. lia.
    + apply IH. by right.
Qed.

Lemma minOf_le (first : Z) (rest : list Z) (x : Z) :
  x ∈ first :: rest → (minOf first rest ≤ x)%Z.
Proof.
  unfold minOf. revert first x.
  induction rest as [|y rest IH]; intros first x.
  - by intros ->%list_elem_of_singleton.
  - cbn [fold_left]. intros [->|[->|Hin]%elem_of_cons]%elem_of_cons.
    + etrans; [apply (IH _ (first `min` y)%Z); by left|]. lia.
    + etrans; [apply (IH _ (first `min` y)%Z); by left|]. lia.
    + apply IH. by right.
Qed.

Lemma fold_left_pointwise {A B} (f g : A → B → A) (l : list B) (a : A) :
  (∀ acc x, x ∈ l → f acc x = g acc x) →
  fold_left f l a = fold_left g l a.
Proof.
  revert a. induction l as [|x l IH]; intros a Hfg; [done|].
  cbn. rewrite Hfg by by left. apply IH. intros acc y Hy. apply Hfg.
  by right.
Qed.

(** A candidate that is the id of a seat of the map lies within the
    bounds the second version computes. *)
Lemma within_bounds (seatMap : list Seat.t) (adjId a1 a2 : string) :
  matchSeatId adjId = Some (a1, a2) →
  someSeatWithId seatMap adjId = true →
  let allRows := parsedRowOf <$> seatMap in
  let allCols := parsedColOf <$> seatMap in
  (match allRows with [] => 0%Z | first :: rest => minOf first rest end
   ≤ parseInt a1
   ≤ match allRows with [] => 0%Z | first :: rest => maxOf first rest end)%Z
  ∧ (match allCols with [] => 0%Z | first :: rest => minOf first rest end
     ≤ parseInt a2
     ≤ match allCols with [] => 0%Z | first :: rest => maxOf first rest end)%Z.
Proof.
  intros Hmatch (seat & Hin & Hid)%someSeatWithId_true allRows allCols.
  assert (parseInt a1 ∈ allRows) as Hrow.
  { apply list_elem_of_fmap. exists seat. split; [|done].
    unfold parsedRowOf. by rewrite Hid, Hmatch. }
  assert (parseInt a2 ∈ allCols) as Hcol.
  { apply list_elem_of_fmap. exists seat. split; [|done].
    unfold parsedColOf. by rewrite Hid, Hmatch. }
  destruct allRows as [|r rows]; [by apply elem_of_nil in Hrow|].
  destruct allCols as [|c cols]; [by apply elem_of_nil in Hcol|].
  auto using maxOf_ge, minOf_le.
Qed.

(** X27. The second version of [getAdjacentSeatIds] gives the neighbours of
    the first version whose ids have the form [R{digits}C{digits}]: its
    bounds on rows and columns exclude nothing else. On a map all of whose
    seat ids have that form the two versions agree. *)
Theorem getAdjacentSeatIds_versions (seatId : string)
    (seatMap : list Seat.t) :
  SecondVersion.getAdjacentSeatIds seatId seatMap
  = List.filter matchesPattern (getAdjacentSeatIds seatId seatMap)
  ∧ ((∀ seat, seat ∈ seatMap → matchesPattern (Seat.seatId seat) = true) →
     SecondVersion.getAdjacentSeatIds seatId seatMap
     = getAdjacentSeatIds seatId seatMap).
Proof.
  assert (SecondVersion.getAdjacentSeatIds seatId seatMap
          = List.filter matchesPattern (getAdjacentSeatIds seatId seatMap))
    as Hfilter.
  { unfold SecondVersion.getAdjacentSeatIds.
    destruct (matchSeatId seatId) as [[m1 m2]|] eqn:Hm;
      [|unfold getAdjacentSeatIds; by rewrite Hm].
    rewrite (getAdjacentSeatIds_matched _ _ _ _ Hm).
    rewrite (fold_left_pointwise _
               (λ acc adjId,
                  if matchesPattern adjId
                     && (someSeatWithId seatMap adjId
                         && negb (bool_decide (adjId = seatId)))
                  then acc ++ [adjId] else acc)).
    - rewrite fold_left_push_filter. cbn [app].
      generalize (potentialAdjacents (parseInt m1) (parseInt m2)).
      intros l. induction l as [|x l IH]; [done|].
      cbn [List.filter].
      destruct (someSeatWithId seatMap x && negb (bool_decide (x = seatId)));
        cbn [List.filter]; rewrite ?andb_true_r, ?andb_false_r;
        destruct (matchesPattern x); by rewrite ?IH.
    - intros acc adjId _. unfold matchesPattern.
      destruct (matchSeatId adjId) as [[a1 a2]|] eqn:Hadj; [|done].
      cbn [andb].
      destruct (someSeatWithId seatMap adjId) eqn:Hsome;
        [|by rewrite !andb_false_r].
      destruct (within_bounds seatMap adjId a1 a2 Hadj Hsome)
        as [[H1 H2] [H3 H4]].
      by rewrite (bool_decide_eq_true_2 _ H1), (bool_decide_eq_true_2 _ H2),
        (bool_decide_eq_true_2 _ H3), (bool_decide_eq_true_2 _ H4). }
  split; [done|]. intros Hform. rewrite Hfilter.
  assert (∀ l : list string,
            (∀ x, x ∈ l → matchesPattern x = true) →
            List.filter matchesPattern l = l) as Hall.
  { induction l as [|x l IH]; intros Hl; [done|].
    cbn. rewrite (Hl x) by by left.
    f_equal. apply IH. intros y Hy. apply Hl. by right. }
  apply Hall. intros x Hx.
  destruct (matchSeatId seatId) as [[m1 m2]|] eqn:Hm;
    [|unfold getAdjacentSeatIds in Hx; rewrite Hm in Hx;
      by apply elem_of_nil in Hx].
  pose proof (proj1 (elem_of_getAdjacentSeatIds _ _ _ _ _ Hm) Hx)
    as (_ & (seat & Hin & Hid) & _).
  rewrite <-Hid. by apply Hform.
Qed.

(** Where the versions part: a seat in row 0 of a map that also has a
    seat with the id [R-1C1]. *)
Example getAdjacentSeatIds_versions_differ :
  getAdjacentSeatIds "R0C1"
    [seatAt 0 1 None true; seatAt (-1) 1 None true] = ["R-1C1"]
  ∧ SecondVersion.getAdjacentSeatIds "R0C1"
      [seatAt 0 1 None true; seatAt (-1) 1 None true] = [].
Proof. by vm_compute. Qed.

(** ** The fixed-seat screen *)

Lemma fixedAssignmentsUnique_delete (assignments : list FixedSeat.t)
    (i : nat) :
  fixedAssignmentsUnique assignments →
  fixedAssignmentsUnique (delete i assignments).
Proof.
  intros (Hstudents & Hseats & Hids). split; [|split].
  - rewrite list_fmap_delete.
    apply (sublist_NoDup _ _ Hstudents), sublist_delete.
  - rewrite list_fmap_delete.
    apply (sublist_NoDup _ _ Hseats), sublist_delete.
  - by apply Forall_delete.
Qed.

(** X29. Every handler of the fixed-seat screen keeps the list of fixed
    assignments free of repetitions: no student and no seat occurs in two
    assignments, and no id is empty. *)
Theorem FixedSeatConfig_keeps_assignments_unique
    (st : FixedSeatConfig.State) (studentId seatId : string)
    (indexToDelete : nat) (confirmed : bool) :
  fixedAssignmentsUnique (FixedSeatConfig.editableFixedSeatAssignments st) →
  fixedAssignmentsUnique
    (FixedSeatConfig.editableFixedSeatAssignments
       (FixedSeatConfig.handleStudentClick studentId st))
  ∧ fixedAssignmentsUnique
      (FixedSeatConfig.editableFixedSeatAssignments
         (FixedSeatConfig.handleSeatClick seatId st))
  ∧ fixedAssignmentsUnique
      (FixedSeatConfig.editableFixedSeatAssignments
         (FixedSeatConfig.handleAddAssignment st))
  ∧ fixedAssignmentsUnique
      (FixedSeatConfig.editableFixedSeatAssignments
         (FixedSeatConfig.handleDeleteAssignment indexToDelete st))
  ∧ fixedAssignmentsUnique
      (FixedSeatConfig.editableFixedSeatAssignments
         (FixedSeatConfig.handleClearAllAssignments confirmed st)).
Proof.
  intros Hunique. split; [|split; [|split; [|split]]].
  - unfold FixedSeatConfig.handleStudentClick. by case_bool_decide.
  - unfold FixedSeatConfig.handleSeatClick. by case_bool_decide.
  - unfold FixedSeatConfig.handleAddAssignment.
    destruct (FixedSeatConfig.selectedStudentId st) as [student|]; [|done].
    destruct (FixedSeatConfig.selectedSeatId st) as [seat|]; [|done].
    destruct (negb (truthy (Some student)) || negb (truthy (Some seat)))
      eqn:Hempty; [done|].
    apply orb_false_iff in Hempty as [Hstudent Hseat].
    apply negb_false_iff, negb_true_iff, bool_decide_eq_false in Hstudent.
    apply negb_false_iff, negb_true_iff, bool_decide_eq_false in Hseat.
    case_bool_decide as Hhas1; [done|]. case_bool_decide as Hhas2; [done|].
    unfold FixedSeatConfig.assignedStudentIds in Hhas1.
    unfold FixedSeatConfig.assignedSeatIds in Hhas2.
    rewrite elem_of_list_to_set in Hhas1, Hhas2.
    destruct Hunique as (Hstudents & Hseats & Hids). cbn.
    split; [|split].
    + rewrite fmap_app. apply NoDup_app. split; [done|]. split.
      * intros x Hx ->%list_elem_of_singleton. done.
      * apply NoDup_singleton.
    + rewrite fmap_app. apply NoDup_app. split; [done|]. split.
      * intros x Hx ->%list_elem_of_singleton. done.
      * apply NoDup_singleton.
    + apply Forall_app. split; [done|]. by apply Forall_singleton.
  - by apply fixedAssignmentsUnique_delete.
  - unfold FixedSeatConfig.handleClearAllAssignments.
    destruct confirmed; [|done].
    split; [constructor|split; [constructor|constructor]].
Qed.

(** ** The relation screen *)

Lemma sameRelation_true (id1 id2 : string) (type : Relation.RelationType)
    (rel : Relation.t) :
  RelationConfig.sameRelation id1 id2 type rel = true
  ↔ duplicateRelation rel (Relation.mk id1 id2 type).
Proof.
  unfold RelationConfig.sameRelation, duplicateRelation. cbn.
  rewrite andb_true_iff, orb_true_iff, !andb_true_iff,
    !bool_decide_eq_true.
  assert (RelationConfig.sameType (Relation.type rel) type = true
          ↔ Relation.type rel = type) as ->
    by (destruct (Relation.type rel), type; by split).
  tauto.
Qed.

Lemma duplicateRelation_sym (rel1 rel2 : Relation.t) :
  duplicateRelation rel1 rel2 → duplicateRelation rel2 rel1.
Proof. intros [Htype [[? ?]|[? ?]]]; split; auto. Qed.

Lemma relationsWellFormed_delete (relations : list Relation.t) (k : nat) :
  relationsWellFormed relations → relationsWellFormed (delete k relations).
Proof.
  intros [Hdistinct Hnodup]. split; [by apply Forall_delete|].
  intros i j rel1 rel2 Hi Hj Hdup.
  destruct (decide (i < k)%nat), (decide (j < k)%nat).
  - rewrite list_lookup_delete_lt in Hi, Hj by done. by eapply Hnodup.
  - rewrite list_lookup_delete_lt in Hi by done.
    rewrite list_lookup_delete_ge in Hj by lia.
    pose proof (Hnodup _ _ _ _ Hi Hj Hdup). lia.
  - rewrite list_lookup_delete_ge in Hi by lia.
    rewrite list_lookup_delete_lt in Hj by done.
    pose proof (Hnodup _ _ _ _ Hi Hj Hdup). lia.
  - rewrite list_lookup_delete_ge in Hi, Hj by lia.
    pose proof (Hnodup _ _ _ _ Hi Hj Hdup). lia.
Qed.

Lemma relationsWellFormed_add (relations : list Relation.t)
    (id1 id2 : string) (type : Relation.RelationType) :
  relationsWellFormed relations →
  id1 ≠ id2 →
  existsb (RelationConfig.sameRelation id1 id2 type) relations = false →
  relationsWellFormed (relations ++ [Relation.mk id1 id2 type]).
Proof.
  intros [Hdistinct Hnodup] Hne Hnew.
  assert (∀ rel, rel ∈ relations →
                 ¬ duplicateRelation rel (Relation.mk id1 id2 type)) as Hfresh.
  { intros rel Hin Hdup%sameRelation_true.
    assert (existsb (RelationConfig.sameRelation id1 id2 type) relations
            = true); [|congruence].
    apply existsb_exists. exists rel. by rewrite <-list_elem_of_In. }
  split; [apply Forall_app; split; [done|by apply Forall_singleton]|].
  intros i j rel1 rel2 Hi Hj Hdup.
  apply lookup_app_Some in Hi as [Hi|[Hlei Hi]];
    apply lookup_app_Some in Hj as [Hj|[Hlej Hj]].
  - by eapply Hnodup.
  - apply list_lookup_singleton_Some in Hj as [_ <-].
    destruct (Hfresh rel1); [by eapply list_elem_of_lookup_2|done].
  - apply list_lookup_singleton_Some in Hi as [_ <-].
    destruct (Hfresh rel2); [by eapply list_elem_of_lookup_2|].
    by apply duplicateRelation_sym.
  - apply list_lookup_singleton_Some in Hi as [Hi _].
    apply list_lookup_singleton_Some in Hj as [Hj _]. lia.
Qed.

Lemma NoDup_List_filter {A} (p : A → bool) (l : list A) :
  NoDup l → NoDup (List.filter p l).
Proof.
  intros Hnodup. rewrite <-(list_fmap_id (List.filter p l)).
  apply NoDup_fmap_filter. by rewrite list_fmap_id.
Qed.

(** X30. Every handler of the relation screen keeps the selection and the
    list of relations well formed: at most two students are selected and
    nobody twice, every relation is between two different students, and no
    relation of the same type between the same two students is listed twice,
    in either order. *)
Theorem RelationConfig_keeps_relations_well_formed
    (before : string → string → bool) (st : RelationConfig.State)
    (studentId : string) (type : Relation.RelationType)
    (indexToDelete : nat) (confirmed : bool) :
  selectionWellFormed (RelationConfig.selectedStudentIds st) →
  relationsWellFormed (RelationConfig.editableRelationConfig st) →
  Forall
    (λ st', selectionWellFormed (RelationConfig.selectedStudentIds st')
            ∧ relationsWellFormed (RelationConfig.editableRelationConfig st'))
    [ RelationConfig.handleStudentClick studentId st;
      RelationConfig.handleAddRelation before type st;
      RelationConfig.handleDeleteRelation indexToDelete st;
      RelationConfig.handleClearAllRelations confirmed st ].
Proof.
  intros [Hnodup Hlen] Hrels.
  repeat apply Forall_cons_2; [..|constructor].
  - split; [|done]. cbn.
    case_bool_decide as Hin; [|case_bool_decide as Hroom].
    + split; [by apply NoDup_List_filter|].
      etrans; [apply filter_length_le|done].
    + split; [|rewrite length_app; cbn; lia].
      apply NoDup_app. split; [done|]. split; [|apply NoDup_singleton].
      by intros x Hx ->%list_elem_of_singleton.
    + done.
  - unfold RelationConfig.handleAddRelation.
    destruct (RelationConfig.selectedStudentIds st)
      as [|a [|b [|c rest]]] eqn:Hselected; try done.
    assert (a ≠ b) as Hne.
    { apply NoDup_cons in Hnodup as [Ha _]. intros ->. apply Ha. by left. }
    unfold RelationConfig.sortTwo.
    destruct (before b a);
      destruct (existsb _ _) eqn:Hexists; cbn.
    + split; [|done]. split; [|done].
      apply NoDup_cons. split; [|apply NoDup_singleton].
      by intros ->%list_elem_of_singleton.
    + split; [split; [constructor|cbn; lia]|].
      by apply relationsWellFormed_add.
    + split; [|done]. by split.
    + split; [split; [constructor|cbn; lia]|].
      by apply relationsWellFormed_add.
  - split; [done|]. by apply relationsWellFormed_delete.
  - unfold RelationConfig.handleClearAllRelations.
    destruct confirmed; [|done]. split; [done|].
    split; [constructor|]. by intros i j rel1 rel2 Hi.
Qed.

(** ** The batch honours fixed assignments *)

Lemma findSeat_assign (seatMap : list Seat.t)
    (chosen studentId wanted : string) :
  findSeat (assignInSeatMap seatMap chosen studentId) wanted
  = assignSeat chosen studentId <$> findSeat seatMap wanted.
Proof.
  unfold findSeat, assignInSeatMap.
  induction seatMap as [|seat seatMap IH]; [done|].
  cbn [fmap list_fmap List.find].
  replace (Seat.seatId (assignSeat chosen studentId seat))
    with (Seat.seatId seat)
    by (unfold assignSeat; by destruct (bool_decide _)).
  by destruct (bool_decide (Seat.seatId seat = wanted)).
Qed.

Lemma fixedDone_commit (fa : FixedSeat.t) (tmp : BulkTemp)
    (studentId seatId : string) :
  fixedDone fa tmp →
  studentId ∉ assignedStudentIdsInTemp tmp →
  seatId ∉ assignedSeatIdsInTemp tmp →
  fixedDone fa (commitInTemp tmp studentId seatId).
Proof.
  intros (Hs & Hseat & (s & Hfind & Hassigned & Hat)
          & (seat & Hfindseat & Hholder)) Hfresh1 Hfresh2.
  split; [apply elem_of_union; by right|].
  split; [apply elem_of_union; by right|]. split.
  - exists s. cbn [commitInTemp tempStudents].
    rewrite findStudent_assign, Hfind. cbn.
    apply findStudent_Some in Hfind as [_ Hid].
    unfold assignStudent. rewrite bool_decide_eq_false_2; [done|].
    intros Heq. apply Hfresh1. by rewrite <-Heq, Hid.
  - exists seat. cbn [commitInTemp tempSeatMap].
    rewrite findSeat_assign, Hfindseat. cbn.
    apply findSeat_Some in Hfindseat as [_ Hid].
    unfold assignSeat. rewrite bool_decide_eq_false_2; [done|].
    intros Heq. apply Hfresh2. by rewrite <-Heq, Hid.
Qed.

Lemma fixedPending_commit (fa : FixedSeat.t) (tmp : BulkTemp)
    (studentId seatId : string) :
  fixedPending fa tmp →
  studentId ≠ FixedSeat.studentId fa →
  seatId ≠ FixedSeat.seatId fa →
  fixedPending fa (commitInTemp tmp studentId seatId).
Proof.
  intros (Hs & Hseat & (s & Hfind) & (seat & Hfindseat & Husable & Hfree))
    Hne1 Hne2.
  split; [apply not_elem_of_union; split;
            [apply not_elem_of_singleton; congruence|done]|].
  split; [apply not_elem_of_union; split;
            [apply not_elem_of_singleton; congruence|done]|].
  split.
  - exists s. cbn [commitInTemp tempStudents].
    rewrite findStudent_assign, Hfind. cbn.
    apply findStudent_Some in Hfind as [_ Hid].
    unfold assignStudent. rewrite bool_decide_eq_false_2; [done|]. congruence.
  - exists seat. cbn [commitInTemp tempSeatMap].
    rewrite findSeat_assign, Hfindseat. cbn.
    apply findSeat_Some in Hfindseat as [_ Hid].
    unfold assignSeat. rewrite bool_decide_eq_false_2; [done|]. congruence.
Qed.

Lemma assignFixed_pending (fa : FixedSeat.t)
    (acc : BulkTemp * list FixedError) :
  fixedPending fa acc.1 → fixedDone fa (assignFixed acc fa).1.
Proof.
  destruct acc as [tmp errors]. cbn [fst].
  intros (Hs & Hseat & (s & Hfind) & (seat & Hfindseat & Husable & Hfree)).
  unfold assignFixed. rewrite Hfind, Hfindseat, Husable. cbn [negb].
  pose proof (findStudent_Some _ _ _ Hfind) as [_ Hid].
  pose proof (findSeat_Some _ _ _ Hfindseat) as [_ Hsid].
  assert (truthy (Seat.assignedStudentId seat)
          && negb (bool_decide (Seat.assignedStudentId seat
                                = Some (Student.id s))) = false) as ->.
  { destruct Hfree as [->|Hown]; [done|].
    rewrite Hid, (bool_decide_eq_true_2 _ Hown). apply andb_false_r. }
  rewrite Hid, Hsid.
  rewrite (bool_decide_eq_false_2 _ Hs), (bool_decide_eq_false_2 _ Hseat).
  cbn [fst].
  split; [apply elem_of_union; left; by apply elem_of_singleton|].
  split; [apply elem_of_union; left; by apply elem_of_singleton|]. split.
  - eexists. cbn [commitInTemp tempStudents].
    rewrite findStudent_assign, Hfind. cbn.
    unfold assignStudent. rewrite (bool_decide_eq_true_2 _ Hid). by cbn.
  - eexists. cbn [commitInTemp tempSeatMap].
    rewrite findSeat_assign, Hfindseat. cbn.
    unfold assignSeat. rewrite (bool_decide_eq_true_2 _ Hsid). by cbn.
Qed.

Lemma phase1_keeps_done (fa : FixedSeat.t)
    (fixedSeatAssignments : list FixedSeat.t)
    (acc : BulkTemp * list FixedError) :
  fixedDone fa acc.1 →
  fixedDone fa (fold_left assignFixed fixedSeatAssignments acc).1.
Proof.
  revert acc. induction fixedSeatAssignments as [|f rest IH];
    intros acc Hdone; [done|].
  cbn [fold_left]. apply IH.
  destruct (assignFixed_cases acc f) as [->|(-> & Hfresh1 & Hfresh2)];
    [done|].
  by apply fixedDone_commit.
Qed.

Lemma phase1_honours (fa : FixedSeat.t)
    (fixedSeatAssignments : list FixedSeat.t)
    (acc : BulkTemp * list FixedError) :
  NoDup (FixedSeat.studentId <$> fixedSeatAssignments) →
  NoDup (FixedSeat.seatId <$> fixedSeatAssignments) →
  fa ∈ fixedSeatAssignments →
  fixedPending fa acc.1 →
  fixedDone fa (fold_left assignFixed fixedSeatAssignments acc).1.
Proof.
  revert acc. induction fixedSeatAssignments as [|f rest IH];
    intros acc Hstudents Hseats Hin Hpending;
    [by apply elem_of_nil in Hin|].
  cbn in Hstudents, Hseats.
  apply NoDup_cons in Hstudents as [Hstudent Hstudents].
  apply NoDup_cons in Hseats as [Hseat Hseats].
  cbn [fold_left].
  apply elem_of_cons in Hin as [->|Hin];
    [by apply phase1_keeps_done, assignFixed_pending|].
  apply IH; [done..|].
  destruct (assignFixed_cases acc f) as [->|(-> & _ & _)]; [done|].
  apply fixedPending_commit; [done|..].
  - intros Heq. apply Hstudent. rewrite Heq.
    apply list_elem_of_fmap. by exists fa.
  - intros Heq. apply Hseat. rewrite Heq.
    apply list_elem_of_fmap. by exists fa.
Qed.

Lemma placeStudent_keeps_done (fa : FixedSeat.t)
    (relations : list Relation.t) (acc : BulkTemp * list Seat.t * State)
    (student : Student.t) :
  fixedDone fa acc.1.1 →
  fixedDone fa (placeStudent relations acc student).1.1.
Proof.
  destruct acc as [[tmp remaining] st]. cbn [fst]. intros Hdone.
  unfold placeStudent.
  case_bool_decide as Hused; [done|].
  destruct (findSeatLoop _ _ _ _ _ _ _) as [[k seat]|] eqn:Hloop; [|done].
  apply findSeatLoop_Some in Hloop as [_ Hfresh].
  by apply fixedDone_commit.
Qed.

Lemma phase2_keeps_done (fa : FixedSeat.t) (relations : list Relation.t)
    (remainingUnassignedStudents : list Student.t)
    (acc : BulkTemp * list Seat.t * State) :
  fixedDone fa acc.1.1 →
  fixedDone fa
    (fold_left (placeStudent relations) remainingUnassignedStudents acc).1.1.
Proof.
  revert acc. induction remainingUnassignedStudents as [|student rest IH];
    intros acc Hdone; [done|].
  cbn [fold_left]. by apply IH, placeStudent_keeps_done.
Qed.

(** X28. A batch that runs carries out every fixed assignment that can be
    carried out: when no student and no seat is fixed twice, and the student
    and the seat of a fixed assignment exist, the seat being usable and free
    or the student's own, then after the batch the student's record shows
    that seat and the seat's record that student. *)
Theorem handleBulkAssign_honours_fixed
    (sortByNumber : list Student.t → list Student.t)
    (rndStudents rndSeats : nat → nat) (st : State) (fa : FixedSeat.t)
    (s : Student.t) (seat : Seat.t) :
  unassignedStudents sortByNumber st ≠ [] →
  (length (unassignedStudents sortByNumber st)
   ≤ length (availableSeats st))%nat →
  fixedAssignmentsUnique (fixedSeatAssignments st) →
  fa ∈ fixedSeatAssignments st →
  findStudent (students st) (FixedSeat.studentId fa) = Some s →
  findSeat (seatMap st) (FixedSeat.seatId fa) = Some seat →
  Seat.isUsable seat = true →
  freeOrOwn (FixedSeat.studentId fa) seat →
  (∃ s',
     findStudent
       (students (handleBulkAssign sortByNumber true rndStudents rndSeats st))
       (FixedSeat.studentId fa) = Some s'
     ∧ Student.isAssigned s' = true
     ∧ Student.assignedSeatId s' = Some (FixedSeat.seatId fa))
  ∧ ∃ seat',
      findSeat
        (seatMap (handleBulkAssign sortByNumber true rndStudents rndSeats st))
        (FixedSeat.seatId fa) = Some seat'
      ∧ Seat.assignedStudentId seat' = Some (FixedSeat.studentId fa).
Proof.
  intros Hsome Hfit (Hstudents & Hseats & _) Hin Hfind Hfindseat Husable Hfree.
  unfold handleBulkAssign.
  rewrite bool_decide_eq_false_2
    by (intros Hlen; by apply length_zero_iff_nil in Hlen).
  rewrite bool_decide_eq_false_2.
  2:{ intros Hlen. rewrite Hlen in Hfit.
      destruct (unassignedStudents sortByNumber st); [done|cbn in Hfit; lia]. }
  rewrite bool_decide_eq_false_2 by lia. cbn [negb].
  pose proof (phase1_honours fa (fixedSeatAssignments st)
                (mkBulkTemp (seatMap st) (students st)
                   (Roulette.winningHistory (rouletteState st)) ∅ ∅, [])
                Hstudents Hseats Hin) as Hphase1.
  destruct (fold_left assignFixed _ _) as [tmp1 errors].
  cbn [fst] in Hphase1.
  match goal with
  | |- context [fold_left (placeStudent ?rels) ?l ?acc] =>
      pose proof (phase2_keeps_done fa rels l acc) as Hphase2
  end.
  destruct (fold_left (placeStudent _) _ _) as [[tmp2 remaining] st2].
  cbn [fst snd] in Hphase2. cbn.
  destruct Hphase2 as (_ & _ & Hs' & Hseat'); [|done].
  apply Hphase1. split; [apply not_elem_of_empty|].
  split; [apply not_elem_of_empty|].
  split; [by exists s|]. by exists seat.
Qed.

(** * The properties on the sample data *)





Lemma stopRoulette_manual_rejected_continues_witness :
  localErrorMessage (stopRoulette (λ l, l) manualRejectedState) ≠ None
  ∧ students (stopRoulette (λ l, l) manualRejectedState)
    = students (stopRoulette (λ l, l)
                  (setManuallySelectedSeatIdForRoulette None
                     manualRejectedState))
  ∧ seatMap (stopRoulette (λ l, l) manualRejectedState)
    = seatMap (stopRoulette (λ l, l)
                 (setManuallySelectedSeatIdForRoulette None
                    manualRejectedState))
  ∧ rouletteState (stopRoulette (λ l, l) manualRejectedState)
    = rouletteState (stopRoulette (λ l, l)
                       (setManuallySelectedSeatIdForRoulette None
                          manualRejectedState)).
Proof.
  apply (stopRoulette_manual_rejected_continues (λ l, l) manualRejectedState
           aoi "R1C3" eq_refl eq_refl eq_refl eq_refl).
  - discriminate.
  - right. reflexivity.
Defined.


Lemma handleBulkAssign_preconditions_witness :
  handleBulkAssign (λ l, l) true (λ i, i) (λ i, i) everyoneSeatedState
  = setLocalErrorMessage (Some [NoStudentsToAssign]) everyoneSeatedState.
Proof.
  apply (proj1 (handleBulkAssign_preconditions (λ l, l)
                  ltac:(reflexivity) true (λ i, i) (λ i, i)
                  everyoneSeatedState)).
  reflexivity.
Defined.

Lemma handleBulkAssign_five_students_four_seats_witness :
  handleBulkAssign (λ l, l) true (λ i, i) (λ i, i) fiveStudentsFourSeats
  = setLocalErrorMessage (Some [MoreStudentsThanSeats 5 4])
      fiveStudentsFourSeats.
Proof.
  apply (handleBulkAssign_five_students_four_seats (λ l, l)
           ltac:(reflexivity) true (λ i, i) (λ i, i) fiveStudentsFourSeats).
  - reflexivity.
  - reflexivity.
Defined.

Lemma engine_operations_preserve_invariant_witness :
  Consistent (stopRoulette (λ l, l) manualRejectedState)
  ∧ Consistent
      (handleBulkAssign (λ l, l) true (λ i, i) (λ i, i) manualRejectedState)
  ∧ Consistent (handleResetRoulette (λ l, l) true manualRejectedState).
Proof.
  apply (engine_operations_preserve_invariant (λ l, l) (λ l, l) true true
           (λ i, i) (λ i, i) manualRejectedState
           manualRejectedState_Consistent).
  reflexivity.
Defined.

Lemma checkRelationConstraints_conjunction_witness :
  checkRelationConstraints "R1C2" (Some (sampleStudent "S2" "Ben" None))
    gridSeats gridStudents
    [Relation.mk "S1" "S2" Relation.co_seat;
     Relation.mk "S2" "S1" Relation.no_co_seat]
  = checkRelationConstraints "R1C2" (Some (sampleStudent "S2" "Ben" None))
      gridSeats gridStudents
      [Relation.mk "S2" "S1" Relation.no_co_seat;
       Relation.mk "S1" "S2" Relation.co_seat].
Proof.
  apply (proj2 (checkRelationConstraints_conjunction "R1C2"
                  (sampleStudent "S2" "Ben" None) gridSeats gridStudents
                  [Relation.mk "S1" "S2" Relation.co_seat;
                   Relation.mk "S2" "S1" Relation.no_co_seat]
                  [Relation.mk "S2" "S1" Relation.no_co_seat;
                   Relation.mk "S1" "S2" Relation.co_seat])).
  apply perm_swap.
Defined.

Lemma checkRelationConstraints_seat_ids_witness :
  getAdjacentSeatIds "R2C2" gridSeats
  = getAdjacentSeatIds "R2C2" (clearSeat <$> gridSeats)
  ∧ checkRelationConstraints "R1C2" (Some (sampleStudent "S2" "Ben" None))
      gridSeats gridStudents [Relation.mk "S1" "S2" Relation.co_seat]
    = checkRelationConstraints "R1C2" (Some (sampleStudent "S2" "Ben" None))
        (clearSeat <$> gridSeats) gridStudents
        [Relation.mk "S1" "S2" Relation.co_seat].
Proof.
  split.
  - apply (checkRelationConstraints_seat_ids "R2C2" None gridSeats
             (clearSeat <$> gridSeats) [] []).
    reflexivity.
  - apply (checkRelationConstraints_seat_ids "R1C2"
             (Some (sampleStudent "S2" "Ben" None)) gridSeats
             (clearSeat <$> gridSeats) gridStudents
             [Relation.mk "S1" "S2" Relation.co_seat]).
    reflexivity.
Defined.

Lemma checkRelationConstraints_contradictory_witness :
  checkRelationConstraints "R1C2" (Some (sampleStudent "S2" "Ben" None))
    gridSeats gridStudents
    [Relation.mk "S1" "S2" Relation.co_seat;
     Relation.mk "S2" "S1" Relation.no_co_seat] = false.
Proof.
  apply (checkRelationConstraints_contradictory "R1C2"
           (sampleStudent "S2" "Ben" None) gridSeats gridStudents _
           (Relation.mk "S1" "S2" Relation.co_seat)
           (Relation.mk "S2" "S1" Relation.no_co_seat) "R2C2").
  - apply list_elem_of_here.
  - apply list_elem_of_further, list_elem_of_here.
  - reflexivity.
  - reflexivity.
  - right. reflexivity.
  - left. reflexivity.
  - reflexivity.
  - exists (sampleStudent "S1" "Aoi" (Some "R2C2")).
    split; [reflexivity|]. split; [reflexivity|]. split; [reflexivity|].
    discriminate.
Defined.


Lemma stopRoulette_commits_drawable_witness :
  ∃ sel seat,
    selectedStudentForAssignment drawState = Some sel
    ∧ Student.id sel = "S1"
    ∧ Seat.seatId seat = "R1C2"
    ∧ drawable sel drawState seat
    ∧ committed "S1" "R1C2" drawState (stopRoulette (λ l, l) drawState).
Proof.
  apply (stopRoulette_commits_drawable (λ l, l) drawState "S1" "R1C2").
  - reflexivity.
  - reflexivity.
  - reflexivity.
Defined.


Lemma noAdmissibleSeatState_seatIds (seat : Seat.t) :
  seat ∈ seatMap noAdmissibleSeatState → Seat.seatId seat ≠ "".
Proof.
  intros Hin. cbn in Hin.
  repeat (apply elem_of_cons in Hin as [->|Hin]); try done.
  by apply elem_of_nil in Hin.
Qed.

Lemma stopRoulette_fails_iff_none_admissible_witness :
  Roulette.winningHistory
    (rouletteState (stopRoulette (λ l, l) noAdmissibleSeatState))
  = Roulette.winningHistory (rouletteState noAdmissibleSeatState).
Proof.
  apply (proj2 (stopRoulette_fails_iff_none_admissible (λ l, l)
                  noAdmissibleSeatState aoi eq_refl eq_refl eq_refl
                  ltac:(reflexivity) noAdmissibleSeatState_seatIds
                  ltac:(vm_compute; lia))).
  intros seat Hin Hok. vm_compute in Hin.
  inversion Hin as [|? ? ? Hin']; subst; [discriminate|inversion Hin'].
Defined.

Lemma drawState_relation_satisfied :
  relationSatisfied (students drawState) (seatMap drawState)
    (Relation.mk "S1" "S2" Relation.co_seat).
Proof.
  apply (unseated_relationSatisfied _ _ _ "S1"); [by left|].
  intros seatId (p & [= <-] & [=] & _).
Qed.

Lemma stopRoulette_keeps_relations_witness :
  relationSatisfied (students (stopRoulette (λ l, l) drawState))
    (seatMap (stopRoulette (λ l, l) drawState))
    (Relation.mk "S1" "S2" Relation.co_seat).
Proof.
  apply (stopRoulette_keeps_relations (λ l, l) drawState).
  - intros sel [= <-]. reflexivity.
  - reflexivity.
  - apply list_elem_of_here.
  - discriminate.
  - exact drawState_relation_satisfied.
Defined.

Lemma handleBulkAssign_keeps_relations_witness :
  relationSatisfied
    (students (handleBulkAssign (λ l, l) true (λ i, i) (λ i, i) drawState))
    (seatMap (handleBulkAssign (λ l, l) true (λ i, i) (λ i, i) drawState))
    (Relation.mk "S1" "S2" Relation.co_seat).
Proof.
  apply (handleBulkAssign_keeps_relations (λ l, l) true (λ i, i) (λ i, i)
           drawState).
  - apply list_elem_of_here.
  - discriminate.
  - intros fa Hin. inversion Hin.
  - exact drawState_relation_satisfied.
Defined.

Lemma handleBulkAssign_relations_hold_witness :
  relationSatisfied
    (students
       (handleBulkAssign (λ l, l) true (λ i, i) (λ i, i) fixedPartnerState))
    (seatMap
       (handleBulkAssign (λ l, l) true (λ i, i) (λ i, i) fixedPartnerState))
    (Relation.mk "S1" "S2" Relation.co_seat).
Proof.
  apply (handleBulkAssign_relations_hold (λ l, l) true (λ i, i) (λ i, i)
           fixedPartnerState _ "S1").
  - apply list_elem_of_here.
  - discriminate.
  - left. reflexivity.
  - intros seatId (p & [= <-] & [=] & _).
  - intros fa Hin. inversion Hin as [|? ? ? Hin']; [discriminate|].
    inversion Hin'.
Defined.

Lemma gridState_seatIds (seat : Seat.t) :
  seat ∈ seatMap gridState → Seat.seatId seat ≠ "".
Proof.
  intros Hin. cbn in Hin.
  repeat (apply elem_of_cons in Hin as [->|Hin]); try done.
  by apply elem_of_nil in Hin.
Qed.

Lemma gridState_seatIds_NoDup : NoDup (Seat.seatId <$> seatMap gridState).
Proof. apply (bool_decide_unpack _). by vm_compute. Qed.

Lemma handleBulkAssign_seats_everyone_witness :
  Forall (λ s, Student.isAssigned s = true)
    (students (handleBulkAssign (λ l, l) true (λ i, i) (λ i, i) gridState)).
Proof.
  apply (handleBulkAssign_seats_everyone (λ l, l) ltac:(reflexivity)
           (λ i, i) (λ i, i) gridState eq_refl eq_refl
           gridState_seatIds_NoDup gridState_seatIds).
  vm_compute. lia.
Defined.

Lemma reset_then_bulk_seats_everyone_witness :
  Forall (λ s, Student.isAssigned s = true)
    (students
       (handleBulkAssign (λ l, l) true (λ i, i) (λ i, i)
          (handleResetRoulette (λ l, l) true gridState)))
  ∧ localErrorMessage
      (handleBulkAssign (λ l, l) true (λ i, i) (λ i, i)
         (handleResetRoulette (λ l, l) true gridState)) = None.
Proof.
  apply (reset_then_bulk_seats_everyone (λ l, l) ltac:(reflexivity)
           (λ i, i) (λ i, i) gridState eq_refl eq_refl
           gridState_seatIds_NoDup gridState_seatIds).
  - discriminate.
  - vm_compute. lia.
Defined.



Lemma readyState_ids_NoDup : NoDup (Student.id <$> students readyState).
Proof. apply (bool_decide_unpack _). by vm_compute. Qed.

Lemma handleStudentSelect_selects_unassigned_witness :
  ∃ st', handleStudentSelect "S1" readyState = inr st'.
Proof.
  apply (proj1 (handleStudentSelect_selects_unassigned "S1" readyState
                  readyState_ids_NoDup)).
  split; [reflexivity|]. exists aoi.
  split; [apply list_elem_of_here|]. split; reflexivity.
Defined.

Lemma handleCloseResultModal_next_student_witness :
  ∃ next, next ∈ students fixedPartnerState
          ∧ Student.isAssigned next = false.
Proof.
  pose proof (handleCloseResultModal_next_student (λ l, l)
                ltac:(reflexivity) fixedPartnerState) as Hnext.
  cbn in Hnext. destruct Hnext as (next & Hin & Hun & _).
  exists next. split; [exact Hin|exact Hun].
Defined.

Lemma chartState_Consistent : Consistent chartState.
Proof.
  split; [split|split; [|split]].
  - apply (bool_decide_unpack _). by vm_compute.
  - intros s Hs. cbn in Hs.
    repeat (apply elem_of_cons in Hs as [->|Hs]); try done.
    by apply elem_of_nil in Hs.
  - intros s Hs. cbn in Hs.
    repeat (apply elem_of_cons in Hs as [->|Hs]); try done.
    by apply elem_of_nil in Hs.
  - intros [|[|i]] [|[|j]] s1 s2 seatId H1 H2 Hheld1 Hheld2; cbn in *;
      by simplify_eq/=.
  - intros s seat Hs Hseat. cbn in Hs, Hseat.
    repeat (apply elem_of_cons in Hs as [->|Hs]);
      repeat (apply elem_of_cons in Hseat as [->|Hseat]);
      try (by apply elem_of_nil in Hs); try (by apply elem_of_nil in Hseat);
      by vm_compute.
Qed.

Lemma chartState_aoi : holdsSeat (students chartState) "S1" "R1C2".
Proof.
  exists (sampleStudent "S1" "Aoi" (Some "R1C2")).
  split; [apply list_elem_of_here|]. by split.
Qed.

Lemma chartState_sound :
  seatRecordsSound (students chartState) (seatMap chartState).
Proof.
  intros seat studentId Hseat. cbn in Hseat.
  repeat (apply elem_of_cons in Hseat as [->|Hseat]);
    [| |done|by apply elem_of_nil in Hseat].
  - intros [= <-]. exists (sampleStudent "S2" "Ben" (Some "R1C1")).
    split; [apply list_elem_of_further, list_elem_of_here|]. by split.
  - intros [= <-]. exact chartState_aoi.
Qed.

Lemma handleMoveStudent_swaps_consistently_witness :
  Consistent
    (handleMoveStudent AppPhase.chart (Some "R1C1") "S1" "R1C2" chartState).
Proof.
  exact (proj1 (handleMoveStudent_swaps_consistently AppPhase.chart
                  (Some "R1C1") "S1" "R1C2" chartState chartState_Consistent
                  chartState_aoi)).
Defined.

Lemma handleMoveStudent_back_restores_witness :
  handleMoveStudent AppPhase.chart (Some "R1C2") "S1" "R1C1"
    (handleMoveStudent AppPhase.chart (Some "R1C1") "S1" "R1C2" chartState)
  = chartState.
Proof.
  exact (handleMoveStudent_back_restores "S1" "R1C2" "R1C1" chartState
           chartState_Consistent chartState_sound chartState_aoi).
Defined.

Lemma gridSeats_layout :
  sameLayout (SeatMapConfig.generateSeatMap 3 3 []) gridSeats.
Proof. reflexivity. Qed.

Lemma getAdjacentSeatIds_on_grid_witness :
  seatIdOf 1 2 ∈ getAdjacentSeatIds (seatIdOf 2 2) gridSeats.
Proof.
  apply (proj1 (proj2 (getAdjacentSeatIds_on_grid 3 3 gridSeats 2 2
                         gridSeats_layout ltac:(lia) ltac:(lia)))).
  unfold onGrid. lia.
Defined.

Lemma reopenSeatMapConfig_reproduces_witness :
  reopenSeatMapConfig gridSeats = gridSeats.
Proof.
  apply (reopenSeatMapConfig_reproduces 3 3 gridSeats gridSeats_layout
           ltac:(lia) ltac:(lia)).
Defined.

Lemma getAdjacentSeatIds_versions_witness :
  SecondVersion.getAdjacentSeatIds "R2C2" gridSeats
  = getAdjacentSeatIds "R2C2" gridSeats.
Proof.
  apply (proj2 (getAdjacentSeatIds_versions "R2C2" gridSeats)).
  intros seat Hin. unfold gridSeats in Hin.
  repeat (apply elem_of_cons in Hin as [->|Hin]); try reflexivity.
  by apply elem_of_nil in Hin.
Defined.

Lemma fixedSeatScreen_unique :
  fixedAssignmentsUnique
    (FixedSeatConfig.editableFixedSeatAssignments fixedSeatScreen).
Proof.
  split; [apply NoDup_singleton|]. split; [apply NoDup_singleton|].
  by apply Forall_singleton.
Qed.

Lemma FixedSeatConfig_keeps_assignments_unique_witness :
  fixedAssignmentsUnique
    (FixedSeatConfig.editableFixedSeatAssignments
       (FixedSeatConfig.handleAddAssignment fixedSeatScreen)).
Proof.
  exact (proj1 (proj2 (proj2
           (FixedSeatConfig_keeps_assignments_unique fixedSeatScreen "S2"
              "R1C2" 0 true fixedSeatScreen_unique)))).
Defined.

Lemma RelationConfig_keeps_relations_well_formed_witness :
  Forall
    (λ st', selectionWellFormed (RelationConfig.selectedStudentIds st')
            ∧ relationsWellFormed (RelationConfig.editableRelationConfig st'))
    [ RelationConfig.handleStudentClick "S3" relationScreen;
      RelationConfig.handleAddRelation String.ltb Relation.co_seat
        relationScreen;
      RelationConfig.handleDeleteRelation 0 relationScreen;
      RelationConfig.handleClearAllRelations true relationScreen ].
Proof.
  apply (RelationConfig_keeps_relations_well_formed String.ltb relationScreen
           "S3" Relation.co_seat 0 true).
  - split; [|cbn; lia]. apply (bool_decide_unpack _). by vm_compute.
  - split; [constructor|]. by intros i j rel1 rel2 Hi.
Defined.

Lemma handleBulkAssign_honours_fixed_witness :
  ∃ s',
    findStudent
      (students
         (handleBulkAssign (λ l, l) true (λ i, i) (λ i, i) fixedPartnerState))
      "S2" = Some s'
    ∧ Student.isAssigned s' = true
    ∧ Student.assignedSeatId s' = Some "R1C1".
Proof.
  apply (handleBulkAssign_honours_fixed (λ l, l) (λ i, i) (λ i, i)
           fixedPartnerState (FixedSeat.mk "S2" "R1C1")
           (sampleStudent "S2" "Ben" None) (seatAt 1 1 None true)).
  - discriminate.
  - vm_compute. lia.
  - split; [apply NoDup_singleton|]. split; [apply NoDup_singleton|].
    by apply Forall_singleton.
  - apply list_elem_of_here.
  - reflexivity.
  - reflexivity.
  - reflexivity.
  - left. reflexivity.
Defined.
